(** * crypto-exporter: the Etherscan connector

    A shallow embedding of [exporter/connectors/connector.py] and
    [exporter/connectors/etherscan_connector.py]: the retry loop of the API
    client ([__load_retry]), the unit conversion of token balances
    ([_get_token_balance_on_account]) and the aggregation of balances into
    the table [_accounts] ([retrieve_tokens], [retrieve_accounts]).

    Conventions of the embedding.
    - A Python value decoded by [Response.json()] is a [value]; Python [None]
      is [PyNone].
    - A Python [dict] is an insertion-ordered association list ([dict]):
      [for k in d] walks the keys in insertion order, and writing an existing
      key keeps its position.
    - A Python exception is the [Raise] case of [result]; the methods thread
      the state of the connector explicitly.
    - The remote server and the clock are an explicit environment: [net]
      answers a request given the history of events so far, and every
      [requests.get] and [time.sleep] is appended to that history.
    - A Python [float] is represented by the rational number it denotes, and
      the rounding of a real result to the nearest [float] is the map [fl],
      which stays abstract.  Logging is not modelled. *)

From Stdlib Require Import ZArith QArith String Ascii List Bool Lia.
Import ListNotations.

Local Open Scope string_scope.
Local Open Scope Z_scope.

(** ** The fragment of the Python runtime the connector uses *)

Module Py.

(** Exceptions the modelled code can raise.  [OutsideModel] is not a Python
    exception: it marks an input on which Python would go on with a value the
    embedding has no representation for (a dictionary key that is not a
    string). *)
Inductive exn : Type :=
  | TypeError
  | ValueError
  | KeyError
  | AttributeError
  | OutsideModel.

(** The outcome of running a piece of code: a value, an exception that
    propagates, or a loop cut off by its iteration bound. *)
Inductive result (A : Type) : Type :=
  | Ok (a : A)
  | Raise (e : exn)
  | OutOfFuel.

Arguments Ok {A} a.
Arguments Raise {A} e.
Arguments OutOfFuel {A}.

Definition bind {A B : Type} (m : result A) (k : A -> result B) : result B :=
  match m with
  | Ok a => k a
  | Raise e => Raise e
  | OutOfFuel => OutOfFuel
  end.

(** Insertion-ordered dictionaries with string keys. *)
Definition dict (V : Type) : Type := list (string * V).

Fixpoint dict_get {V : Type} (k : string) (d : dict V) : option V :=
  match d with
  | [] => None
  | (k', v) :: d' => if String.eqb k k' then Some v else dict_get k d'
  end.

(** [d.update({k: v})], also [d[k] = v]. *)
Fixpoint dict_set {V : Type} (k : string) (v : V) (d : dict V) : dict V :=
  match d with
  | [] => [(k, v)]
  | (k', v') :: d' =>
      if String.eqb k k' then (k, v) :: d' else (k', v') :: dict_set k v d'
  end.

Definition dict_keys {V : Type} (d : dict V) : list string := map fst d.

(** [d.update(d2)]: the items of [d2] are written in their order. *)
Definition dict_update {V : Type} (d d2 : dict V) : dict V :=
  fold_left (fun acc kv => dict_set (fst kv) (snd kv) acc) d2 d.

(** What [json()] can return.  A finite float is the rational it denotes. *)
#[warnings="-register-all"]
Inductive value : Type :=
  | PyNone
  | PyBool (b : bool)
  | PyInt (z : Z)
  | PyFloat (q : Q)
  | PyStr (s : string)
  | PyList (l : list value)
  | PyDict (kv : list (string * value)).

(** Truth value testing, as in [if data:]. *)
Definition truthy (v : value) : bool :=
  match v with
  | PyNone => false
  | PyBool b => b
  | PyInt z => negb (z =? 0)
  | PyFloat q => negb (Qeq_bool q 0)
  | PyStr s => negb (String.eqb s "")
  | PyList l => match l with [] => false | _ => true end
  | PyDict kv => match kv with [] => false | _ => true end
  end.

(** [kv.get(k)] for the items of a dictionary. *)
Definition field (k : string) (kv : dict value) : value :=
  match dict_get k kv with
  | Some x => x
  | None => PyNone
  end.

(** [v.get(k)]: only a [dict] has the method. *)
Definition py_get (v : value) (k : string) : result value :=
  match v with
  | PyDict kv => Ok (field k kv)
  | _ => Raise AttributeError
  end.

(** [v[k]] with a string subscript. *)
Definition py_getitem (v : value) (k : string) : result value :=
  match v with
  | PyDict kv =>
      match dict_get k kv with
      | Some x => Ok x
      | None => Raise KeyError
      end
  | _ => Raise TypeError
  end.

(** [v == s] for a string literal [s]. *)
Definition py_eq_str (v : value) (s : string) : bool :=
  match v with
  | PyStr s' => String.eqb s' s
  | _ => false
  end.

(** [needle in hay] for two strings. *)
Fixpoint is_substring (needle hay : string) : bool :=
  String.prefix needle hay
  || match hay with
     | EmptyString => false
     | String _ hay' => is_substring needle hay'
     end.

(** [s in v] for a string literal [s]: substring of a string, element of a
    list, key of a dictionary; other operands are not iterable. *)
Definition py_in (s : string) (v : value) : result bool :=
  match v with
  | PyStr hay => Ok (is_substring s hay)
  | PyList l => Ok (existsb (fun x => py_eq_str x s) l)
  | PyDict kv => Ok (existsb (fun k => String.eqb k s) (dict_keys kv))
  | _ => Raise TypeError
  end.

(** [for x in v]: the sequence of values the loop variable takes. *)
Fixpoint chars (s : string) : list value :=
  match s with
  | EmptyString => []
  | String c s' => PyStr (String c EmptyString) :: chars s'
  end.

Definition py_iter (v : value) : result (list value) :=
  match v with
  | PyList l => Ok l
  | PyDict kv => Ok (map PyStr (dict_keys kv))
  | PyStr s => Ok (chars s)
  | _ => Raise TypeError
  end.

(** Decimal integer literals: an optional sign and one or more digits.
    [int] and [float] of Python accept further spellings (blanks around the
    number, underscores, and for [float] a fraction or an exponent); on those
    the model raises [ValueError], the API sends none of them. *)
Definition digit_of_ascii (c : ascii) : option Z :=
  let n := Z.of_nat (nat_of_ascii c) in
  if (48 <=? n) && (n <=? 57) then Some (n - 48) else None.

Fixpoint digits_value (acc : Z) (s : string) : option Z :=
  match s with
  | EmptyString => Some acc
  | String c s' =>
      match digit_of_ascii c with
      | Some d => digits_value (10 * acc + d) s'
      | None => None
      end
  end.

Definition unsigned_literal (s : string) : option Z :=
  match s with
  | EmptyString => None
  | _ => digits_value 0 s
  end.

Definition parse_int (s : string) : option Z :=
  match s with
  | EmptyString => None
  | String c s' =>
      if Ascii.eqb c "-"%char then option_map Z.opp (unsigned_literal s')
      else if Ascii.eqb c "+"%char then unsigned_literal s'
      else unsigned_literal s
  end.

(** [int(v)]. *)
Definition py_int (v : value) : result Z :=
  match v with
  | PyStr s =>
      match parse_int s with
      | Some z => Ok z
      | None => Raise ValueError
      end
  | PyInt z => Ok z
  | PyBool b => Ok (if b then 1 else 0)
  | PyFloat q => Ok (Z.quot (Qnum q) (Z.pos (Qden q)))
  | _ => Raise TypeError
  end.

(** A number held in a local variable: an [int] or a [float]. *)
Inductive number : Type :=
  | NInt (z : Z)
  | NFloat (q : Q).

Section Rounding.

(** Rounding of a rational to the nearest [float].  Values beyond the range
    of a [float], where Python raises [OverflowError], are outside the
    model: amounts on the chain are below 2^256. *)
Variable fl : Q -> Q.

(** [float(n)] for a number. *)
Definition float_of_number (n : number) : Q :=
  match n with
  | NInt z => fl (inject_Z z)
  | NFloat q => q
  end.

(** [float(v)]. *)
Definition py_float (v : value) : result Q :=
  match v with
  | PyStr s =>
      match parse_int s with
      | Some z => Ok (fl (inject_Z z))
      | None => Raise ValueError
      end
  | PyInt z => Ok (fl (inject_Z z))
  | PyBool b => Ok (fl (inject_Z (if b then 1 else 0)))
  | PyFloat q => Ok q
  | _ => Raise TypeError
  end.

(** [a / b] for two [int]s: the correctly rounded quotient. *)
Definition int_truediv (a b : Z) : Q :=
  fl (inject_Z a / inject_Z b)%Q.

(** [x / b] for a [float] and an [int] that a [float] holds exactly. *)
Definition float_truediv (x : Q) (b : Z) : Q :=
  fl (x / inject_Z b)%Q.

End Rounding.

(** A value used as a dictionary key.  Lists and dictionaries are
    unhashable; the remaining values are hashable in Python but are not keys
    of the modelled table. *)
Definition py_key (v : value) : result string :=
  match v with
  | PyStr s => Ok s
  | PyList _ | PyDict _ => Raise TypeError
  | _ => Raise OutsideModel
  end.

End Py.

Export Py.

Declare Scope py_scope.
Delimit Scope py_scope with py.
Notation "x <- m ;; k" := (bind m (fun x => k))
  (at level 61, m at next level, right associativity) : py_scope.
Local Open Scope py_scope.

(** ** Data of the connector *)

(** One entry of the [tokens] setting: [{'contract', 'decimals', 'short'}],
    where [decimals] may be absent. *)
Record TokenSpec : Type := {
  contract : string;
  decimals : option Z;
  short : string
}.

(** [self.settings], built by [__init__]. *)
Record Settings : Type := {
  api_key : string;
  url : string;
  addresses : option (list string);
  tokens : option (list TokenSpec);
  enable_authentication : bool
}.

(** The balance table [{SYMBOL: {ACCOUNT_NAME: float(value)}}]. *)
Definition table : Type := dict (dict Q).

(** One HTTP GET: [requests.get(url, params=request_data)]. *)
Record request : Type := {
  req_url : string;
  req_params : dict value
}.

(** The two exceptions [__load_retry] catches. *)
Inductive transport_error : Type :=
  | ConnectionError
  | ReadTimeout.

(** What one [requests.get(...).json()] does: it raises one of the caught
    exceptions or returns the decoded body.  A body that is not JSON, and
    exceptions of [requests] outside the [except] clause, are not modelled. *)
Inductive attempt : Type :=
  | Failed (e : transport_error)
  | Response (doc : value).

(** What the connector does to the outside, in order. *)
Inductive event : Type :=
  | Get (r : request) (a : attempt)
  | Sleep (seconds : Z)
  | AuthenticationError (msg : value).

(** What a method of one connector sees and changes: its own [settings], the
    dictionary [self._accounts] resolves to, and the history of events. *)
Record state : Type := {
  settings : Settings;
  _accounts : table;
  trace : list event
}.

Definition set_enable_authentication (b : bool) (s : state) : state :=
  {| settings :=
       {| api_key := api_key (settings s);
          url := url (settings s);
          addresses := addresses (settings s);
          tokens := tokens (settings s);
          enable_authentication := b |};
     _accounts := _accounts s;
     trace := trace s |}.

Definition set_accounts (t : table) (s : state) : state :=
  {| settings := settings s; _accounts := t; trace := trace s |}.

Definition emit (evs : list event) (s : state) : state :=
  {| settings := settings s; _accounts := _accounts s;
     trace := trace s ++ evs |}.

(** The local variables of [__load_retry]. *)
Record locals : Type := {
  request_data : dict value;
  data : value;
  retry : bool;
  count : Z
}.

(** [not d.get(k)] for a dictionary of dictionaries. *)
Definition missing_or_empty {V : Type} (k : string) (d : dict (dict V)) : bool :=
  match dict_get k d with
  | Some (_ :: _) => false
  | _ => true
  end.

(** [if not self._accounts.get(k): self._accounts.update({k: {}})]. *)
Definition ensure_symbol (k : string) (s : state) : state :=
  if missing_or_empty k (_accounts s)
  then set_accounts (dict_set k [] (_accounts s)) s
  else s.

(** [self._accounts[sym].update({account: v})]. *)
Definition store (sym account : string) (v : Q) (s : state) : result state :=
  match dict_get sym (_accounts s) with
  | Some inner =>
      Ok (set_accounts (dict_set sym (dict_set account v inner) (_accounts s)) s)
  | None => Raise KeyError
  end.

(** [for x in l: body(x)], stopping at the first exception. *)
Fixpoint for_each {A : Type} (body : A -> state -> result state)
    (l : list A) (s : state) : result state :=
  match l with
  | [] => Ok s
  | x :: l' => s' <- body x s ;; for_each body l' s'
  end.

(** ** The methods of [EtherscanConnector] *)

(** Lines 104-108: the parameters of a [tokenbalance] request. *)
Definition token_request_data (account : string) (token : TokenSpec)
    : dict value :=
  [("action", PyStr "tokenbalance");
   ("contractaddress", PyStr (contract token));
   ("address", PyStr account)].

Section Connector.

(** Rounding to the nearest [float]. *)
Variable fl : Q -> Q.

(** The remote server: its answer to a request, given everything that
    happened before. *)
Variable net : list event -> request -> attempt.

(** Lines 68-72: the fields every request carries. *)
Definition api_fields (s : state) : dict value :=
  [("apikey", PyStr (api_key (settings s)));
   ("module", PyStr "account");
   ("tag", PyStr "latest")].

(** Line 73: the request sent for the parameters [rd]. *)
Definition request_for (s : state) (rd : dict value) : request :=
  {| req_url := url (settings s); req_params := rd |}.

(** Lines 62-80, the [try] statement of one iteration. *)
Definition try_block (retries : Z) (l : locals) (s : state) : locals * state :=
  let count' := count l + 1 in
  if count' >? retries then
    ({| request_data := request_data l; data := data l;
        retry := false; count := count' |}, s)
  else
    let rd := dict_update (request_data l) (api_fields s) in
    let req := request_for s rd in
    match net (trace s) req with
    | Failed e =>
        ({| request_data := rd; data := data l;
            retry := retry l; count := count' |},
         emit [Get req (Failed e); Sleep 1] s)
    | Response doc =>
        ({| request_data := rd; data := doc;
            retry := false; count := count' |},
         emit [Get req (Response doc)] s)
    end.

(** Modelled from the spec: [utils.authentication_error_handler] is not under
    src/; the spec says the authentication failure is surfaced once as a
    diagnostic and never raised as an exception. *)
Definition authentication_error_handler (msg : value) (s : state) : state :=
  emit [AuthenticationError msg] s.

(** Lines 82-90, the handling of a [NOTOK] answer. *)
Definition notok_block (l : locals) (s : state) : result (locals * state) :=
  if truthy (data l) then
    msg <- py_get (data l) "message" ;;
    notok <- py_in "NOTOK" msg ;;
    if notok then
      res <- py_get (data l) "result" ;;
      if py_eq_str res "Invalid API Key" then
        Ok ({| request_data := request_data l; data := PyNone;
               retry := false; count := count l |},
            emit [Sleep 1]
              (set_enable_authentication false
                 (authentication_error_handler res s)))
      else
        Ok ({| request_data := request_data l; data := PyNone;
               retry := true; count := count l |},
            emit [Sleep 1] s)
    else Ok (l, s)
  else Ok (l, s).

(** Lines 92-93, the extraction of the result of an [OK] answer. *)
Definition ok_block (l : locals) : result locals :=
  if truthy (data l) then
    msg <- py_get (data l) "message" ;;
    ok <- (if py_eq_str msg "OK" then Ok true else py_in "OK-" msg) ;;
    if ok then
      res <- py_get (data l) "result" ;;
      if truthy res then
        Ok {| request_data := request_data l; data := res;
              retry := retry l; count := count l |}
      else Ok l
    else Ok l
  else Ok l.

(** Lines 62-93, one iteration of the [while] loop. *)
Definition iteration (retries : Z) (l : locals) (s : state)
    : result (locals * state) :=
  let (l1, s1) := try_block retries l s in
  ls2 <- notok_block l1 s1 ;;
  l3 <- ok_block (fst ls2) ;;
  Ok (l3, snd ls2).

(** Line 61, [while retry:], run for at most [fuel] iterations. *)
Fixpoint while_retry (fuel : nat) (retries : Z) (l : locals) (s : state)
    : result (locals * state) :=
  if retry l then
    match fuel with
    | O => OutOfFuel
    | S fuel' =>
        ls <- iteration retries l s ;;
        while_retry fuel' retries (fst ls) (snd ls)
    end
  else Ok (l, s).

(** Lines 55-95.  The loop is given one iteration more than the budget allows
    attempts; it is shown below never to need more. *)
Definition __load_retry (request_data : dict value) (retries : Z) (s : state)
    : result (value * state) :=
  ls <- while_retry (S (Z.to_nat retries)) retries
          {| request_data := request_data; data := PyNone;
             retry := true; count := 0 |} s ;;
  Ok (data (fst ls), snd ls).

(** Lines 113-115: the number of decimals of a token, 18 unless the entry
    gives a non-negative one. *)
Definition token_decimals (token : TokenSpec) : Z :=
  match decimals token with
  | Some d => if d >=? 0 then d else 18
  | None => 18
  end.

(** Lines 110 and 112-117: the balance computed from what the client
    returned. *)
Definition balance_of_data (d : value) (token : TokenSpec) : result Q :=
  if truthy d then
    r <- py_int d ;;
    if r >? 0 then
      let decimals := token_decimals token in
      Ok (float_of_number fl
            (if decimals >? 0
             then NFloat (int_truediv fl r (10 ^ decimals))
             else NInt r))
    else Ok (float_of_number fl (NInt 0))
  else Ok (float_of_number fl (NInt 0)).

(** Lines 97-117. *)
Definition _get_token_balance_on_account (account : string) (token : TokenSpec)
    (s : state) : result (Q * state) :=
  let request_data := token_request_data account token in
  ds <- __load_retry request_data 5 s ;;
  balance <- balance_of_data (fst ds) token ;;
  Ok (balance, snd ds).

(** Lines 126-132, the body of the inner loop of [retrieve_tokens]. *)
Definition token_step (account : string) (token : TokenSpec) (s : state)
    : result state :=
  let s1 := ensure_symbol (short token) s in
  bs <- _get_token_balance_on_account account token s1 ;;
  store (short token) account (fst bs) (snd bs).

(** [for token in self.settings['tokens']] (line 125). *)
Definition tokens_loop (account : string) (s : state) : result state :=
  match tokens (settings s) with
  | Some ts => for_each (token_step account) ts s
  | None => Raise TypeError
  end.

(** Lines 119-132.  The loop at line 124 walks the keys of
    [self._accounts['ETH']]; its body writes under those keys only, so the
    keys are those present when the loop starts. *)
Definition retrieve_tokens (s : state) : result state :=
  let s1 := ensure_symbol "ETH" s in
  match dict_get "ETH" (_accounts s1) with
  | Some eth => for_each tokens_loop (dict_keys eth) s1
  | None => Raise KeyError
  end.

(** Lines 147-149, the body of the loop over the entries returned by
    [balancemulti]. *)
Definition native_step (entry : value) (s : state) : result state :=
  k <- py_getitem entry "account" ;;
  b <- py_getitem entry "balance" ;;
  x <- py_float fl b ;;
  account <- py_key k ;;
  store "ETH" account (float_truediv fl x 1000000000000000000) s.

(** Lines 143-149: what [retrieve_accounts] does with the data of
    [balancemulti]. *)
Definition store_native (d : value) (s : state) : result state :=
  if truthy d then
    entries <- py_iter d ;;
    for_each native_step entries (ensure_symbol "ETH" s)
  else Ok s.

(** [bool(self.settings['tokens'])]. *)
Definition tokens_configured (s : state) : bool :=
  match tokens (settings s) with
  | Some (_ :: _) => true
  | _ => false
  end.

Definition addresses_value (s : state) : value :=
  match addresses (settings s) with
  | Some l => PyList (map PyStr l)
  | None => PyNone
  end.

(** Lines 138-141: the parameters of the [balancemulti] request. *)
Definition native_request_data (s : state) : dict value :=
  [("action", PyStr "balancemulti");
   ("address", addresses_value s)].

(** Lines 138-149: the request for the native balances and their storage. *)
Definition retrieve_native (s : state) : result state :=
  let request_data := native_request_data s in
  ds <- __load_retry request_data 5 s ;;
  store_native (fst ds) (snd ds).

(** Lines 134-153. *)
Definition retrieve_accounts (s : state) : result (table * state) :=
  if enable_authentication (settings s) then
    s1 <- retrieve_native s ;;
    s2 <- (if tokens_configured s1 then retrieve_tokens s1 else Ok s1) ;;
    Ok (_accounts s2, s2)
  else Ok (_accounts s, s).

(** [Connector.get_accounts]. *)
Definition get_accounts (s : state) : table := _accounts s.

End Connector.

(** ** Objects: the class attribute and the instances *)

(** [Connector._accounts = {}] is evaluated once, when the class is created:
    the class owns one dictionary.  No method assigns [self._accounts], so in
    every instance, of [Connector] or of a subclass, the attribute resolves
    to that dictionary, and the methods change it in place.
    [self.settings] is assigned by [__init__] and belongs to the instance. *)
Record Heap : Type := {
  Connector_accounts : table;
  instances : list Settings;
  history : list event
}.

(** The keyword arguments of the constructor; [None] is an absent key. *)
Record kwargs : Type := {
  kw_api_key : option string;
  kw_url : option string;
  kw_addresses : option (list string);
  kw_tokens : option (list TokenSpec)
}.

(** Lines 42-53. *)
Definition __init__ (kw : kwargs) : result Settings :=
  match kw_api_key kw with
  | None | Some EmptyString => Raise ValueError
  | Some key =>
      Ok {| api_key := key;
            url := match kw_url kw with
                   | Some u => u
                   | None => "https://api.etherscan.io/api"
                   end;
            addresses := kw_addresses kw;
            tokens := kw_tokens kw;
            enable_authentication := true |}
  end.

(** The constructor call: the new instance is named by its position. *)
Definition new (kw : kwargs) (h : Heap) : result (nat * Heap) :=
  st <- __init__ kw ;;
  Ok (length (instances h),
      {| Connector_accounts := Connector_accounts h;
         instances := instances h ++ [st];
         history := history h |}).

Fixpoint replace_nth {A : Type} (n : nat) (x : A) (l : list A) : list A :=
  match l, n with
  | [], _ => []
  | _ :: l', O => x :: l'
  | y :: l', S n' => y :: replace_nth n' x l'
  end.

(** What the methods of instance [self] see. *)
Definition view (self : nat) (h : Heap) : option state :=
  match nth_error (instances h) self with
  | Some st =>
      Some {| settings := st; _accounts := Connector_accounts h;
              trace := history h |}
  | None => None
  end.

(** The heap after a method of instance [self] ran. *)
Definition commit (self : nat) (s : state) (h : Heap) : Heap :=
  {| Connector_accounts := _accounts s;
     instances := replace_nth self (settings s) (instances h);
     history := trace s |}.

(** [self.m()] for a method [m] and the instance [self]. *)
Definition call {A : Type} (m : state -> result (A * state)) (self : nat)
    (h : Heap) : result (A * Heap) :=
  match view self h with
  | Some s => rs <- m s ;; Ok (fst rs, commit self (snd rs) h)
  | None => Raise AttributeError
  end.

(** [self.get_accounts()]. *)
Definition call_get_accounts (self : nat) (h : Heap) : option table :=
  option_map get_accounts (view self h).

(** A process that has only loaded the module. *)
Definition initial_heap : Heap :=
  {| Connector_accounts := []; instances := []; history := [] |}.

(** ** Concrete arithmetic and servers *)

(** Exact arithmetic: every rational is kept, in lowest terms. *)
Definition exact : Q -> Q := Qred.

(** A server that is unreachable. *)
Definition unreachable : list event -> request -> attempt :=
  fun _ _ => Failed ConnectionError.

(** ** Vocabulary of the statements *)

(** The value stored for [account] under [sym], if any. *)
Definition lookup (sym account : string) (t : table) : option Q :=
  match dict_get sym t with
  | Some inner => dict_get account inner
  | None => None
  end.

(** The number of requests in a history. *)
Definition requests_made (tr : list event) : nat :=
  length (filter (fun ev => match ev with Get _ _ => true | _ => false end) tr).

(** The events of failed attempts on the request [req], each followed by the
    pause of one second. *)
Definition failed_rounds (req : request) (es : list transport_error)
    : list event :=
  flat_map (fun e => [Get req (Failed e); Sleep 1]) es.

(** The test on [message] at line 92, for a message that is a string. *)
Definition ok_message (m : string) : bool :=
  String.eqb m "OK" || is_substring "OK-" m.

(** The token entry [token] with its [decimals] set to [n]. *)
Definition with_decimals (n : Z) (token : TokenSpec) : TokenSpec :=
  {| contract := contract token; decimals := Some n; short := short token |}.

(** The only changes [__load_retry] makes to the state: it may clear
    [enable_authentication], and it appends events. *)
Definition act (disable : bool) (evs : list event) (s : state) : state :=
  {| settings :=
       {| api_key := api_key (settings s);
          url := url (settings s);
          addresses := addresses (settings s);
          tokens := tokens (settings s);
          enable_authentication :=
            if disable then false else enable_authentication (settings s) |};
     _accounts := _accounts s;
     trace := trace s ++ evs |}.

(** A document that reports [NOTOK] with the result ["Invalid API Key"]. *)
Definition invalid_api_key_answer (doc : value) : bool :=
  match doc with
  | PyDict kv =>
      match py_in "NOTOK" (field "message" kv) with
      | Ok true => py_eq_str (field "result" kv) "Invalid API Key"
      | _ => false
      end
  | _ => false
  end.

(** Some request among the events was answered that way. *)
Definition auth_observed (evs : list event) : bool :=
  existsb (fun ev => match ev with
                     | Get _ (Response doc) => invalid_api_key_answer doc
                     | _ => false
                     end) evs.

(** [t[sym][account] = v], creating [t[sym]] when the symbol is new. *)
Definition tset (sym account : string) (v : Q) (t : table) : table :=
  dict_set sym
    (dict_set account v
       (match dict_get sym t with Some inner => inner | None => [] end)) t.

(** An entry of the result of [balancemulti]: the account and, as a decimal
    string, its balance in wei. *)
Definition is_native_entry (e : value) (p : string * Z) : Prop :=
  exists digits,
    py_getitem e "account" = Ok (PyStr (fst p))
    /\ py_getitem e "balance" = Ok (PyStr digits)
    /\ parse_int digits = Some (snd p).

(** The balance of the last entry for [account], if there is one. *)
Fixpoint last_entry (account : string) (entries : list (string * Z))
    : option Z :=
  match entries with
  | [] => None
  | (a, raw) :: rest =>
      match last_entry account rest with
      | Some r => Some r
      | None => if String.eqb a account then Some raw else None
      end
  end.

(** [s'] comes after [s] in the life of a connector: the configuration is the
    same, the history has grown, the flag was not set again, and it is clear
    if one of the new requests was answered ["Invalid API Key"]. *)
Definition reaches (s s' : state) : Prop :=
  api_key (settings s') = api_key (settings s)
  /\ url (settings s') = url (settings s)
  /\ addresses (settings s') = addresses (settings s)
  /\ tokens (settings s') = tokens (settings s)
  /\ (enable_authentication (settings s) = false ->
      enable_authentication (settings s') = false)
  /\ exists evs,
       trace s' = (trace s ++ evs)%list
       /\ (auth_observed evs = true ->
           enable_authentication (settings s') = false).

(** The methods of a connector, as calls that can be put in sequence. *)
Inductive method : Type :=
  | LoadRetry (request_data : dict value) (retries : Z)
  | GetTokenBalanceOnAccount (account : string) (token : TokenSpec)
  | RetrieveTokens
  | RetrieveAccounts
  | GetAccounts.

(** One write [t[sym][account] = v]. *)
Definition write : Type := (string * string * Q)%type.

Definition apply_write (t : table) (w : write) : table :=
  tset (fst (fst w)) (snd (fst w)) (snd w) t.

Definition apply_writes (ws : list write) (t : table) : table :=
  fold_left apply_write ws t.

(** [t[sym][account]] exists. *)
Definition present (sym account : string) (t : table) : Prop :=
  lookup sym account t <> None.

(** Whether a sequence writes the cell. *)
Definition writes_cell (sym account : string) (ws : list write) : bool :=
  existsb (fun w => String.eqb (fst (fst w)) sym
                    && String.eqb (snd (fst w)) account) ws.

(** [if not t.get(sym): t.update({sym: {}})] on a table. *)
Definition ensure_table (sym : string) (t : table) : table :=
  if missing_or_empty sym t then dict_set sym [] t else t.

(** The accounts under ["ETH"], in the order of the dictionary. *)
Definition eth_keys (t : table) : list string :=
  match dict_get "ETH" t with
  | Some eth => dict_keys eth
  | None => []
  end.

(** Two states of connectors with the same configuration. *)
Definition config_eq (s s2 : state) : Prop :=
  api_key (settings s2) = api_key (settings s)
  /\ url (settings s2) = url (settings s)
  /\ addresses (settings s2) = addresses (settings s)
  /\ tokens (settings s2) = tokens (settings s).

(** The state after a method: the flag possibly cleared, events added, and
    the table replaced. *)
Definition after (dis : bool) (evs : list event) (t : table) (s : state)
    : state :=
  act dis evs (set_accounts t s).

(** The table after the native writes [wn] and the token writes [wt]. *)
Definition refreshed (wn wt : list write) (t : table) : table :=
  apply_writes wt (ensure_table "ETH" (apply_writes wn t)).

(** Under [sym], nothing changed and the tokens are those configured. *)
Definition keeps (sym : string) (s s' : state) : Prop :=
  tokens (settings s') = tokens (settings s)
  /\ forall a, lookup sym a (_accounts s') = lookup sym a (_accounts s).

(** The document [doc] is a success that carries the result [res]: its
    message is a string without ["NOTOK"] that is ["OK"] or contains ["OK-"],
    and [res] is not empty. *)
Definition is_success (doc res : value) : Prop :=
  exists kv m,
    doc = PyDict kv
    /\ dict_get "message" kv = Some (PyStr m)
    /\ is_substring "NOTOK" m = false
    /\ ok_message m = true
    /\ field "result" kv = res
    /\ truthy res = true.

(** A server that answers every [balancemulti] request with the entries
    [entries] and every [tokenbalance] request with an amount. *)
Definition success_server (net : list event -> request -> attempt)
    (entries : list (string * Z)) : Prop :=
  (forall h r,
     dict_get "action" (req_params r) = Some (PyStr "balancemulti") ->
     exists doc l,
       net h r = Response doc /\ is_success doc (PyList l)
       /\ Forall2 is_native_entry l entries)
  /\ (forall h r,
        dict_get "action" (req_params r) = Some (PyStr "tokenbalance") ->
        exists doc digits z,
          net h r = Response doc /\ is_success doc (PyStr digits)
          /\ parse_int digits = Some z).

(** An answer after which the loop goes round again: a connection error or a
    read timeout, or a document whose message contains ["NOTOK"] and whose
    result is not ["Invalid API Key"]. *)
Definition retried (a : attempt) : Prop :=
  match a with
  | Failed _ => True
  | Response (PyDict kv) =>
      py_in "NOTOK" (field "message" kv) = Ok true
      /\ py_eq_str (field "result" kv) "Invalid API Key" = false
  | Response _ => False
  end.

(** The events of attempts on the request [req] that got the answers
    [answers], each followed by the pause of one second. *)
Definition rounds (req : request) (answers : list attempt) : list event :=
  flat_map (fun a => [Get req a; Sleep 1]) answers.

(** From the history [h] on, the server gives the answers [answers], in
    order, to the request [req] sent again after each of them, and each is an
    answer the loop retries. *)
Fixpoint answered (net : list event -> request -> attempt) (h : list event)
    (req : request) (answers : list attempt) : Prop :=
  match answers with
  | [] => True
  | a :: rest =>
      net h req = a /\ retried a
      /\ answered net (h ++ [Get req a; Sleep 1]) req rest
  end.

Section Vocabulary.

Variable fl : Q -> Q.
Variable net : list event -> request -> attempt.

(** Line 148: [float(balance)/(1000000000000000000)]. *)
Definition native_balance (raw : Z) : Q :=
  float_truediv fl (fl (inject_Z raw)) 1000000000000000000.

Definition native_writes (entries : list (string * Z)) (t : table) : table :=
  fold_left (fun acc p => tset "ETH" (fst p) (native_balance (snd p)) acc)
    entries t.

(** A call of a method, and a sequence of calls. *)
Definition run_method (m : method) (s : state) : result state :=
  match m with
  | LoadRetry rd retries => ds <- __load_retry net rd retries s ;; Ok (snd ds)
  | GetTokenBalanceOnAccount account token =>
      bs <- _get_token_balance_on_account fl net account token s ;; Ok (snd bs)
  | RetrieveTokens => retrieve_tokens fl net s
  | RetrieveAccounts => ts <- retrieve_accounts fl net s ;; Ok (snd ts)
  | GetAccounts => Ok s
  end.

Definition run_methods (ms : list method) (s : state) : result state :=
  for_each run_method ms s.

End Vocabulary.

(** ** Vocabulary of the further properties *)

(** The local variables [l] with [k] added to the counter. *)
Definition recount (k : Z) (l : locals) : locals :=
  {| request_data := request_data l; data := data l;
     retry := retry l; count := count l + k |}.

(** The seconds spent in [time.sleep] in a history. *)
Definition seconds_slept (tr : list event) : Z :=
  fold_right (fun ev acc => match ev with Sleep n => n + acc | _ => acc end)
    0 tr.

(** An event a connector in state [s] can cause: a request to its [url] that
    carries its key and the two fixed selectors, a pause of one second, or
    the report of the rejected key. *)
Definition sent_by (s : state) (ev : event) : Prop :=
  match ev with
  | Get r _ =>
      req_url r = url (settings s)
      /\ dict_get "apikey" (req_params r) = Some (PyStr (api_key (settings s)))
      /\ dict_get "module" (req_params r) = Some (PyStr "account")
      /\ dict_get "tag" (req_params r) = Some (PyStr "latest")
  | Sleep n => n = 1
  | AuthenticationError msg => msg = PyStr "Invalid API Key"
  end.

(** [s'] follows [s]: same configuration; the history has grown by events of
    the connector; the flag is set exactly when it was set and none of the
    new requests was answered ["Invalid API Key"]; no symbol and no entry of
    the table has gone. *)
Definition follows (s s' : state) : Prop :=
  config_eq s s'
  /\ (forall sym, dict_get sym (_accounts s) <> None ->
                  dict_get sym (_accounts s') <> None)
  /\ (forall sym a, present sym a (_accounts s) ->
                    present sym a (_accounts s'))
  /\ exists evs,
       trace s' = (trace s ++ evs)%list
       /\ Forall (sent_by s) evs
       /\ enable_authentication (settings s')
          = enable_authentication (settings s) && negb (auth_observed evs).

(** An event of a call of the client that sends the request [req]. *)
Definition sent_for (req : request) (ev : event) : Prop :=
  match ev with
  | Get r _ => r = req
  | Sleep n => n = 1
  | AuthenticationError msg => msg = PyStr "Invalid API Key"
  end.

(** What a run of the client for the request [req] did: the change of state,
    and counts over the events it added. *)
Definition caused (req : request) (retries_left : nat) (s s' : state) : Prop :=
  exists evs,
    s' = act (auth_observed evs) evs s
    /\ Forall (sent_for req) evs
    /\ (requests_made evs <= retries_left)%nat
    /\ 0 <= seconds_slept evs <= Z.of_nat (requests_made evs).

(** An answer that gives the client no data: a connection error or a read
    timeout, or a document whose message contains ["NOTOK"]. *)
Definition refuses (a : attempt) : Prop :=
  match a with
  | Failed _ => True
  | Response (PyDict kv) => py_in "NOTOK" (field "message" kv) = Ok true
  | Response _ => False
  end.

(** The entry for [a] under [sym] holds [float(0)]. *)
Definition zero (fl : Q -> Q) (s : state) (sym a : string) : Prop :=
  lookup sym a (_accounts s) = Some (fl 0%Q).

(** Between [s] and [s'] at most [n] requests were sent, and the pauses took
    no more seconds than there were requests. *)
Definition within (n : nat) (s s' : state) : Prop :=
  exists evs,
    trace s' = (trace s ++ evs)%list
    /\ (requests_made evs <= n)%nat
    /\ 0 <= seconds_slept evs <= Z.of_nat (requests_made evs).

(** The configured tokens, none when [tokens] is [None]. *)
Definition configured_tokens (s : state) : list TokenSpec :=
  match tokens (settings s) with
  | Some ts => ts
  | None => []
  end.

(** Closes a goal [Forall (sent_for req) evs] on a list of events that is
    written out. *)
Ltac sent_events :=
  repeat (apply Forall_cons; [reflexivity|]); apply Forall_nil.

(** ** Concrete configurations and servers *)

Definition usdc : TokenSpec :=
  {| contract := "0xT"; decimals := Some 6; short := "USDC" |}.

Definition demo_kwargs : kwargs :=
  {| kw_api_key := Some "key"; kw_url := None;
     kw_addresses := Some ["0xA"; "0xB"]; kw_tokens := Some [usdc] |}.

Definition native_only_kwargs : kwargs :=
  {| kw_api_key := Some "key"; kw_url := None;
     kw_addresses := Some ["0xA"]; kw_tokens := None |}.

Definition demo_settings : Settings :=
  {| api_key := "key"; url := "https://api.etherscan.io/api";
     addresses := Some ["0xA"; "0xB"]; tokens := Some [usdc];
     enable_authentication := true |}.

Definition native_only_settings : Settings :=
  {| api_key := "key"; url := "https://api.etherscan.io/api";
     addresses := Some ["0xA"]; tokens := None;
     enable_authentication := true |}.

(** A connector that has not retrieved anything yet. *)
Definition demo_state : state :=
  {| settings := demo_settings; _accounts := []; trace := [] |}.

Definition native_only_state : state :=
  {| settings := native_only_settings; _accounts := []; trace := [] |}.

(** A connector whose table holds balances of an earlier cycle. *)
Definition stale_state : state :=
  {| settings := demo_settings;
     _accounts := [("ETH", [("0xA", 2%Q); ("0xB", 1%Q)]);
                   ("USDC", [("0xA", 5%Q); ("0xB", 7%Q)])];
     trace := [] |}.

Definition ok_document (res : value) : value :=
  PyDict [("status", PyStr "1"); ("message", PyStr "OK"); ("result", res)].

Definition native_entry (account digits : string) : value :=
  PyDict [("account", PyStr account); ("balance", PyStr digits)].

(** The server of the end-to-end example of the spec: two native balances,
    and 5000000 units of the token on every account. *)
Definition demo_server : list event -> request -> attempt :=
  fun _ r =>
    match dict_get "action" (req_params r) with
    | Some (PyStr "balancemulti") =>
        Response (ok_document
                    (PyList [native_entry "0xA" "2000000000000000000";
                             native_entry "0xB" "0"]))
    | _ => Response (ok_document (PyStr "5000000"))
    end.

(** The server of the example when its first answer is lost: the first
    request times out, the following ones are answered. *)
Definition flaky_server : list event -> request -> attempt :=
  fun h r =>
    match h with
    | [] => Failed ReadTimeout
    | _ :: _ => demo_server h r
    end.

(** A server that answers for the account 0xA only: every other request times
    out. *)
Definition partial_server : list event -> request -> attempt :=
  fun _ r =>
    match dict_get "address" (req_params r) with
    | Some (PyStr "0xA") => Response (ok_document (PyStr "6000000"))
    | _ => Failed ReadTimeout
    end.

(** A well-formed answer with an empty result. *)
Definition empty_result_document : value := ok_document (PyStr "").

Definition empty_result_server : list event -> request -> attempt :=
  fun _ _ => Response empty_result_document.

(** An answer without the field [message]. *)
Definition no_message_document : value :=
  PyDict [("status", PyStr "1"); ("result", PyStr "5000000")].

Definition no_message_server : list event -> request -> attempt :=
  fun _ _ => Response no_message_document.

(** The answer to a key the provider does not accept. *)
Definition invalid_key_document : value :=
  PyDict [("status", PyStr "0"); ("message", PyStr "NOTOK");
          ("result", PyStr "Invalid API Key")].

Definition invalid_key_server : list event -> request -> attempt :=
  fun _ _ => Response invalid_key_document.

(** A server under load: every answer is [NOTOK] with a rate-limit notice. *)
Definition rate_limit_document : value :=
  PyDict [("status", PyStr "0"); ("message", PyStr "NOTOK");
          ("result", PyStr "Max rate limit reached")].

Definition rate_limit_server : list event -> request -> attempt :=
  fun _ _ => Response rate_limit_document.

(** A connector without tokens whose table holds a native balance. *)
Definition native_stale_state : state :=
  {| settings := native_only_settings;
     _accounts := [("ETH", [("0xA", 2%Q)])];
     trace := [] |}.

(** A connector whose table also holds a balance under a symbol that is not
    configured. *)
Definition legacy_state : state :=
  {| settings := demo_settings;
     _accounts := [("ETH", [("0xA", 2%Q); ("0xB", 1%Q)]);
                   ("USDC", [("0xA", 5%Q); ("0xB", 7%Q)]);
                   ("DAI", [("0xA", 9%Q)])];
     trace := [] |}.

(** ** Dictionaries *)

Section DictFacts.

Context {V : Type}.
Implicit Types (d : dict V) (k : string) (v : V).

Lemma dict_get_set_eq k v d : dict_get k (dict_set k v d) = Some v.
Proof.
  induction d as [|[k0 v0] d IH]; simpl.
  - now rewrite String.eqb_refl.
  - destruct (String.eqb k k0) eqn:E; simpl.
    + now rewrite String.eqb_refl.
    + now rewrite E.
Qed.

Lemma dict_get_set_neq k k' v d :
  k <> k' -> dict_get k' (dict_set k v d) = dict_get k' d.
Proof.
  intros Hne. induction d as [|[k0 v0] d IH]; simpl.
  - destruct (String.eqb_spec k' k); congruence.
  - destruct (String.eqb_spec k k0) as [->|Hk]; simpl.
    + destruct (String.eqb_spec k' k0); congruence.
    + now rewrite IH.
Qed.

Lemma dict_get_set k k' v d :
  dict_get k' (dict_set k v d)
  = if String.eqb k k' then Some v else dict_get k' d.
Proof.
  destruct (String.eqb_spec k k') as [->|Hne].
  - apply dict_get_set_eq.
  - now apply dict_get_set_neq.
Qed.

Lemma dict_set_same k v d : dict_get k d = Some v -> dict_set k v d = d.
Proof.
  induction d as [|[k0 v0] d IH]; simpl; [discriminate|].
  destruct (String.eqb_spec k k0) as [->|Hk]; intros H.
  - congruence.
  - now rewrite IH.
Qed.

Lemma dict_set_set k v v' d : dict_set k v (dict_set k v' d) = dict_set k v d.
Proof.
  induction d as [|[k0 v0] d IH]; simpl.
  - now rewrite String.eqb_refl.
  - destruct (String.eqb k k0) eqn:E; simpl.
    + now rewrite String.eqb_refl.
    + now rewrite E, IH.
Qed.

Lemma dict_set_comm k k' v v' d :
  k <> k' -> dict_get k d <> None ->
  dict_set k v (dict_set k' v' d) = dict_set k' v' (dict_set k v d).
Proof.
  intros Hne. induction d as [|[k0 v0] d IH]; simpl; [congruence|].
  destruct (String.eqb_spec k k0) as [->|Hk]; intros Hin.
  - destruct (String.eqb_spec k' k0) as [->|Hk']; [congruence|]. simpl.
    rewrite String.eqb_refl.
    destruct (String.eqb_spec k' k0); congruence.
  - destruct (String.eqb_spec k' k0) as [->|Hk']; simpl.
    + destruct (String.eqb_spec k k0); [congruence|].
      now rewrite String.eqb_refl.
    + destruct (String.eqb_spec k k0); [congruence|].
      destruct (String.eqb_spec k' k0); [congruence|].
      now rewrite IH.
Qed.

Lemma dict_keys_set_present k v d :
  dict_get k d <> None -> dict_keys (dict_set k v d) = dict_keys d.
Proof.
  unfold dict_keys.
  induction d as [|[k0 v0] d IH]; simpl; [congruence|].
  destruct (String.eqb_spec k k0) as [->|Hk]; intros Hin; simpl.
  - reflexivity.
  - now rewrite IH.
Qed.

Lemma dict_get_In_keys k d : dict_get k d <> None <-> In k (dict_keys d).
Proof.
  unfold dict_keys.
  induction d as [|[k0 v0] d IH]; simpl; [intuition congruence|].
  destruct (String.eqb_spec k k0) as [->|Hk].
  - split; [auto | congruence].
  - rewrite IH. intuition congruence.
Qed.

End DictFacts.

(** ** The retry loop *)

Section RetryLoop.

Variable net : list event -> request -> attempt.

Lemma notok_block_count l s l' s' :
  notok_block l s = Ok (l', s') -> count l' = count l.
Proof.
  unfold notok_block.
  destruct (truthy (data l)); [|now inversion 1].
  destruct (py_get (data l) "message") as [msg| |]; simpl; try discriminate.
  destruct (py_in "NOTOK" msg) as [[|]| |]; simpl; try discriminate;
    [|now inversion 1].
  destruct (py_get (data l) "result") as [res| |]; simpl; try discriminate.
  destruct (py_eq_str res "Invalid API Key"); now inversion 1.
Qed.

Lemma ok_block_count l l' :
  ok_block l = Ok l' -> count l' = count l /\ retry l' = retry l.
Proof.
  unfold ok_block.
  destruct (truthy (data l)); [|now inversion 1].
  destruct (py_get (data l) "message") as [msg| |]; simpl; try discriminate.
  destruct (if py_eq_str msg "OK" then Ok true else py_in "OK-" msg)
    as [[|]| |]; simpl; try discriminate; [|now inversion 1].
  destruct (py_get (data l) "result") as [res| |]; simpl; try discriminate.
  destruct (truthy res); now inversion 1.
Qed.

Lemma try_block_count retries l s :
  count (fst (try_block net retries l s)) = count l + 1.
Proof.
  unfold try_block. destruct (count l + 1 >? retries); [reflexivity|].
  now destruct (net _ _).
Qed.

(** The counter grows by one in every iteration. *)
Lemma iteration_count retries l s l' s' :
  iteration net retries l s = Ok (l', s') -> count l' = count l + 1.
Proof.
  unfold iteration. pose proof (try_block_count retries l s) as Hc.
  destruct (try_block net retries l s) as [l1 s1]. simpl in Hc.
  destruct (notok_block l1 s1) as [[l2 s2]| |] eqn:E2; simpl; try discriminate.
  destruct (ok_block l2) as [l3| |] eqn:E3; simpl; try discriminate.
  intros H; inversion H; subst.
  apply notok_block_count in E2. apply ok_block_count in E3. lia.
Qed.

(** Once the counter has reached the budget, an iteration that starts without
    data makes no request and clears [retry]. *)
Lemma iteration_over_budget retries l s :
  data l = PyNone -> retries <= count l ->
  iteration net retries l s
  = Ok ({| request_data := request_data l; data := PyNone;
           retry := false; count := count l + 1 |}, s).
Proof.
  intros Hd Hc. unfold iteration, try_block.
  replace (count l + 1 >? retries) with true by (symmetry; apply Z.gtb_lt; lia).
  unfold notok_block, ok_block. simpl. rewrite Hd. reflexivity.
Qed.

(** Whenever the loop is about to go round again, [data] is [None]. *)
Lemma iteration_invariant retries l s l' s' :
  data l = PyNone -> retry l = true ->
  iteration net retries l s = Ok (l', s') ->
  retry l' = true -> data l' = PyNone.
Proof.
  intros Hd Hr. unfold iteration, try_block.
  destruct (count l + 1 >? retries).
  - unfold notok_block, ok_block. simpl. rewrite Hd. simpl.
    intros H; inversion H; subst. reflexivity.
  - destruct (net _ _) as [e|doc].
    + unfold notok_block, ok_block. simpl. rewrite Hd. simpl.
      intros H; inversion H; subst. reflexivity.
    + unfold notok_block. simpl.
      destruct (truthy doc) eqn:Ht.
      * destruct (py_get doc "message") as [msg| |]; simpl; try discriminate.
        destruct (py_in "NOTOK" msg) as [[|]| |]; simpl; try discriminate.
        -- destruct (py_get doc "result") as [res| |]; simpl; try discriminate.
           destruct (py_eq_str res "Invalid API Key"); simpl;
             intros H; inversion H; subst; reflexivity.
        -- destruct (ok_block _) as [l3| |] eqn:E3; simpl; try discriminate.
           apply ok_block_count in E3. simpl in E3.
           intros H; inversion H; subst. destruct E3 as [_ E3]. congruence.
      * simpl. destruct (ok_block _) as [l3| |] eqn:E3; simpl; try discriminate.
        apply ok_block_count in E3. simpl in E3.
        intros H; inversion H; subst. destruct E3 as [_ E3]. congruence.
Qed.

(** The body of the loop holds no loop of its own. *)
Lemma iteration_not_out_of_fuel retries l s :
  iteration net retries l s <> OutOfFuel.
Proof.
  unfold iteration. destruct (try_block net retries l s) as [l1 s1].
  unfold notok_block, ok_block, py_get, py_in.
  repeat
    (match goal with
     | |- context [match ?x with _ => _ end] => destruct x; simpl
     end; try discriminate).
Qed.

Lemma while_retry_done fuel retries l s :
  retry l = false -> while_retry net fuel retries l s = Ok (l, s).
Proof. intros H. destruct fuel; simpl; now rewrite H. Qed.

(** Enough fuel: one iteration more than the attempts the budget leaves. *)
Lemma while_retry_fuel retries fuel l s :
  (retry l = true -> data l = PyNone) ->
  (Z.to_nat (retries - count l) < fuel)%nat ->
  while_retry net fuel retries l s <> OutOfFuel
  /\ forall extra,
       while_retry net (fuel + extra) retries l s
       = while_retry net fuel retries l s.
Proof.
  revert l s. induction fuel as [|fuel IH]; intros l s Hinv Hfuel; [lia|].
  simpl. destruct (retry l) eqn:Hr; [|split; [discriminate|reflexivity]].
  specialize (Hinv eq_refl).
  pose proof (iteration_not_out_of_fuel retries l s) as Hnf.
  destruct (iteration net retries l s) as [[l' s']| |] eqn:Hit; simpl;
    [|split; [discriminate|reflexivity]|congruence].
  destruct (Z_le_gt_dec retries (count l)) as [Hle|Hgt].
  - rewrite (iteration_over_budget retries l s Hinv Hle) in Hit.
    inversion Hit; subst.
    split; [|intros extra]; rewrite !while_retry_done by reflexivity;
      [discriminate|reflexivity].
  - pose proof (iteration_count _ _ _ _ _ Hit) as Hc.
    apply IH.
    + intros Hr'. eapply iteration_invariant; eauto.
    + rewrite Hc. lia.
Qed.

End RetryLoop.

(** ** Termination of the retry loop *)

Section Termination.

Variable net : list event -> request -> attempt.

(** The counter on leaving the loop. *)
Lemma while_retry_count fuel retries l s l' s' :
  (retry l = true -> data l = PyNone) ->
  count l <= Z.max retries 0 + (if retry l then 0 else 1) ->
  while_retry net fuel retries l s = Ok (l', s') ->
  count l' <= Z.max retries 0 + 1.
Proof.
  revert l s. induction fuel as [|fuel IH]; intros l s Hinv Hc; simpl.
  - destruct (retry l); [discriminate|]. intros H; inversion H; subst. lia.
  - destruct (retry l) eqn:Hr; [|intros H; inversion H; subst; lia].
    specialize (Hinv eq_refl).
    destruct (iteration net retries l s) as [[l1 s1]| |] eqn:Hit; simpl;
      try discriminate.
    destruct (Z_le_gt_dec retries (count l)) as [Hle|Hgt].
    + rewrite (iteration_over_budget net retries l s Hinv Hle) in Hit.
      inversion Hit; subst. rewrite while_retry_done by reflexivity.
      intros H; inversion H; subst. simpl. lia.
    + pose proof (iteration_count _ _ _ _ _ _ Hit) as Hc1.
      apply IH.
      * intros Hr'. eapply iteration_invariant; eauto.
      * destruct (retry l1); lia.
Qed.

(** C10: for every behaviour [net] of the server, that is for every sequence
    of outcomes of the attempts, and every budget [retries], the loop of
    [__load_retry] stops within [S (Z.to_nat retries)] iterations, which is
    [retries + 1] for a budget that is not negative: that many iterations are
    enough, more change nothing, and the counter, which starts at 0, is at
    most [retries + 1] on leaving.  The reason is the one the claim gives: an
    iteration adds one to the counter, and an iteration that starts with the
    counter at the budget makes no request and clears [retry]. *)
Theorem load_retry_terminates (retries : Z) (rd : dict value) (s : state)
    (extra : nat) :
  let start :=
    {| request_data := rd; data := PyNone; retry := true; count := 0 |} in
  let bound := S (Z.to_nat retries) in
  while_retry net bound retries start s <> OutOfFuel
  /\ while_retry net (bound + extra) retries start s
     = while_retry net bound retries start s
  /\ (forall l' s',
        while_retry net bound retries start s = Ok (l', s') ->
        count l' <= Z.max retries 0 + 1)
  /\ (forall l s0 l' s',
        iteration net retries l s0 = Ok (l', s') -> count l' = count l + 1)
  /\ (forall l s0,
        data l = PyNone -> retries <= count l ->
        exists l', iteration net retries l s0 = Ok (l', s0)
                   /\ retry l' = false)
  /\ __load_retry net rd retries s <> OutOfFuel.
Proof.
  intros start bound.
  assert (Hinv : retry start = true -> data start = PyNone) by reflexivity.
  assert (Hfuel : (Z.to_nat (retries - count start) < bound)%nat).
  { subst start bound. simpl. rewrite Z.sub_0_r. lia. }
  destruct (while_retry_fuel net retries bound start s Hinv Hfuel) as [Hnf Hex].
  repeat split.
  - exact Hnf.
  - apply Hex.
  - intros l' s' H. eapply while_retry_count; [exact Hinv| |exact H].
    subst start. simpl. lia.
  - intros l s0 l' s'. apply iteration_count.
  - intros l s0 Hd Hc. eexists. split.
    + apply iteration_over_budget; assumption.
    + reflexivity.
  - unfold __load_retry. fold start. fold bound.
    destruct (while_retry net bound retries start s) as [[l' s']| |];
      simpl; congruence.
Qed.

End Termination.

(** ** The retry loop against a server that cannot be reached *)

Lemma emit_nil s : emit [] s = s.
Proof. destruct s. unfold emit. simpl. now rewrite app_nil_r. Qed.

Lemma emit_emit evs1 evs2 s : emit evs2 (emit evs1 s) = emit (evs1 ++ evs2) s.
Proof. unfold emit. simpl. now rewrite app_assoc. Qed.

(** Merging the fixed fields a second time changes nothing. *)
Lemma api_fields_twice s rd :
  dict_update (dict_update rd (api_fields s)) (api_fields s)
  = dict_update rd (api_fields s).
Proof.
  unfold dict_update, api_fields. simpl.
  set (d := dict_set "tag" (PyStr "latest")
              (dict_set "module" (PyStr "account")
                 (dict_set "apikey" (PyStr (api_key (settings s))) rd))).
  assert (Ha : dict_set "apikey" (PyStr (api_key (settings s))) d = d).
  { apply dict_set_same. subst d.
    rewrite !dict_get_set_neq by discriminate. apply dict_get_set_eq. }
  rewrite Ha.
  assert (Hm : dict_set "module" (PyStr "account") d = d).
  { apply dict_set_same. subst d.
    rewrite dict_get_set_neq by discriminate. apply dict_get_set_eq. }
  rewrite Hm.
  apply dict_set_same. subst d. apply dict_get_set_eq.
Qed.

Lemma requests_made_failed_rounds req es :
  requests_made (failed_rounds req es) = length es.
Proof.
  unfold requests_made, failed_rounds.
  induction es as [|e es IH]; [reflexivity|].
  cbn [flat_map app filter length]. f_equal. exact IH.
Qed.

Section Unreachable.

Variable net : list event -> request -> attempt.
Hypothesis always_fails : forall h r, exists e, net h r = Failed e.

Lemma while_retry_all_failed retries fuel l s :
  retry l = true -> data l = PyNone ->
  (Z.to_nat (retries - count l) < fuel)%nat ->
  exists es l',
    length es = Z.to_nat (retries - count l)
    /\ while_retry net fuel retries l s
       = Ok (l',
             emit (failed_rounds
                     (request_for s (dict_update (request_data l) (api_fields s)))
                     es) s)
    /\ data l' = PyNone.
Proof.
  revert l s. induction fuel as [|fuel IH]; intros l s Hr Hd Hfuel; [lia|].
  simpl. rewrite Hr.
  destruct (Z_le_gt_dec retries (count l)) as [Hle|Hgt].
  - rewrite (iteration_over_budget net retries l s Hd Hle). simpl.
    rewrite while_retry_done by reflexivity.
    exists [], {| request_data := request_data l; data := PyNone;
                  retry := false; count := count l + 1 |}.
    simpl. rewrite emit_nil. repeat split. lia.
  - set (rd := dict_update (request_data l) (api_fields s)).
    destruct (always_fails (trace s) (request_for s rd)) as [e He].
    assert (Hit : iteration net retries l s
                  = Ok ({| request_data := rd; data := PyNone;
                           retry := true; count := count l + 1 |},
                        emit [Get (request_for s rd) (Failed e); Sleep 1] s)).
    { unfold iteration, try_block.
      destruct (Z.gtb_spec (count l + 1) retries) as [Hc|Hc]; [lia|].
      fold rd. rewrite He, Hd, Hr. reflexivity. }
    rewrite Hit. simpl.
    edestruct (IH {| request_data := rd; data := PyNone;
                     retry := true; count := count l + 1 |}
                 (emit [Get (request_for s rd) (Failed e); Sleep 1] s))
      as (es & l' & Hlen & Hrun & Hd'); [reflexivity|reflexivity|simpl; lia|].
    cbn [request_data count] in Hlen, Hrun.
    change (api_fields (emit _ s)) with (api_fields s) in Hrun.
    change (request_for (emit _ s)) with (request_for s) in Hrun.
    unfold rd in Hrun at 3. rewrite api_fields_twice in Hrun. fold rd in Hrun.
    exists (e :: es), l'. repeat split.
    + simpl. rewrite Hlen. lia.
    + rewrite Hrun, emit_emit. reflexivity.
    + exact Hd'.
Qed.

(** Five failed rounds and no data. *)
Lemma load_retry_unreachable (rd : dict value) (s : state) :
  exists es,
    length es = 5%nat
    /\ __load_retry net rd 5 s
       = Ok (PyNone,
             emit (failed_rounds
                     (request_for s (dict_update rd (api_fields s))) es) s).
Proof.
  destruct (while_retry_all_failed 5 6
              {| request_data := rd; data := PyNone; retry := true; count := 0 |}
              s eq_refl eq_refl) as (es & l' & Hlen & Hrun & Hd).
  { simpl. lia. }
  exists es. split; [exact Hlen|].
  unfold __load_retry. change (S (Z.to_nat 5)) with 6%nat.
  cbn [request_data] in Hrun. rewrite Hrun. simpl. now rewrite Hd.
Qed.

(** C6: when every attempt raises a connection error or a read timeout,
    [__load_retry] with [retries=5] makes exactly five requests, all for the
    same parameters, sleeps one second after each of them, changes nothing
    else, and returns [None] instead of raising. *)
Theorem transport_failures_exhaust_retries (rd : dict value) (s : state) :
  exists es,
    length es = 5%nat
    /\ requests_made
         (failed_rounds (request_for s (dict_update rd (api_fields s))) es)
       = 5%nat
    /\ __load_retry net rd 5 s
       = Ok (PyNone,
             emit (failed_rounds
                     (request_for s (dict_update rd (api_fields s))) es) s).
Proof.
  destruct (load_retry_unreachable rd s) as (es & Hlen & Hrun).
  exists es. repeat split; try assumption.
  now rewrite requests_made_failed_rounds.
Qed.

End Unreachable.

(** ** The first answer of the server *)

Section FirstAnswer.

Variable net : list event -> request -> attempt.

(** The first iteration when the server answers with a document. *)
Lemma load_retry_first_answer rd retries s doc :
  1 <= retries ->
  net (trace s) (request_for s (dict_update rd (api_fields s))) = Response doc ->
  __load_retry net rd retries s
  = (ls <- (ls2 <- notok_block
                     {| request_data := dict_update rd (api_fields s);
                        data := doc; retry := false; count := 1 |}
                     (emit [Get (request_for s (dict_update rd (api_fields s)))
                              (Response doc)] s) ;;
            l3 <- ok_block (fst ls2) ;;
            while_retry net (Z.to_nat retries) retries l3 (snd ls2)) ;;
     Ok (data (fst ls), snd ls)).
Proof.
  intros Hr Hnet. unfold __load_retry. cbn [while_retry retry].
  unfold iteration, try_block. cbn [count request_data data retry].
  change (0 + 1) with 1.
  destruct (Z.gtb_spec 1 retries) as [Hc|Hc]; [lia|].
  rewrite Hnet.
  destruct (notok_block _ _) as [[l2 s2]| |]; simpl; try reflexivity.
  destruct (ok_block l2) as [l3| |]; simpl; reflexivity.
Qed.

(** A document with a string message that has no [NOTOK] and fails the test
    of line 92 ends the loop and is returned whole. *)
Lemma load_retry_unrecognised rd retries s kv m :
  1 <= retries ->
  net (trace s) (request_for s (dict_update rd (api_fields s)))
  = Response (PyDict kv) ->
  dict_get "message" kv = Some (PyStr m) ->
  is_substring "NOTOK" m = false ->
  ok_message m && truthy (field "result" kv) = false ->
  __load_retry net rd retries s
  = Ok (PyDict kv,
        emit [Get (request_for s (dict_update rd (api_fields s)))
                (Response (PyDict kv))] s).
Proof.
  intros Hr Hnet Hm Hnotok Hok.
  rewrite (load_retry_first_answer rd retries s _ Hr Hnet).
  assert (Hne : truthy (PyDict kv) = true).
  { destruct kv; [discriminate|reflexivity]. }
  assert (Hmsg : field "message" kv = PyStr m) by (unfold field; now rewrite Hm).
  unfold notok_block. cbn [data]. rewrite Hne.
  unfold py_get. rewrite Hmsg. cbn [bind py_in]. rewrite Hnotok. cbn [bind fst snd].
  unfold ok_block. cbn [data]. rewrite Hne.
  unfold py_get. rewrite Hmsg. cbn [bind py_eq_str py_in].
  unfold ok_message in Hok.
  destruct (String.eqb m "OK"); cbn [orb] in Hok; cbn [bind].
  - rewrite andb_true_l in Hok. rewrite Hok. cbn [bind].
    rewrite while_retry_done by reflexivity; reflexivity.
  - destruct (is_substring "OK-" m); cbn [bind].
    + rewrite andb_true_l in Hok. rewrite Hok. cbn [bind].
      rewrite while_retry_done by reflexivity; reflexivity.
    + rewrite while_retry_done by reflexivity; reflexivity.
Qed.

(** A document with a string message that has no [NOTOK], passes the test of
    line 92 and carries a result ends the loop; the result is returned. *)
Lemma load_retry_success rd retries s kv m :
  1 <= retries ->
  net (trace s) (request_for s (dict_update rd (api_fields s)))
  = Response (PyDict kv) ->
  dict_get "message" kv = Some (PyStr m) ->
  is_substring "NOTOK" m = false ->
  ok_message m = true ->
  truthy (field "result" kv) = true ->
  __load_retry net rd retries s
  = Ok (field "result" kv,
        emit [Get (request_for s (dict_update rd (api_fields s)))
                (Response (PyDict kv))] s).
Proof.
  intros Hr Hnet Hm Hnotok Hok Hres.
  rewrite (load_retry_first_answer rd retries s _ Hr Hnet).
  assert (Hne : truthy (PyDict kv) = true).
  { destruct kv; [discriminate|reflexivity]. }
  assert (Hmsg : field "message" kv = PyStr m) by (unfold field; now rewrite Hm).
  unfold notok_block. cbn [data]. rewrite Hne.
  unfold py_get. rewrite Hmsg. cbn [bind py_in]. rewrite Hnotok. cbn [bind fst snd].
  unfold ok_block. cbn [data]. rewrite Hne.
  unfold py_get. rewrite Hmsg. cbn [bind py_eq_str py_in].
  unfold ok_message in Hok.
  assert (Hok' : (if String.eqb m "OK" then Ok true
                  else Ok (is_substring "OK-" m)) = Ok true).
  { destruct (String.eqb m "OK"); [reflexivity|]. simpl in Hok. now rewrite Hok. }
  rewrite Hok'. cbn [bind]. rewrite Hres. cbn [bind].
  rewrite while_retry_done by reflexivity; reflexivity.
Qed.

End FirstAnswer.

(** ** An answer that comes after retried attempts *)

Section LaterAnswer.

Variable net : list event -> request -> attempt.

(** The counter only matters through its distance to the budget. *)
Lemma try_block_recount k retries l s :
  try_block net (retries + k) (recount k l) s
  = (recount k (fst (try_block net retries l s)),
     snd (try_block net retries l s)).
Proof.
  unfold try_block, recount. cbn [count request_data data retry].
  replace (count l + k + 1) with (count l + 1 + k) by lia.
  replace (count l + 1 + k >? retries + k) with (count l + 1 >? retries).
  - destruct (count l + 1 >? retries); cbn [fst snd]; [reflexivity|].
    destruct (net _ _); reflexivity.
  - destruct (Z.gtb_spec (count l + 1) retries),
             (Z.gtb_spec (count l + 1 + k) (retries + k)); auto; lia.
Qed.

Lemma notok_block_recount k l s :
  notok_block (recount k l) s
  = (ls <- notok_block l s ;; Ok (recount k (fst ls), snd ls)).
Proof.
  unfold notok_block, recount. cbn [data request_data count retry].
  destruct (truthy (data l)); cbn [bind fst snd]; [|reflexivity].
  destruct (py_get (data l) "message") as [msg| |]; cbn [bind fst snd];
    [|reflexivity..].
  destruct (py_in "NOTOK" msg) as [[|]| |]; cbn [bind fst snd];
    [|reflexivity..].
  destruct (py_get (data l) "result") as [res| |]; cbn [bind fst snd];
    [|reflexivity..].
  destruct (py_eq_str res "Invalid API Key"); reflexivity.
Qed.

Lemma ok_block_recount k l :
  ok_block (recount k l) = (l' <- ok_block l ;; Ok (recount k l')).
Proof.
  unfold ok_block, recount. cbn [data request_data count retry].
  destruct (truthy (data l)); cbn [bind fst snd]; [|reflexivity].
  destruct (py_get (data l) "message") as [msg| |]; cbn [bind fst snd];
    [|reflexivity..].
  destruct (if py_eq_str msg "OK" then Ok true else py_in "OK-" msg)
    as [[|]| |]; cbn [bind fst snd]; [|reflexivity..].
  destruct (py_get (data l) "result") as [res| |]; cbn [bind fst snd];
    [|reflexivity..].
  destruct (truthy res); reflexivity.
Qed.

Lemma iteration_recount k retries l s :
  iteration net (retries + k) (recount k l) s
  = (ls <- iteration net retries l s ;; Ok (recount k (fst ls), snd ls)).
Proof.
  unfold iteration. rewrite try_block_recount.
  destruct (try_block net retries l s) as [l1 s1]. cbn [fst snd].
  rewrite notok_block_recount.
  destruct (notok_block l1 s1) as [[l2 s2]| |]; cbn [bind fst snd]; auto.
  rewrite ok_block_recount.
  destruct (ok_block l2) as [l3| |]; cbn [bind fst snd]; auto.
Qed.

Lemma while_retry_recount k fuel retries l s :
  while_retry net fuel (retries + k) (recount k l) s
  = (ls <- while_retry net fuel retries l s ;; Ok (recount k (fst ls), snd ls)).
Proof.
  revert l s. induction fuel as [|fuel IH]; intros l s; simpl.
  - destruct (retry l); reflexivity.
  - destruct (retry l); [|reflexivity].
    rewrite iteration_recount.
    destruct (iteration net retries l s) as [[l1 s1]| |]; cbn [bind fst snd];
      auto.
Qed.

(** After a first iteration that asks for another round, the call goes on as
    a call with one attempt less. *)
Lemma load_retry_next_round rd retries s rd' s' :
  1 <= retries ->
  iteration net retries
    {| request_data := rd; data := PyNone; retry := true; count := 0 |} s
  = Ok ({| request_data := rd'; data := PyNone; retry := true; count := 1 |},
        s') ->
  __load_retry net rd retries s = __load_retry net rd' (retries - 1) s'.
Proof.
  intros Hr Hit. unfold __load_retry at 1. cbn [while_retry retry].
  rewrite Hit. cbn [bind fst snd].
  change {| request_data := rd'; data := PyNone; retry := true; count := 1 |}
    with (recount 1 {| request_data := rd'; data := PyNone;
                       retry := true; count := 0 |}).
  replace retries with (retries - 1 + 1) at 2 by lia.
  rewrite while_retry_recount. unfold __load_retry.
  replace (S (Z.to_nat (retries - 1))) with (Z.to_nat retries) by lia.
  destruct (while_retry _ _ _ _ _) as [[l1 s1]| |]; reflexivity.
Qed.

(** An attempt the loop retries costs one unit of the budget. *)
Lemma load_retry_retried_round rd retries s a :
  let req := request_for s (dict_update rd (api_fields s)) in
  1 <= retries ->
  net (trace s) req = a ->
  retried a ->
  __load_retry net rd retries s
  = __load_retry net (dict_update rd (api_fields s)) (retries - 1)
      (emit [Get req a; Sleep 1] s).
Proof.
  intros req Hr Hnet Hret. apply load_retry_next_round; [exact Hr|].
  unfold iteration, try_block. cbn [count request_data data retry].
  change (0 + 1) with 1.
  destruct (Z.gtb_spec 1 retries); [lia|].
  fold req. rewrite Hnet.
  destruct a as [e|doc]; [reflexivity|].
  destruct doc as [| | | | | |kv]; try contradiction.
  destruct Hret as (Hin & Hres).
  assert (Hne : truthy (PyDict kv) = true).
  { destruct kv; [discriminate|reflexivity]. }
  unfold notok_block. cbn [data]. rewrite Hne.
  unfold py_get. cbn [bind]. rewrite Hin. cbn [bind]. rewrite Hres.
  cbn [bind fst snd]. unfold ok_block. cbn [data truthy bind].
  rewrite emit_emit. reflexivity.
Qed.

(** A success that follows retried attempts, within the budget, ends the
    loop; its result is returned. *)
Lemma load_retry_success_after answers :
  forall rd retries s kv m,
    let req := request_for s (dict_update rd (api_fields s)) in
    answered net (trace s) req answers ->
    Z.of_nat (length answers) < retries ->
    net (trace s ++ rounds req answers)%list req = Response (PyDict kv) ->
    dict_get "message" kv = Some (PyStr m) ->
    is_substring "NOTOK" m = false ->
    ok_message m = true ->
    truthy (field "result" kv) = true ->
    __load_retry net rd retries s
    = Ok (field "result" kv,
          emit (rounds req answers ++ [Get req (Response (PyDict kv))])%list s).
Proof.
  induction answers as [|a rest IH];
    intros rd retries s kv m req Hans Hlen Hnet Hm Hnotok Hok Hres.
  - cbn [rounds flat_map] in *. rewrite app_nil_r in Hnet. cbn [length] in Hlen.
    apply load_retry_success with (m := m); auto. lia.
  - destruct Hans as (Ha & Hret & Hrest). cbn [length] in Hlen.
    rewrite (load_retry_retried_round rd retries s a) by (auto; lia).
    fold req. set (s1 := emit [Get req a; Sleep 1] s).
    assert (Hreq : request_for s1
                     (dict_update (dict_update rd (api_fields s))
                        (api_fields s1)) = req).
    { unfold req, request_for. change (api_fields s1) with (api_fields s).
      now rewrite api_fields_twice. }
    specialize (IH (dict_update rd (api_fields s)) (retries - 1) s1 kv m).
    cbv zeta in IH. rewrite Hreq in IH.
    rewrite IH; auto.
    + unfold s1. rewrite emit_emit. reflexivity.
    + lia.
    + change (trace s1) with (trace s ++ [Get req a; Sleep 1])%list.
      rewrite <- app_assoc. exact Hnet.
Qed.

End LaterAnswer.

(** ** The balance of a token *)

Section TokenBalance.

Variable fl : Q -> Q.

Lemma balance_of_data_no_data d token :
  truthy d = false -> balance_of_data fl d token = Ok (fl 0%Q).
Proof. intros H. unfold balance_of_data. now rewrite H. Qed.

Lemma balance_of_data_not_positive d token r :
  truthy d = true -> py_int d = Ok r -> r <= 0 ->
  balance_of_data fl d token = Ok (fl 0%Q).
Proof.
  intros Ht Hi Hr. unfold balance_of_data. rewrite Ht, Hi. simpl.
  destruct (Z.gtb_spec r 0); [lia|reflexivity].
Qed.

Lemma balance_of_data_positive d token r :
  truthy d = true -> py_int d = Ok r -> 0 < r ->
  balance_of_data fl d token
  = Ok (if token_decimals token >? 0
        then fl (inject_Z r / inject_Z (10 ^ token_decimals token))%Q
        else fl (inject_Z r)).
Proof.
  intros Ht Hi Hr. unfold balance_of_data. rewrite Ht, Hi. simpl.
  destruct (Z.gtb_spec r 0); [|lia].
  now destruct (token_decimals token >? 0).
Qed.

Lemma token_decimals_given token n :
  decimals token = Some n -> 0 <= n -> token_decimals token = n.
Proof.
  intros H Hn. unfold token_decimals. rewrite H.
  destruct (Z.geb_spec n 0); [reflexivity|lia].
Qed.

Lemma token_decimals_default token :
  decimals token = None \/ (exists n, decimals token = Some n /\ n < 0) ->
  token_decimals token = 18.
Proof.
  unfold token_decimals. intros [H|(n & H & Hn)]; rewrite H; [reflexivity|].
  destruct (Z.geb_spec n 0); [lia|reflexivity].
Qed.

End TokenBalance.

Section TokenBalanceMethod.

Variable fl : Q -> Q.
Variable net : list event -> request -> attempt.

Lemma get_token_balance_unfold account token s d s' :
  __load_retry net (token_request_data account token) 5 s = Ok (d, s') ->
  _get_token_balance_on_account fl net account token s
  = (balance <- balance_of_data fl d token ;; Ok (balance, s')).
Proof.
  intros H. unfold _get_token_balance_on_account. rewrite H. reflexivity.
Qed.

(** C7: let [d] be what the client returns for the [tokenbalance] request.
    If [d] reads as the integer [r], with [r] not negative, and the token
    gives [decimals] in 0..18, the balance is the [float] of a rational equal
    to [r / 10^decimals]; for a positive [r] it is the rounded quotient when
    [decimals] is positive and the [float] of [r] itself, unscaled, when
    [decimals] is 0.  A token with a negative or absent [decimals] gets the
    balance of the same token with [decimals] 18.  If [r] is 0 or less, or
    the client returned no data (an error), the balance is [float(0)]. *)
Theorem token_balance_normalised account token s d s' :
  __load_retry net (token_request_data account token) 5 s = Ok (d, s') ->
  let balance := _get_token_balance_on_account fl net account token s in
  (truthy d = false -> balance = Ok (fl 0%Q, s'))
  /\ (forall r, truthy d = true -> py_int d = Ok r ->
        (r <= 0 -> balance = Ok (fl 0%Q, s'))
        /\ (0 <= r -> forall n, decimals token = Some n -> 0 <= n <= 18 ->
              exists q, balance = Ok (fl q, s')
                        /\ (q == inject_Z r / inject_Z (10 ^ n))%Q)
        /\ (0 < r -> forall n, decimals token = Some n -> 0 < n ->
              balance = Ok (fl (inject_Z r / inject_Z (10 ^ n))%Q, s'))
        /\ (0 < r -> decimals token = Some 0 ->
              balance = Ok (fl (inject_Z r), s')))
  /\ (decimals token = None \/ (exists n, decimals token = Some n /\ n < 0) ->
        balance
        = _get_token_balance_on_account fl net account
            (with_decimals 18 token) s).
Proof.
  intros Hload balance. subst balance.
  rewrite (get_token_balance_unfold _ _ _ _ _ Hload).
  split; [|split].
  - intros Hd. now rewrite balance_of_data_no_data.
  - intros r Ht Hi.
    assert (Hpos : forall n, 0 < r -> decimals token = Some n -> 0 < n ->
              balance_of_data fl d token
              = Ok (fl (inject_Z r / inject_Z (10 ^ n))%Q)).
    { intros n Hr Hn Hn0.
      rewrite (balance_of_data_positive fl d token r Ht Hi Hr).
      rewrite (token_decimals_given token n Hn) by lia.
      destruct (Z.gtb_spec n 0); [reflexivity|lia]. }
    assert (Hzero : 0 < r -> decimals token = Some 0 ->
              balance_of_data fl d token = Ok (fl (inject_Z r))).
    { intros Hr Hn.
      rewrite (balance_of_data_positive fl d token r Ht Hi Hr).
      rewrite (token_decimals_given token 0 Hn) by lia. reflexivity. }
    repeat split.
    + intros Hr. now rewrite (balance_of_data_not_positive fl d token r).
    + intros Hr n Hn Hn18.
      destruct (Z.eq_dec r 0) as [->|Hr0].
      * exists 0%Q. split.
        -- now rewrite (balance_of_data_not_positive fl d token 0) by (auto; lia).
        -- unfold Qdiv. now rewrite Qmult_0_l.
      * destruct (Z.eq_dec n 0) as [->|Hn0].
        -- exists (inject_Z r). split.
           ++ rewrite Hzero by (auto; lia). reflexivity.
           ++ change (inject_Z (10 ^ 0)) with 1%Q. unfold Qdiv.
              change (/ 1)%Q with 1%Q. now rewrite Qmult_1_r.
        -- exists (inject_Z r / inject_Z (10 ^ n))%Q. split.
           ++ rewrite (Hpos n) by (auto; lia). reflexivity.
           ++ reflexivity.
    + intros Hr n Hn Hn0. now rewrite (Hpos n).
    + intros Hr Hn. now rewrite Hzero.
  - intros Hdef.
    assert (Hload' : __load_retry net
                       (token_request_data account (with_decimals 18 token)) 5 s
                     = Ok (d, s')) by exact Hload.
    rewrite (get_token_balance_unfold _ _ _ _ _ Hload').
    unfold balance_of_data.
    rewrite (token_decimals_default token Hdef).
    reflexivity.
Qed.

End TokenBalanceMethod.

(** ** What a call of the client does to the connector *)

Lemma act_id s : act false [] s = s.
Proof. destruct s as [[] ? ?]. unfold act. simpl. now rewrite app_nil_r. Qed.

Lemma act_act d1 e1 d2 e2 s :
  act d2 e2 (act d1 e1 s) = act (d1 || d2) (e1 ++ e2) s.
Proof.
  unfold act. simpl. rewrite app_assoc.
  destruct d1, d2; reflexivity.
Qed.

Lemma emit_act evs s : emit evs s = act false evs s.
Proof. destruct s as [[] ? ?]. reflexivity. Qed.

Lemma disable_act s : set_enable_authentication false s = act true [] s.
Proof. destruct s as [[] ? ?]. unfold act. simpl. now rewrite app_nil_r. Qed.

Lemma auth_observed_app e1 e2 :
  auth_observed (e1 ++ e2) = auth_observed e1 || auth_observed e2.
Proof. apply existsb_app. Qed.

Section Effect.

Variable net : list event -> request -> attempt.

Lemma invalid_api_key_answer_truthy doc :
  invalid_api_key_answer doc = true -> truthy doc = true.
Proof.
  destruct doc as [| | | | | |kv]; try discriminate.
  destruct kv as [|p kv]; [discriminate|reflexivity].
Qed.

(** One iteration: its effect on the state, and the flag is cleared in the
    iteration that receives the answer ["Invalid API Key"]. *)
Lemma iteration_effect retries l s l' s' :
  iteration net retries l s = Ok (l', s') ->
  data l = PyNone ->
  exists dis evs,
    s' = act dis evs s /\ (auth_observed evs = true -> dis = true).
Proof.
  unfold iteration, try_block. intros H Hd.
  destruct (count l + 1 >? retries).
  - unfold notok_block, ok_block in H. simpl in H. rewrite Hd in H. simpl in H.
    inversion H; subst. exists false, []. rewrite act_id. split; [reflexivity|].
    discriminate.
  - destruct (net _ _) as [e|doc] eqn:Hnet.
    + unfold notok_block, ok_block in H. simpl in H. rewrite Hd in H.
      simpl in H. inversion H; subst. exists false. eexists.
      split; [apply emit_act|]. discriminate.
    + unfold notok_block in H. cbn [data] in H.
      destruct (truthy doc) eqn:Ht.
      * destruct doc as [| | | | | |kv]; try discriminate.
        unfold py_get in H. cbn [bind] in H.
        destruct (py_in "NOTOK" (field "message" kv)) as [[|]| |] eqn:Hin;
          cbn [bind] in H; try discriminate.
        -- destruct (py_eq_str (field "result" kv) "Invalid API Key") eqn:Hres;
             cbn [bind fst snd] in H;
             destruct (ok_block _) as [l3| |]; cbn [bind] in H;
             try discriminate; inversion H; subst.
           ++ exists true. eexists. split; [|reflexivity].
              unfold authentication_error_handler.
              rewrite !emit_act, disable_act, !act_act. reflexivity.
           ++ exists false. eexists. split.
              ** rewrite !emit_act, !act_act. reflexivity.
              ** simpl. rewrite Hin, Hres. discriminate.
        -- cbn [fst snd] in H.
           destruct (ok_block _) as [l3| |]; cbn [bind] in H;
             try discriminate; inversion H; subst.
           exists false. eexists. split; [apply emit_act|].
           simpl. rewrite Hin. discriminate.
      * cbn [bind fst snd] in H.
        destruct (ok_block _) as [l3| |]; cbn [bind] in H;
          try discriminate; inversion H; subst.
        exists false. eexists. split; [apply emit_act|].
        simpl. rewrite orb_false_r. intros Hobs.
        apply invalid_api_key_answer_truthy in Hobs. congruence.
Qed.

Lemma while_retry_effect retries fuel l s l' s' :
  while_retry net fuel retries l s = Ok (l', s') ->
  (retry l = true -> data l = PyNone) ->
  exists dis evs,
    s' = act dis evs s /\ (auth_observed evs = true -> dis = true).
Proof.
  revert l s. induction fuel as [|fuel IH]; intros l s H Hinv; simpl in H.
  - destruct (retry l); [discriminate|]. inversion H; subst.
    exists false, []. rewrite act_id. split; [reflexivity|discriminate].
  - destruct (retry l) eqn:Hr.
    + specialize (Hinv eq_refl).
      destruct (iteration net retries l s) as [[l1 s1]| |] eqn:Hit;
        simpl in H; try discriminate.
      destruct (iteration_effect _ _ _ _ _ Hit Hinv) as (d1 & e1 & -> & Ho1).
      apply IH in H.
      * destruct H as (d2 & e2 & -> & Ho2).
        exists (d1 || d2), (e1 ++ e2)%list. split; [apply act_act|].
        rewrite auth_observed_app. intros Ho.
        apply orb_true_iff in Ho. apply orb_true_iff. tauto.
      * intros Hr1. eapply iteration_invariant; eauto.
    + inversion H; subst.
      exists false, []. rewrite act_id. split; [reflexivity|discriminate].
Qed.

(** The client leaves the table alone, changes no setting but the flag, which
    it can only clear, and clears it when a request of the call is answered
    ["Invalid API Key"]. *)
Lemma load_retry_effect rd retries s d s' :
  __load_retry net rd retries s = Ok (d, s') ->
  exists dis evs,
    s' = act dis evs s /\ (auth_observed evs = true -> dis = true).
Proof.
  unfold __load_retry. intros H.
  destruct (while_retry _ _ _ _ _) as [[l1 s1]| |] eqn:Hw; simpl in H;
    try discriminate.
  inversion H; subst.
  eapply while_retry_effect; [exact Hw|reflexivity].
Qed.

End Effect.

(** ** Writing into the table *)

Lemma set_accounts_act t d e s :
  set_accounts t (act d e s) = act d e (set_accounts t s).
Proof. reflexivity. Qed.

Lemma store_present sym account v s inner :
  dict_get sym (_accounts s) = Some inner ->
  store sym account v s
  = Ok (set_accounts (tset sym account v (_accounts s)) s).
Proof. intros H. unfold store, tset. now rewrite H. Qed.

Lemma ensure_symbol_present sym s :
  dict_get sym (_accounts (ensure_symbol sym s)) <> None.
Proof.
  unfold ensure_symbol. destruct (missing_or_empty sym (_accounts s)) eqn:E.
  - simpl. rewrite dict_get_set_eq. discriminate.
  - unfold missing_or_empty in E.
    destruct (dict_get sym (_accounts s)) as [[|]|]; discriminate.
Qed.

Lemma tset_ensure sym account v s :
  tset sym account v (_accounts (ensure_symbol sym s))
  = tset sym account v (_accounts s).
Proof.
  unfold ensure_symbol, missing_or_empty, tset.
  destruct (dict_get sym (_accounts s)) as [[|p inner]|] eqn:E;
    cbn -[dict_set dict_get]; rewrite ?E; try reflexivity.
  - rewrite dict_get_set_eq. apply dict_set_set.
  - rewrite dict_get_set_eq. apply dict_set_set.
Qed.

Lemma lookup_tset sym account v t sym' account' :
  lookup sym' account' (tset sym account v t)
  = if String.eqb sym sym' && String.eqb account account'
    then Some v else lookup sym' account' t.
Proof.
  unfold lookup, tset. rewrite dict_get_set.
  destruct (String.eqb_spec sym sym') as [->|Hs]; simpl.
  - rewrite dict_get_set.
    destruct (String.eqb account account'); [reflexivity|].
    now destruct (dict_get sym' t).
  - reflexivity.
Qed.

Lemma dict_get_tset_other sym account v t sym' :
  sym <> sym' -> dict_get sym' (tset sym account v t) = dict_get sym' t.
Proof. intros H. unfold tset. now apply dict_get_set_neq. Qed.

Lemma lookup_ensure sym s sym' account' :
  lookup sym' account' (_accounts (ensure_symbol sym s))
  = lookup sym' account' (_accounts s).
Proof.
  unfold ensure_symbol, missing_or_empty, lookup.
  destruct (dict_get sym (_accounts s)) as [[|p inner]|] eqn:E;
    cbn -[dict_set dict_get]; try reflexivity.
  - rewrite dict_get_set.
    destruct (String.eqb_spec sym sym') as [->|Hs]; [now rewrite E|reflexivity].
  - rewrite dict_get_set.
    destruct (String.eqb_spec sym sym') as [->|Hs]; [now rewrite E|reflexivity].
Qed.

Lemma dict_get_ensure_other sym s sym' :
  sym <> sym' ->
  dict_get sym' (_accounts (ensure_symbol sym s)) = dict_get sym' (_accounts s).
Proof.
  intros H. unfold ensure_symbol.
  destruct (missing_or_empty sym (_accounts s)); [|reflexivity].
  simpl. now apply dict_get_set_neq.
Qed.

(** ** The native balances *)

Section Native.

Variable fl : Q -> Q.
Variable net : list event -> request -> attempt.

Lemma native_step_entry e p s :
  is_native_entry e p -> dict_get "ETH" (_accounts s) <> None ->
  native_step fl e s
  = Ok (set_accounts
          (tset "ETH" (fst p) (native_balance fl (snd p)) (_accounts s)) s).
Proof.
  intros (digits & Ha & Hb & Hp) Hin. unfold native_step.
  rewrite Ha, Hb. cbn [bind py_float]. rewrite Hp. cbn [bind py_key].
  destruct (dict_get "ETH" (_accounts s)) as [inner|] eqn:E; [|congruence].
  now apply store_present with (inner := inner).
Qed.

Lemma tset_present sym account v t sym' :
  dict_get sym' t <> None -> dict_get sym' (tset sym account v t) <> None.
Proof.
  intros H. unfold tset. rewrite dict_get_set.
  destruct (String.eqb sym sym'); [discriminate|exact H].
Qed.

Lemma native_loop l entries s :
  Forall2 is_native_entry l entries ->
  dict_get "ETH" (_accounts s) <> None ->
  for_each (native_step fl) l s
  = Ok (set_accounts (native_writes fl entries (_accounts s)) s).
Proof.
  intros H. revert s. induction H as [|e p l entries He Hl IH]; intros s Hin.
  - destruct s. reflexivity.
  - simpl. rewrite (native_step_entry e p s He Hin). cbn [bind].
    rewrite IH by (simpl; now apply tset_present). reflexivity.
Qed.

Lemma lookup_native_writes entries t account :
  lookup "ETH" account (native_writes fl entries t)
  = match last_entry account entries with
    | Some raw => Some (native_balance fl raw)
    | None => lookup "ETH" account t
    end.
Proof.
  revert t. induction entries as [|[a raw] entries IH]; intros t; simpl.
  - reflexivity.
  - unfold native_writes in *. simpl. rewrite IH.
    destruct (last_entry account entries); [reflexivity|].
    rewrite lookup_tset. simpl. now destruct (String.eqb a account).
Qed.

Lemma dict_get_native_writes entries t sym :
  sym <> "ETH" -> dict_get sym (native_writes fl entries t) = dict_get sym t.
Proof.
  intros Hs. revert t. induction entries as [|[a raw] entries IH]; intros t.
  - reflexivity.
  - unfold native_writes in *. simpl. rewrite IH.
    apply dict_get_tset_other. congruence.
Qed.

Lemma native_writes_ensure entries s :
  entries <> [] ->
  native_writes fl entries (_accounts (ensure_symbol "ETH" s))
  = native_writes fl entries (_accounts s).
Proof.
  destruct entries as [|p entries]; [congruence|]. intros _.
  unfold native_writes. simpl. now rewrite tset_ensure.
Qed.

End Native.


(** ** The authentication flag over time *)

Section Lockout.

Variable fl : Q -> Q.
Variable net : list event -> request -> attempt.

Lemma reaches_refl s : reaches s s.
Proof.
  unfold reaches. repeat split; auto.
  exists []. rewrite app_nil_r. split; [reflexivity|discriminate].
Qed.

Lemma reaches_trans s1 s2 s3 : reaches s1 s2 -> reaches s2 s3 -> reaches s1 s3.
Proof.
  intros (Ha & Hu & Had & Ht & Hf & e1 & He1 & Ho1)
         (Ha' & Hu' & Had' & Ht' & Hf' & e2 & He2 & Ho2).
  unfold reaches. repeat split; try congruence; auto.
  exists (e1 ++ e2)%list. split.
  - rewrite He2, He1. now rewrite app_assoc.
  - rewrite auth_observed_app. intros Ho. apply orb_true_iff in Ho.
    destruct Ho as [Ho|Ho]; auto.
Qed.

Lemma reaches_act dis evs t s :
  (auth_observed evs = true -> dis = true) ->
  reaches s (act dis evs (set_accounts t s)).
Proof.
  intros Ho. unfold reaches. simpl. repeat split.
  - intros Hf. destruct dis; auto.
  - exists evs. split; [reflexivity|]. intros H. now rewrite (Ho H).
Qed.

Lemma reaches_set_accounts t s : reaches s (set_accounts t s).
Proof.
  unfold reaches. simpl. repeat split; auto.
  exists []. rewrite app_nil_r. split; [reflexivity|discriminate].
Qed.

Lemma reaches_ensure sym s : reaches s (ensure_symbol sym s).
Proof.
  unfold ensure_symbol. destruct (missing_or_empty _ _).
  - apply reaches_set_accounts.
  - apply reaches_refl.
Qed.

Lemma reaches_store sym account v s s' :
  store sym account v s = Ok s' -> reaches s s'.
Proof.
  unfold store. destruct (dict_get sym (_accounts s)); [|discriminate].
  intros H; inversion H; subst. apply reaches_set_accounts.
Qed.

Lemma reaches_load_retry rd retries s d s' :
  __load_retry net rd retries s = Ok (d, s') -> reaches s s'.
Proof.
  intros H. apply load_retry_effect in H. destruct H as (dis & evs & -> & Ho).
  replace s with (set_accounts (_accounts s) s) at 2 by (now destruct s).
  now apply reaches_act.
Qed.

Lemma reaches_get_token_balance account token s v s' :
  _get_token_balance_on_account fl net account token s = Ok (v, s') ->
  reaches s s'.
Proof.
  unfold _get_token_balance_on_account. intros H.
  destruct (__load_retry _ _ _ _) as [[d s1]| |] eqn:Hl; simpl in H;
    try discriminate.
  destruct (balance_of_data fl d token); simpl in H; try discriminate.
  inversion H; subst. eapply reaches_load_retry; eauto.
Qed.

Lemma reaches_for_each {A : Type} (body : A -> state -> result state) :
  (forall x s s', body x s = Ok s' -> reaches s s') ->
  forall l s s', for_each body l s = Ok s' -> reaches s s'.
Proof.
  intros Hbody. induction l as [|x l IH]; intros s s' H; simpl in H.
  - inversion H; subst. apply reaches_refl.
  - destruct (body x s) as [s1| |] eqn:Hx; simpl in H; try discriminate.
    eapply reaches_trans; eauto.
Qed.

Lemma reaches_token_step account token s s' :
  token_step fl net account token s = Ok s' -> reaches s s'.
Proof.
  unfold token_step. intros H.
  destruct (_get_token_balance_on_account _ _ _ _ _) as [[v s1]| |] eqn:Hb;
    simpl in H; try discriminate.
  eapply reaches_trans; [apply reaches_ensure|].
  eapply reaches_trans; [eapply reaches_get_token_balance; eauto|].
  eapply reaches_store; eauto.
Qed.

Lemma reaches_tokens_loop account s s' :
  tokens_loop fl net account s = Ok s' -> reaches s s'.
Proof.
  unfold tokens_loop. destruct (tokens (settings s)); [|discriminate].
  apply reaches_for_each. intros x. apply reaches_token_step.
Qed.

Lemma reaches_retrieve_tokens s s' :
  retrieve_tokens fl net s = Ok s' -> reaches s s'.
Proof.
  unfold retrieve_tokens. intros H.
  destruct (dict_get "ETH" _); [|discriminate].
  eapply reaches_trans; [apply reaches_ensure|].
  eapply reaches_for_each; [|exact H]. apply reaches_tokens_loop.
Qed.

Lemma reaches_native_step e s s' :
  native_step fl e s = Ok s' -> reaches s s'.
Proof.
  unfold native_step. intros H.
  destruct (py_getitem e "account"); simpl in H; try discriminate.
  destruct (py_getitem e "balance"); simpl in H; try discriminate.
  destruct (py_float fl _); simpl in H; try discriminate.
  destruct (py_key _); simpl in H; try discriminate.
  eapply reaches_store; eauto.
Qed.

Lemma reaches_retrieve_native s s' :
  retrieve_native fl net s = Ok s' -> reaches s s'.
Proof.
  unfold retrieve_native. intros H.
  destruct (__load_retry _ _ _ _) as [[d s1]| |] eqn:Hl; simpl in H;
    try discriminate.
  eapply reaches_trans; [eapply reaches_load_retry; eauto|].
  unfold store_native in H. destruct (truthy d).
  - destruct (py_iter d) as [entries| |]; simpl in H; try discriminate.
    eapply reaches_trans; [apply reaches_ensure|].
    eapply reaches_for_each; [|exact H]. apply reaches_native_step.
  - inversion H; subst. apply reaches_refl.
Qed.

Lemma reaches_retrieve_accounts s t s' :
  retrieve_accounts fl net s = Ok (t, s') -> reaches s s'.
Proof.
  unfold retrieve_accounts. intros H.
  destruct (enable_authentication (settings s)).
  - destruct (retrieve_native fl net s) as [s1| |] eqn:Hn; simpl in H;
      try discriminate.
    eapply reaches_trans; [eapply reaches_retrieve_native; eauto|].
    destruct (tokens_configured s1).
    + destruct (retrieve_tokens fl net s1) as [s2| |] eqn:Ht; simpl in H;
        try discriminate.
      inversion H; subst. eapply reaches_retrieve_tokens; eauto.
    + simpl in H. inversion H; subst. apply reaches_refl.
  - inversion H; subst. apply reaches_refl.
Qed.

Lemma reaches_run_method m s s' : run_method fl net m s = Ok s' -> reaches s s'.
Proof.
  destruct m; simpl; intros H.
  - destruct (__load_retry _ _ _ _) as [[d s1]| |] eqn:Hl; simpl in H;
      try discriminate.
    inversion H; subst. eapply reaches_load_retry; eauto.
  - destruct (_get_token_balance_on_account _ _ _ _ _) as [[v s1]| |] eqn:Hb;
      simpl in H; try discriminate.
    inversion H; subst. eapply reaches_get_token_balance; eauto.
  - eapply reaches_retrieve_tokens; eauto.
  - destruct (retrieve_accounts _ _ _) as [[t s1]| |] eqn:Hr; simpl in H;
      try discriminate.
    inversion H; subst. eapply reaches_retrieve_accounts; eauto.
  - inversion H; subst. apply reaches_refl.
Qed.

Lemma reaches_run_methods ms s s' : run_methods fl net ms s = Ok s' -> reaches s s'.
Proof. apply reaches_for_each. apply reaches_run_method. Qed.

(** With the flag clear, [retrieve_accounts] returns the table and changes
    nothing: no request, no write. *)
Lemma retrieve_accounts_disabled s :
  enable_authentication (settings s) = false ->
  retrieve_accounts fl net s = Ok (_accounts s, s).
Proof. intros H. unfold retrieve_accounts. now rewrite H. Qed.

(** C2: take any sequence of method calls on a connector, and suppose one of
    its requests is answered by a [NOTOK] document whose result is
    ["Invalid API Key"].  Then the flag is clear when the sequence ends;
    after any further sequence of method calls it is still clear, and
    [retrieve_accounts] returns the table as it is and leaves the state, and
    so the history of requests, unchanged. *)
Theorem authentication_lockout ms s s1 :
  run_methods fl net ms s = Ok s1 ->
  exists evs,
    trace s1 = (trace s ++ evs)%list
    /\ (auth_observed evs = true ->
        enable_authentication (settings s1) = false
        /\ forall ms' s2,
             run_methods fl net ms' s1 = Ok s2 ->
             enable_authentication (settings s2) = false
             /\ retrieve_accounts fl net s2 = Ok (_accounts s2, s2)).
Proof.
  intros Hrun. apply reaches_run_methods in Hrun.
  destruct Hrun as (_ & _ & _ & _ & _ & evs & Htr & Hobs).
  exists evs. split; [exact Htr|]. intros Ho. specialize (Hobs Ho).
  split; [exact Hobs|]. intros ms' s2 Hrun'.
  apply reaches_run_methods in Hrun'.
  destruct Hrun' as (_ & _ & _ & _ & Hf & _).
  specialize (Hf Hobs). split; [exact Hf|].
  now apply retrieve_accounts_disabled.
Qed.

End Lockout.

(** ** A pair whose retrieval fails *)

Section Isolation.

Variable fl : Q -> Q.
Variable net : list event -> request -> attempt.

Lemma load_retry_accounts rd retries s d s' :
  __load_retry net rd retries s = Ok (d, s') -> _accounts s' = _accounts s.
Proof.
  intros H. apply load_retry_effect in H.
  destruct H as (dis & evs & -> & _). reflexivity.
Qed.

(** The step of [retrieve_tokens] for one pair, given the balance the call
    computed. *)
Lemma token_step_value account token s v s1 :
  _get_token_balance_on_account fl net account token
    (ensure_symbol (short token) s) = Ok (v, s1) ->
  token_step fl net account token s
  = Ok (set_accounts (tset (short token) account v (_accounts s)) s1).
Proof.
  intros H. unfold token_step. rewrite H. cbn [bind fst snd].
  assert (Hacc : _accounts s1 = _accounts (ensure_symbol (short token) s)).
  { unfold _get_token_balance_on_account in H.
    destruct (__load_retry _ _ _ _) as [[d s2]| |] eqn:Hl; simpl in H;
      try discriminate.
    destruct (balance_of_data fl d token); simpl in H; try discriminate.
    inversion H; subst. eapply load_retry_accounts; eauto. }
  pose proof (ensure_symbol_present (short token) s) as Hin.
  rewrite <- Hacc in Hin.
  destruct (dict_get (short token) (_accounts s1)) as [inner|] eqn:E;
    [|congruence].
  rewrite (store_present _ _ _ _ _ E). now rewrite Hacc, tset_ensure.
Qed.

(** C1, as amended: when the client returns no data for a (token, account)
    pair, the step of [retrieve_tokens] for that pair raises nothing and
    stores [float(0)] under the pair, whatever was there before; it changes
    no other entry of the table, and the loop goes on from the state it
    leaves with the calls for the remaining tokens. *)
Theorem failed_pair_is_written_zero account token s d s1 :
  __load_retry net (token_request_data account token) 5
    (ensure_symbol (short token) s) = Ok (d, s1) ->
  truthy d = false ->
  exists s',
    token_step fl net account token s = Ok s'
    /\ lookup (short token) account (_accounts s') = Some (fl 0%Q)
    /\ (forall sym a,
          (sym, a) <> (short token, account) ->
          lookup sym a (_accounts s') = lookup sym a (_accounts s))
    /\ (forall rest,
          for_each (token_step fl net account) (token :: rest) s
          = for_each (token_step fl net account) rest s').
Proof.
  intros Hload Hd.
  assert (Hbal : _get_token_balance_on_account fl net account token
                   (ensure_symbol (short token) s) = Ok (fl 0%Q, s1)).
  { unfold _get_token_balance_on_account. rewrite Hload. cbn [bind fst snd].
    now rewrite balance_of_data_no_data. }
  pose proof (token_step_value account token s _ _ Hbal) as Hstep.
  eexists. split; [exact Hstep|]. cbn [_accounts set_accounts].
  split; [|split].
  - rewrite lookup_tset. now rewrite !String.eqb_refl.
  - intros sym a Hne. rewrite lookup_tset.
    destruct (String.eqb_spec (short token) sym) as [<-|]; [|reflexivity].
    destruct (String.eqb_spec account a) as [<-|]; [congruence|reflexivity].
  - intros rest. simpl. now rewrite Hstep.
Qed.

(** A failed retrieval of the native balances writes nothing. *)
Lemma failed_native_keeps_table s d s1 :
  __load_retry net (native_request_data s) 5 s = Ok (d, s1) ->
  truthy d = false ->
  retrieve_native fl net s = Ok s1 /\ _accounts s1 = _accounts s.
Proof.
  intros Hload Hd. split.
  - unfold retrieve_native. rewrite Hload. cbn [bind fst snd].
    unfold store_native. now rewrite Hd.
  - eapply load_retry_accounts; eauto.
Qed.

End Isolation.

(** ** What the token step leaves alone *)

Section Frame.

Variable fl : Q -> Q.
Variable net : list event -> request -> attempt.

Lemma keeps_refl sym s : keeps sym s s.
Proof. split; reflexivity. Qed.

Lemma keeps_trans sym s1 s2 s3 :
  keeps sym s1 s2 -> keeps sym s2 s3 -> keeps sym s1 s3.
Proof.
  intros (Ht & Hl) (Ht' & Hl'). split; [congruence|].
  intros a. now rewrite Hl', Hl.
Qed.

Lemma for_each_keeps {A : Type} (body : A -> state -> result state) sym l :
  (forall x s s', In x l -> body x s = Ok s' -> keeps sym s s') ->
  forall s s', for_each body l s = Ok s' -> keeps sym s s'.
Proof.
  induction l as [|x l IH]; intros Hbody s s' H; simpl in H.
  - inversion H; subst. apply keeps_refl.
  - destruct (body x s) as [s1| |] eqn:Hx; cbn [bind] in H; try discriminate.
    eapply keeps_trans.
    + apply (Hbody x); [now left|exact Hx].
    + apply IH; [|exact H]. intros y s0 s0' Hy. apply Hbody. now right.
Qed.

Lemma token_step_keeps account token s s' sym :
  token_step fl net account token s = Ok s' ->
  short token <> sym -> keeps sym s s'.
Proof.
  intros H Hne. split.
  - apply reaches_token_step in H. apply H.
  - assert (Hb : exists v s1,
              _get_token_balance_on_account fl net account token
                (ensure_symbol (short token) s) = Ok (v, s1)).
    { unfold token_step in H.
      destruct (_get_token_balance_on_account _ _ _ _ _) as [[v s1]| |];
        try discriminate. eauto. }
    destruct Hb as (v & s1 & Hb).
    rewrite (token_step_value fl net _ _ _ _ _ Hb) in H.
    inversion H; subst. intros a. cbn [_accounts set_accounts].
    rewrite lookup_tset.
    destruct (String.eqb_spec (short token) sym); [congruence|reflexivity].
Qed.

Lemma tokens_loop_keeps account s s' ts sym :
  tokens (settings s) = Some ts ->
  (forall tok, In tok ts -> short tok <> sym) ->
  tokens_loop fl net account s = Ok s' -> keeps sym s s'.
Proof.
  intros Hts Hsym H. unfold tokens_loop in H. rewrite Hts in H.
  eapply for_each_keeps; [|exact H].
  intros tok s0 s0' Hin Hstep. eapply token_step_keeps; eauto.
Qed.

(** [retrieve_tokens] changes nothing under a symbol that is not the symbol
    of a configured token. *)
Lemma retrieve_tokens_frame s s' ts sym account :
  tokens (settings s) = Some ts ->
  (forall tok, In tok ts -> short tok <> sym) ->
  retrieve_tokens fl net s = Ok s' ->
  lookup sym account (_accounts s') = lookup sym account (_accounts s).
Proof.
  intros Hts Hsym H. unfold retrieve_tokens in H.
  destruct (dict_get "ETH" _) as [eth|]; [|discriminate].
  rewrite <- (lookup_ensure "ETH" s sym account).
  revert H. generalize (dict_keys eth).
  assert (Hts' : tokens (settings (ensure_symbol "ETH" s)) = Some ts).
  { unfold ensure_symbol. now destruct (missing_or_empty _ _). }
  revert Hts'. generalize (ensure_symbol "ETH" s). clear s Hts.
  intros s Hts l. revert s Hts.
  induction l as [|a l IH]; intros s Hts H; simpl in H.
  - inversion H; subst. reflexivity.
  - destruct (tokens_loop fl net a s) as [s1| |] eqn:Hl; cbn [bind] in H;
      try discriminate.
    destruct (tokens_loop_keeps _ _ _ ts sym Hts Hsym Hl) as (Ht1 & Hl1).
    rewrite (IH s1); [apply Hl1| congruence |exact H].
Qed.

End Frame.

(** ** The native balances in the table *)

Section NativeStored.

Variable fl : Q -> Q.
Variable net : list event -> request -> attempt.

(** C8: the [balancemulti] call returns a document when, after at most four
    attempts that the loop retries (connection errors, read timeouts, [NOTOK]
    answers), the server answers with one.  When the message of that
    document, which has passed the [NOTOK] test of line 83, is ["OK"] or
    contains ["OK-"], and its result is a list of entries that is not empty,
    the call succeeds with that list, and the native part of
    [retrieve_accounts] stores the entries in order: every account of the
    list ends with [float(balance)/10^18] of the last entry that names it,
    whatever it held before, and the other accounts under ["ETH"] and all
    other symbols keep what they had.  Without configured tokens this is the
    table [retrieve_accounts] returns; with tokens, the token step that
    follows changes entries under the symbols of the configured tokens
    only. *)
Theorem native_balances_stored s kv m l entries answers :
  let req := request_for s (dict_update (native_request_data s) (api_fields s)) in
  answered net (trace s) req answers ->
  (length answers < 5)%nat ->
  net (trace s ++ rounds req answers)%list req = Response (PyDict kv) ->
  dict_get "message" kv = Some (PyStr m) ->
  is_substring "NOTOK" m = false ->
  ok_message m = true ->
  dict_get "result" kv = Some (PyList l) ->
  l <> [] ->
  Forall2 is_native_entry l entries ->
  __load_retry net (native_request_data s) 5 s
  = Ok (PyList l,
        emit (rounds req answers ++ [Get req (Response (PyDict kv))])%list s)
  /\ exists s',
       retrieve_native fl net s = Ok s'
       /\ (forall account,
             lookup "ETH" account (_accounts s')
             = match last_entry account entries with
               | Some raw => Some (native_balance fl raw)
               | None => lookup "ETH" account (_accounts s)
               end)
       /\ (forall sym, sym <> "ETH" ->
             dict_get sym (_accounts s') = dict_get sym (_accounts s))
       /\ (enable_authentication (settings s) = true ->
           tokens_configured s = false ->
           retrieve_accounts fl net s = Ok (_accounts s', s'))
       /\ (enable_authentication (settings s) = true ->
           forall t s'' sym account,
             retrieve_accounts fl net s = Ok (t, s'') ->
             (forall ts tok,
                tokens (settings s) = Some ts -> In tok ts ->
                short tok <> sym) ->
             lookup sym account t = lookup sym account (_accounts s')).
Proof.
  intros req Hans Hlen Hnet Hm Hnotok Hok Hres Hl Hent.
  assert (Hfield : field "result" kv = PyList l) by (unfold field; now rewrite Hres).
  assert (Htruthy : truthy (PyList l) = true) by (destruct l; [congruence|reflexivity]).
  assert (Hload : __load_retry net (native_request_data s) 5 s
                  = Ok (PyList l,
                        emit (rounds req answers
                              ++ [Get req (Response (PyDict kv))])%list s)).
  { rewrite <- Hfield.
    apply (load_retry_success_after net answers (native_request_data s) 5 s
             kv m); auto; try lia.
    now rewrite Hfield. }
  split; [exact Hload|].
  set (s1 := emit (rounds req answers
                   ++ [Get req (Response (PyDict kv))])%list s) in *.
  assert (Hentries : entries <> []).
  { intros ->. inversion Hent; subst. congruence. }
  assert (Hnative : retrieve_native fl net s
                    = Ok (set_accounts
                            (native_writes fl entries (_accounts s))
                            (ensure_symbol "ETH" s1))).
  { unfold retrieve_native. rewrite Hload. cbn [bind fst snd].
    unfold store_native. rewrite Htruthy. cbn [py_iter bind].
    rewrite (native_loop fl l entries _ Hent) by apply ensure_symbol_present.
    rewrite native_writes_ensure by assumption. reflexivity. }
  eexists. split; [exact Hnative|]. cbn [_accounts set_accounts].
  assert (Hsettings : settings
                        (set_accounts (native_writes fl entries (_accounts s))
                           (ensure_symbol "ETH" s1)) = settings s).
  { unfold ensure_symbol. now destruct (missing_or_empty _ _). }
  split; [|split; [|split]].
  - intros account. apply lookup_native_writes.
  - intros sym Hsym. now apply dict_get_native_writes.
  - intros Hflag Htok. unfold retrieve_accounts. rewrite Hflag, Hnative.
    cbn [bind]. unfold tokens_configured in *. rewrite Hsettings.
    destruct (tokens (settings s)) as [[|tok ts]|]; try discriminate;
      reflexivity.
  - intros Hflag t s'' sym account Hrun Hsym.
    unfold retrieve_accounts in Hrun. rewrite Hflag, Hnative in Hrun.
    cbn [bind] in Hrun.
    destruct (tokens_configured _) eqn:Htok.
    + destruct (retrieve_tokens fl net _) as [s2| |] eqn:Ht; cbn [bind] in Hrun;
        try discriminate.
      inversion Hrun; subst.
      unfold tokens_configured in Htok. rewrite Hsettings in Htok.
      destruct (tokens (settings s)) as [ts|] eqn:Hts; [|discriminate].
      refine (retrieve_tokens_frame fl net _ _ ts sym account _ _ Ht).
      * now rewrite Hsettings.
      * intros tok Hin. now apply (Hsym ts).
    + cbn [bind] in Hrun. inversion Hrun; subst. reflexivity.
Qed.

End NativeStored.

(** ** Documents the client does not recognise *)

(** C4, as stated, fails: the server always answers with message ["OK"] and
    an empty result; the client makes one request, not five, and returns the
    document it received. *)
Lemma empty_result_is_not_retried :
  exists s',
    __load_retry empty_result_server [] 5 demo_state
    = Ok (empty_result_document, s')
    /\ requests_made (trace s') = 1%nat
    /\ truthy empty_result_document = true.
Proof. eexists. split; [vm_compute; reflexivity|]. split; reflexivity. Qed.

(** C4, as amended: when the first answer is a document whose message is a
    string without ["NOTOK"] and which fails the test for success (the
    message is not ["OK"] and has no ["OK-"], or the result is empty), the
    loop ends with that attempt: exactly one request is made, nothing else
    changes, and the document itself is returned. *)
Theorem unrecognised_document_ends_loop net rd retries s kv m :
  let req := request_for s (dict_update rd (api_fields s)) in
  1 <= retries ->
  net (trace s) req = Response (PyDict kv) ->
  dict_get "message" kv = Some (PyStr m) ->
  is_substring "NOTOK" m = false ->
  ok_message m && truthy (field "result" kv) = false ->
  __load_retry net rd retries s
  = Ok (PyDict kv, emit [Get req (Response (PyDict kv))] s)
  /\ requests_made (trace (emit [Get req (Response (PyDict kv))] s))
     = S (requests_made (trace s)).
Proof.
  intros req Hr Hnet Hm Hnotok Hok. split.
  - now apply load_retry_unrecognised with (m := m).
  - unfold requests_made. simpl. rewrite filter_app, length_app. simpl. lia.
Qed.

Lemma unrecognised_document_ends_loop_witness :
  __load_retry empty_result_server [] 5 demo_state
  = Ok (empty_result_document,
        emit [Get (request_for demo_state
                     (dict_update [] (api_fields demo_state)))
                (Response empty_result_document)] demo_state)
  /\ requests_made
       (trace (emit [Get (request_for demo_state
                            (dict_update [] (api_fields demo_state)))
                       (Response empty_result_document)] demo_state))
     = 1%nat.
Proof.
  apply (unrecognised_document_ends_loop empty_result_server [] 5 demo_state
           _ "OK"); [lia|reflexivity..].
Defined.

(** C5: when the first answer is a JSON object that is not empty and has no
    field [message], [__load_retry] raises [TypeError]: [data.get('message')]
    is [None], and ['NOTOK' in None] at line 83 is outside the [try]
    statement. *)
Theorem load_retry_raises_without_message net rd retries s kv :
  1 <= retries ->
  net (trace s) (request_for s (dict_update rd (api_fields s)))
  = Response (PyDict kv) ->
  kv <> [] ->
  dict_get "message" kv = None ->
  __load_retry net rd retries s = Raise TypeError.
Proof.
  intros Hr Hnet Hkv Hmsg.
  rewrite (load_retry_first_answer net rd retries s _ Hr Hnet).
  assert (Hne : truthy (PyDict kv) = true).
  { destruct kv; [congruence|reflexivity]. }
  assert (Hnone : field "message" kv = PyNone).
  { unfold field. now rewrite Hmsg. }
  unfold notok_block. cbn [data]. rewrite Hne.
  unfold py_get. rewrite Hnone. reflexivity.
Qed.

Lemma load_retry_raises_without_message_witness :
  __load_retry no_message_server [] 5 demo_state = Raise TypeError.
Proof.
  apply (load_retry_raises_without_message no_message_server [] 5 demo_state
           [("status", PyStr "1"); ("result", PyStr "5000000")]);
    [lia|reflexivity|discriminate|reflexivity].
Defined.

(** ** One table for all instances *)

Lemma length_replace_nth {A : Type} (n : nat) (x : A) (l : list A) :
  length (replace_nth n x l) = length l.
Proof.
  revert n. induction l as [|y l IH]; intros [|n]; simpl; auto.
Qed.

(** After a method of one instance has run, [get_accounts] of every instance
    returns the table that method left. *)
Lemma get_accounts_after_call {A : Type} (m : state -> result (A * state))
    (self other : nat) (h h' : Heap) (r : A) :
  call m self h = Ok (r, h') ->
  (other < length (instances h))%nat ->
  call_get_accounts other h' = Some (Connector_accounts h').
Proof.
  unfold call, call_get_accounts, view. intros H Hlt.
  destruct (nth_error (instances h) self) as [st|]; [|discriminate].
  destruct (m _) as [[a s']| |]; cbn [bind] in H; try discriminate.
  inversion H; subst. cbn [instances commit fst snd].
  destruct (nth_error (replace_nth self (settings s') (instances h)) other)
    as [st'|] eqn:E; [reflexivity|].
  apply nth_error_None in E. rewrite length_replace_nth in E. lia.
Qed.

(** C3: two connectors are built; the first retrieves its balances; the table
    [get_accounts] returns for the second, which retrieved nothing, goes from
    empty to the balances of the first.  The flag of the second is its
    own. *)
Theorem accounts_shared_between_instances :
  exists h1 h2 h3 t,
    new demo_kwargs initial_heap = Ok (0%nat, h1)
    /\ new native_only_kwargs h1 = Ok (1%nat, h2)
    /\ call_get_accounts 1 h2 = Some []
    /\ call (retrieve_accounts exact demo_server) 0 h2 = Ok (t, h3)
    /\ call_get_accounts 1 h3 = Some t
    /\ lookup "ETH" "0xA" t = Some 2%Q
    /\ nth_error (instances h3) 1 = nth_error (instances h2) 1.
Proof.
  do 4 eexists.
  split; [vm_compute; reflexivity|].
  split; [vm_compute; reflexivity|].
  split; [vm_compute; reflexivity|].
  split; [vm_compute; reflexivity|].
  repeat split; vm_compute; reflexivity.
Qed.

(** ** Closed instances of the theorems *)

Lemma transport_failures_exhaust_retries_witness :
  (forall h r, exists e, unreachable h r = Failed e)
  /\ exists es,
       length es = 5%nat
       /\ requests_made
            (failed_rounds
               (request_for demo_state
                  (dict_update [] (api_fields demo_state))) es) = 5%nat
       /\ __load_retry unreachable [] 5 demo_state
          = Ok (PyNone,
                emit (failed_rounds
                        (request_for demo_state
                           (dict_update [] (api_fields demo_state))) es)
                  demo_state).
Proof.
  assert (H : forall h r, exists e, unreachable h r = Failed e)
    by (intros; exists ConnectionError; reflexivity).
  split; [exact H|].
  exact (transport_failures_exhaust_retries unreachable H [] demo_state).
Defined.

Lemma token_balance_normalised_witness :
  exists s',
    __load_retry demo_server (token_request_data "0xA" usdc) 5 demo_state
    = Ok (PyStr "5000000", s')
    /\ _get_token_balance_on_account exact demo_server "0xA" usdc demo_state
       = Ok (exact (inject_Z 5000000 / inject_Z (10 ^ 6))%Q, s').
Proof.
  eexists. split; [reflexivity|].
  refine (proj1 (proj2 (proj2 (proj1 (proj2
            (token_balance_normalised exact demo_server "0xA" usdc demo_state
               _ _ eq_refl)) 5000000 eq_refl eq_refl))) _ 6 eq_refl _);
    lia.
Defined.

Lemma native_balances_stored_witness :
  exists s',
    retrieve_native exact flaky_server stale_state = Ok s'
    /\ requests_made (trace s') = 2%nat
    /\ lookup "ETH" "0xA" (_accounts s') = Some 2%Q
    /\ lookup "ETH" "0xB" (_accounts s') = Some 0%Q
    /\ lookup "USDC" "0xB" (_accounts s') = Some 7%Q.
Proof.
  destruct (native_balances_stored exact flaky_server stale_state
              [("status", PyStr "1"); ("message", PyStr "OK");
               ("result", PyList [native_entry "0xA" "2000000000000000000";
                                  native_entry "0xB" "0"])]
              "OK"
              [native_entry "0xA" "2000000000000000000"; native_entry "0xB" "0"]
              [("0xA", 2000000000000000000); ("0xB", 0)]
              [Failed ReadTimeout])
    as (Hload & s' & Hn & Hl & Hother & _).
  - repeat split.
  - simpl. lia.
  - reflexivity.
  - reflexivity.
  - reflexivity.
  - reflexivity.
  - reflexivity.
  - discriminate.
  - repeat constructor; eexists; repeat split; reflexivity.
  - exists s'. split; [exact Hn|].
    assert (Htr : requests_made (trace s') = 2%nat).
    { unfold retrieve_native in Hn. rewrite Hload in Hn. cbn [bind fst snd] in Hn.
      apply (f_equal (fun r => match r with
                               | Ok x => requests_made (trace x)
                               | _ => 0%nat
                               end)) in Hn.
      rewrite <- Hn. vm_compute. reflexivity. }
    split; [exact Htr|]. split; [|split].
    + rewrite Hl. reflexivity.
    + rewrite Hl. reflexivity.
    + unfold lookup. rewrite Hother by discriminate. reflexivity.
Defined.

Lemma authentication_lockout_witness :
  exists s1,
    run_methods exact invalid_key_server [RetrieveAccounts] native_only_state
    = Ok s1
    /\ enable_authentication (settings s1) = false
    /\ retrieve_accounts exact invalid_key_server s1 = Ok (_accounts s1, s1).
Proof.
  assert (Hrun : exists s1,
             run_methods exact invalid_key_server [RetrieveAccounts]
               native_only_state = Ok s1
             /\ auth_observed (trace s1) = true)
    by (eexists; split; vm_compute; reflexivity).
  destruct Hrun as (s1 & Hrun & Hobs).
  exists s1. split; [exact Hrun|].
  destruct (authentication_lockout exact invalid_key_server [RetrieveAccounts]
              native_only_state s1 Hrun) as (evs & Htr & Hlock).
  simpl in Htr. rewrite Htr in Hobs.
  destruct (Hlock Hobs) as (Hflag & Hlater).
  split; [exact Hflag|].
  exact (proj2 (Hlater [] s1 eq_refl)).
Defined.

Lemma failed_pair_is_written_zero_witness :
  exists s',
    token_step exact unreachable "0xA" usdc stale_state = Ok s'
    /\ lookup "USDC" "0xA" (_accounts stale_state) = Some 5%Q
    /\ lookup "USDC" "0xA" (_accounts s') = Some (exact 0%Q).
Proof.
  assert (Hload : exists s1,
             __load_retry unreachable (token_request_data "0xA" usdc) 5
               (ensure_symbol (short usdc) stale_state) = Ok (PyNone, s1))
    by (eexists; vm_compute; reflexivity).
  destruct Hload as (s1 & Hload).
  destruct (failed_pair_is_written_zero exact unreachable "0xA" usdc
              stale_state PyNone s1 Hload eq_refl) as (s' & Hs & Hz & _).
  exists s'. split; [exact Hs|]. split; [reflexivity|exact Hz].
Defined.

(** ** Counterexamples *)

(** C1, as stated, fails: the request for (USDC, 0xB) times out while the one
    for (USDC, 0xA) is answered; the sibling gets its new value 6.0, and the
    value 7.0 stored for the failed pair is overwritten with 0.0. *)
Lemma failed_pair_loses_prior_value :
  exists t s',
    retrieve_accounts exact partial_server stale_state = Ok (t, s')
    /\ lookup "USDC" "0xB" (_accounts stale_state) = Some 7%Q
    /\ lookup "USDC" "0xB" t = Some 0%Q
    /\ lookup "USDC" "0xA" t = Some 6%Q
    /\ lookup "ETH" "0xB" t = Some 1%Q.
Proof.
  do 2 eexists. split; [vm_compute; reflexivity|].
  repeat split; vm_compute; reflexivity.
Qed.

(** ** Sequences of writes *)

Lemma apply_writes_cons sym account v ws t :
  apply_writes ((sym, account, v) :: ws) t
  = apply_writes ws (tset sym account v t).
Proof. reflexivity. Qed.

Lemma writes_cell_cons sym account v ws sym' account' :
  writes_cell sym' account' ((sym, account, v) :: ws)
  = (String.eqb sym sym' && String.eqb account account')
    || writes_cell sym' account' ws.
Proof. reflexivity. Qed.

Lemma apply_writes_app ws1 ws2 t :
  apply_writes (ws1 ++ ws2) t = apply_writes ws2 (apply_writes ws1 t).
Proof. apply fold_left_app. Qed.

Lemma tset_tset sym account v v' t :
  tset sym account v (tset sym account v' t) = tset sym account v t.
Proof.
  unfold tset. rewrite dict_get_set_eq, dict_set_set. now rewrite dict_set_set.
Qed.

Lemma present_tset_same sym account v t : present sym account (tset sym account v t).
Proof.
  unfold present. rewrite lookup_tset, !String.eqb_refl. discriminate.
Qed.

Lemma present_tset sym account v t sym' account' :
  present sym' account' t -> present sym' account' (tset sym account v t).
Proof.
  unfold present. rewrite lookup_tset.
  destruct (String.eqb sym sym' && String.eqb account account');
    [discriminate|auto].
Qed.

Lemma present_apply_writes ws sym account t :
  present sym account t -> present sym account (apply_writes ws t).
Proof.
  revert t. induction ws as [|w ws IH]; intros t H; [exact H|].
  simpl. apply IH. now apply present_tset.
Qed.

(** Two writes to different cells commute when the cell of the outer one
    exists already. *)
Lemma tset_comm sym account v sym' account' v' t :
  (sym, account) <> (sym', account') ->
  present sym account t ->
  tset sym account v (tset sym' account' v' t)
  = tset sym' account' v' (tset sym account v t).
Proof.
  intros Hne Hp. unfold present, lookup in Hp. unfold tset.
  destruct (dict_get sym t) as [inner|] eqn:E; [|congruence].
  destruct (String.eqb_spec sym sym') as [<-|Hs].
  - rewrite E, !dict_get_set_eq, !dict_set_set.
    f_equal. apply dict_set_comm; [congruence|exact Hp].
  - rewrite (dict_get_set_neq sym' sym) by congruence.
    rewrite (dict_get_set_neq sym sym') by congruence.
    rewrite E. apply dict_set_comm; [exact Hs|].
    rewrite E. discriminate.
Qed.

(** A write to an existing cell, done before a sequence: it is absorbed when
    the sequence writes the cell, and can be done after it otherwise. *)
Lemma apply_writes_after_tset ws sym account v t :
  present sym account t ->
  apply_writes ws (tset sym account v t)
  = if writes_cell sym account ws
    then apply_writes ws t
    else tset sym account v (apply_writes ws t).
Proof.
  revert t. induction ws as [|[[s1 a1] v1] ws IH]; intros t Hp; [reflexivity|].
  rewrite !apply_writes_cons, writes_cell_cons.
  destruct (String.eqb_spec s1 sym) as [->|Hs]; cbn [andb].
  - destruct (String.eqb_spec a1 account) as [->|Ha]; cbn [orb].
    + now rewrite tset_tset.
    + rewrite <- tset_comm by (congruence || assumption).
      apply IH. now apply present_tset.
  - rewrite <- tset_comm by (congruence || assumption).
    apply IH. now apply present_tset.
Qed.

(** Doing a sequence of writes twice is doing it once. *)
Lemma apply_writes_twice ws t :
  apply_writes ws (apply_writes ws t) = apply_writes ws t.
Proof.
  revert t. induction ws as [|[[s1 a1] v1] ws IH]; intros t; [reflexivity|].
  rewrite !apply_writes_cons.
  set (t1 := tset s1 a1 v1 t).
  assert (Hp1 : present s1 a1 t1) by apply present_tset_same.
  assert (Hp : present s1 a1 (apply_writes ws t1))
    by now apply present_apply_writes.
  rewrite (apply_writes_after_tset ws s1 a1 v1 _ Hp).
  destruct (writes_cell s1 a1 ws) eqn:Hw.
  - apply IH.
  - rewrite IH.
    pose proof (apply_writes_after_tset ws s1 a1 v1 t1 Hp1) as H.
    rewrite Hw in H. rewrite <- H. unfold t1. now rewrite tset_tset.
Qed.

Lemma ensure_symbol_table sym s :
  ensure_symbol sym s = set_accounts (ensure_table sym (_accounts s)) s.
Proof.
  unfold ensure_symbol, ensure_table.
  destruct (missing_or_empty sym (_accounts s)); [reflexivity|now destruct s].
Qed.

Lemma ensure_table_present sym t :
  dict_get sym t <> None -> ensure_table sym t = t.
Proof.
  unfold ensure_table, missing_or_empty. intros H.
  destruct (dict_get sym t) as [[|p inner]|] eqn:E; try congruence.
  now apply dict_set_same.
Qed.

Lemma dict_get_ensure_table sym t : dict_get sym (ensure_table sym t) <> None.
Proof.
  unfold ensure_table, missing_or_empty.
  destruct (dict_get sym t) as [[|p inner]|] eqn:E.
  - rewrite dict_get_set_eq. discriminate.
  - rewrite E. discriminate.
  - rewrite dict_get_set_eq. discriminate.
Qed.

Lemma tset_ensure_table sym account v t :
  tset sym account v (ensure_table sym t) = tset sym account v t.
Proof.
  unfold ensure_table, missing_or_empty, tset.
  destruct (dict_get sym t) as [[|p inner]|] eqn:E; rewrite ?E; try reflexivity.
  - rewrite dict_get_set_eq. apply dict_set_set.
  - rewrite dict_get_set_eq. apply dict_set_set.
Qed.

Lemma dict_get_tset_present sym account v t sym' :
  dict_get sym' t <> None -> dict_get sym' (tset sym account v t) <> None.
Proof.
  intros H. unfold tset. rewrite dict_get_set.
  destruct (String.eqb sym sym'); [discriminate|exact H].
Qed.

Lemma dict_get_apply_writes_present ws t sym :
  dict_get sym t <> None -> dict_get sym (apply_writes ws t) <> None.
Proof.
  revert t. induction ws as [|[[s1 a1] v1] ws IH]; intros t H; [exact H|].
  rewrite apply_writes_cons. apply IH. now apply dict_get_tset_present.
Qed.

Lemma eth_keys_ensure_table t : eth_keys (ensure_table "ETH" t) = eth_keys t.
Proof.
  unfold eth_keys, ensure_table, missing_or_empty.
  destruct (dict_get "ETH" t) as [[|p inner]|] eqn:E; rewrite ?E;
    try reflexivity; now rewrite dict_get_set_eq.
Qed.

Lemma eth_keys_tset sym account v t :
  (sym = "ETH" -> In account (eth_keys t)) ->
  eth_keys (tset sym account v t) = eth_keys t.
Proof.
  intros H. unfold eth_keys, tset in *.
  destruct (String.eqb_spec sym "ETH") as [->|Hs].
  - specialize (H eq_refl). rewrite dict_get_set_eq.
    destruct (dict_get "ETH" t) as [inner|]; [|contradiction].
    apply dict_keys_set_present. now apply dict_get_In_keys.
  - now rewrite dict_get_set_neq.
Qed.

Lemma In_eth_keys_tset_same account v t :
  In account (eth_keys (tset "ETH" account v t)).
Proof.
  unfold eth_keys, tset. rewrite dict_get_set_eq.
  apply dict_get_In_keys. rewrite dict_get_set_eq. discriminate.
Qed.

Lemma In_eth_keys_tset sym account v t a :
  In a (eth_keys t) -> In a (eth_keys (tset sym account v t)).
Proof.
  unfold eth_keys, tset. intros H.
  destruct (String.eqb_spec sym "ETH") as [->|Hs].
  - rewrite dict_get_set_eq.
    destruct (dict_get "ETH" t) as [inner|]; [|contradiction].
    apply dict_get_In_keys. rewrite dict_get_set.
    destruct (String.eqb account a); [discriminate|].
    now apply dict_get_In_keys.
  - now rewrite dict_get_set_neq.
Qed.

Lemma In_eth_keys_apply_writes ws t a :
  In a (eth_keys t) -> In a (eth_keys (apply_writes ws t)).
Proof.
  revert t. induction ws as [|[[s1 a1] v1] ws IH]; intros t H; [exact H|].
  rewrite apply_writes_cons. apply IH. now apply In_eth_keys_tset.
Qed.

(** Writes under ["ETH"] to accounts that are there leave the list of
    accounts as it is. *)
Lemma eth_keys_apply_writes ws t :
  (forall w, In w ws -> fst (fst w) = "ETH" -> In (snd (fst w)) (eth_keys t)) ->
  eth_keys (apply_writes ws t) = eth_keys t.
Proof.
  revert t. induction ws as [|[[s1 a1] v1] ws IH]; intros t H; [reflexivity|].
  rewrite apply_writes_cons.
  assert (H1 : eth_keys (tset s1 a1 v1 t) = eth_keys t).
  { apply eth_keys_tset. intros Hs. apply (H (s1, a1, v1)); [now left|exact Hs]. }
  rewrite IH; [exact H1|].
  intros w Hw Hs. rewrite H1. apply H; [now right|exact Hs].
Qed.

(** Every account written under ["ETH"] is among the accounts afterwards. *)
Lemma written_in_eth_keys ws t w :
  In w ws -> fst (fst w) = "ETH" ->
  In (snd (fst w)) (eth_keys (apply_writes ws t)).
Proof.
  revert t. induction ws as [|[[s1 a1] v1] ws IH]; intros t Hw Hs; [contradiction|].
  rewrite apply_writes_cons. destruct Hw as [<-|Hw].
  - cbn [fst snd] in *. subst s1.
    apply In_eth_keys_apply_writes, In_eth_keys_tset_same.
  - now apply IH.
Qed.

(** Creating ["ETH"] before or after writes under ["ETH"] is the same. *)
Lemma ensure_table_apply_writes ws t :
  (forall w, In w ws -> fst (fst w) = "ETH") ->
  ensure_table "ETH" (apply_writes ws t)
  = apply_writes ws (ensure_table "ETH" t).
Proof.
  destruct ws as [|[[s1 a1] v1] ws]; intros H; [reflexivity|].
  rewrite !apply_writes_cons.
  assert (Hs : s1 = "ETH") by (apply (H (s1, a1, v1)); now left).
  subst s1. rewrite tset_ensure_table.
  apply ensure_table_present, dict_get_apply_writes_present.
  unfold tset. rewrite dict_get_set_eq. discriminate.
Qed.

(** ** A server that answers a request the same way every time *)

Lemma config_eq_refl s : config_eq s s.
Proof. unfold config_eq. auto. Qed.

Lemma config_eq_trans s1 s2 s3 :
  config_eq s1 s2 -> config_eq s2 s3 -> config_eq s1 s3.
Proof. unfold config_eq. intuition congruence. Qed.

Lemma config_eq_sym s1 s2 : config_eq s1 s2 -> config_eq s2 s1.
Proof. unfold config_eq. intuition congruence. Qed.

Lemma config_eq_after dis evs t s : config_eq s (after dis evs t s).
Proof. unfold config_eq. simpl. auto. Qed.

Lemma config_eq_act dis evs s : config_eq s (act dis evs s).
Proof. unfold config_eq. simpl. auto. Qed.

Lemma config_eq_ensure sym s : config_eq s (ensure_symbol sym s).
Proof.
  unfold ensure_symbol. destruct (missing_or_empty _ _);
    unfold config_eq; simpl; auto.
Qed.

Lemma after_id s : after false [] (_accounts s) s = s.
Proof. destruct s as [[] ? ?]. unfold after, act. simpl. now rewrite app_nil_r. Qed.

Lemma act_after dis evs s : act dis evs s = after dis evs (_accounts s) s.
Proof. reflexivity. Qed.

Lemma after_after d1 e1 t1 d2 e2 t2 s :
  after d2 e2 t2 (after d1 e1 t1 s) = after (d1 || d2) (e1 ++ e2) t2 s.
Proof.
  unfold after, act. simpl. rewrite app_assoc. destruct d1, d2; reflexivity.
Qed.

Lemma after_ensure dis evs t sym s :
  after dis evs t (ensure_symbol sym s) = after dis evs t s.
Proof. rewrite ensure_symbol_table. reflexivity. Qed.

Section Stationary.

Variable fl : Q -> Q.
Variable net : list event -> request -> attempt.
Hypothesis stationary : forall h h' r, net h r = net h' r.

Lemma try_block_uniform retries l s :
  exists l1 evs,
    forall s2, config_eq s s2 ->
      try_block net retries l s2 = (l1, act false evs s2).
Proof.
  unfold try_block. destruct (count l + 1 >? retries).
  - eexists. exists []. intros s2 _. now rewrite act_id.
  - destruct (net (trace s)
                (request_for s (dict_update (request_data l) (api_fields s))))
      as [e|doc] eqn:Hnet.
    + do 2 eexists. intros s2 (Hk & Hu & _).
      replace (api_fields s2) with (api_fields s)
        by (unfold api_fields; now rewrite Hk).
      replace (request_for s2) with (request_for s)
        by (unfold request_for; now rewrite Hu).
      rewrite (stationary (trace s2) (trace s)), Hnet, emit_act. reflexivity.
    + do 2 eexists. intros s2 (Hk & Hu & _).
      replace (api_fields s2) with (api_fields s)
        by (unfold api_fields; now rewrite Hk).
      replace (request_for s2) with (request_for s)
        by (unfold request_for; now rewrite Hu).
      rewrite (stationary (trace s2) (trace s)), Hnet, emit_act. reflexivity.
Qed.

Lemma notok_block_uniform l s l' s' :
  notok_block l s = Ok (l', s') ->
  exists dis evs, forall s2, notok_block l s2 = Ok (l', act dis evs s2).
Proof.
  unfold notok_block. intros H.
  destruct (truthy (data l)).
  - destruct (py_get (data l) "message") as [msg| |]; cbn [bind] in *;
      try discriminate.
    destruct (py_in "NOTOK" msg) as [[|]| |]; cbn [bind] in *;
      try discriminate.
    + destruct (py_get (data l) "result") as [res| |]; cbn [bind] in *;
        try discriminate.
      destruct (py_eq_str res "Invalid API Key"); inversion H; subst.
      * exists true. eexists. intros s2.
        unfold authentication_error_handler.
        rewrite !emit_act, disable_act, !act_act. reflexivity.
      * exists false. eexists. intros s2. rewrite emit_act. reflexivity.
    + inversion H; subst. exists false, []. intros s2. now rewrite act_id.
  - inversion H; subst. exists false, []. intros s2. now rewrite act_id.
Qed.

Lemma iteration_uniform retries l s l' s' :
  iteration net retries l s = Ok (l', s') ->
  exists dis evs,
    forall s2, config_eq s s2 ->
      iteration net retries l s2 = Ok (l', act dis evs s2).
Proof.
  intros H. unfold iteration in *.
  destruct (try_block_uniform retries l s) as (l1 & e1 & Htry).
  rewrite (Htry s (config_eq_refl s)) in H.
  destruct (notok_block l1 (act false e1 s)) as [[l2 s2']| |] eqn:Hn;
    cbn [bind fst snd] in H; try discriminate.
  destruct (ok_block l2) as [l3| |] eqn:Hok; cbn [bind] in H; try discriminate.
  inversion H; subst.
  destruct (notok_block_uniform _ _ _ _ Hn) as (d2 & e2 & Hn2).
  exists (false || d2), (e1 ++ e2)%list. intros s2 Hc.
  rewrite (Htry s2 Hc), Hn2. cbn [bind fst snd]. rewrite Hok. cbn [bind].
  now rewrite act_act.
Qed.

Lemma while_retry_uniform retries fuel l s l' s' :
  while_retry net fuel retries l s = Ok (l', s') ->
  exists dis evs,
    forall s2, config_eq s s2 ->
      while_retry net fuel retries l s2 = Ok (l', act dis evs s2).
Proof.
  revert l s. induction fuel as [|fuel IH]; intros l s H; simpl in H.
  - destruct (retry l) eqn:Hr; [discriminate|]. inversion H; subst.
    exists false, []. intros s2 _. simpl. rewrite Hr. now rewrite act_id.
  - destruct (retry l) eqn:Hr.
    + destruct (iteration net retries l s) as [[l1 s1]| |] eqn:Hit;
        cbn [bind fst snd] in H; try discriminate.
      destruct (iteration_uniform _ _ _ _ _ Hit) as (d1 & e1 & H1).
      pose proof (H1 s (config_eq_refl s)) as Hs. rewrite Hit in Hs.
      inversion Hs; subst s1.
      destruct (IH _ _ H) as (d2 & e2 & H2).
      exists (d1 || d2), (e1 ++ e2)%list. intros s2 Hc. simpl. rewrite Hr.
      rewrite (H1 s2 Hc). cbn [bind fst snd].
      rewrite H2, act_act; [reflexivity|].
      eapply config_eq_trans; [apply config_eq_sym, config_eq_act|].
      eapply config_eq_trans; [exact Hc|apply config_eq_act].
    + inversion H; subst. exists false, []. intros s2 _. simpl. rewrite Hr.
      now rewrite act_id.
Qed.

(** On any connector with the same configuration the client returns the same
    data and changes the state the same way. *)
Lemma load_retry_uniform rd retries s d s' :
  __load_retry net rd retries s = Ok (d, s') ->
  exists dis evs,
    forall s2, config_eq s s2 ->
      __load_retry net rd retries s2 = Ok (d, act dis evs s2).
Proof.
  unfold __load_retry. intros H.
  destruct (while_retry _ _ _ _ _) as [[l1 s1]| |] eqn:Hw; cbn [bind fst snd] in H;
    try discriminate.
  inversion H; subst.
  destruct (while_retry_uniform _ _ _ _ _ _ Hw) as (dis & evs & Hu).
  exists dis, evs. intros s2 Hc. now rewrite (Hu s2 Hc).
Qed.

Lemma get_token_balance_uniform account token s v s' :
  _get_token_balance_on_account fl net account token s = Ok (v, s') ->
  exists dis evs,
    forall s2, config_eq s s2 ->
      _get_token_balance_on_account fl net account token s2
      = Ok (v, act dis evs s2).
Proof.
  unfold _get_token_balance_on_account. intros H.
  destruct (__load_retry _ _ _ _) as [[d s1]| |] eqn:Hl;
    cbn [bind fst snd] in H; try discriminate.
  destruct (balance_of_data fl d token) as [b| |] eqn:Hb; cbn [bind] in H;
    try discriminate.
  inversion H; subst.
  destruct (load_retry_uniform _ _ _ _ _ Hl) as (dis & evs & Hu).
  exists dis, evs. intros s2 Hc. rewrite (Hu s2 Hc). cbn [bind fst snd].
  now rewrite Hb.
Qed.

Lemma token_step_uniform account token s s' :
  token_step fl net account token s = Ok s' ->
  exists v dis evs,
    forall s2, config_eq s s2 ->
      token_step fl net account token s2
      = Ok (after dis evs (tset (short token) account v (_accounts s2)) s2).
Proof.
  intros H. unfold token_step in H.
  destruct (_get_token_balance_on_account _ _ _ _ _) as [[v s1]| |] eqn:Hb;
    cbn [bind fst snd] in H; try discriminate.
  destruct (get_token_balance_uniform _ _ _ _ _ Hb) as (dis & evs & Hu).
  exists v, dis, evs. intros s2 Hc.
  assert (Hc2 : config_eq (ensure_symbol (short token) s)
                  (ensure_symbol (short token) s2)).
  { eapply config_eq_trans; [apply config_eq_sym, config_eq_ensure|].
    eapply config_eq_trans; [exact Hc|apply config_eq_ensure]. }
  rewrite (token_step_value fl net account token s2 v _ (Hu _ Hc2)).
  f_equal. rewrite ensure_symbol_table. reflexivity.
Qed.

End Stationary.

Section Refresh.

Variable fl : Q -> Q.
Variable net : list event -> request -> attempt.
Hypothesis stationary : forall h h' r, net h r = net h' r.

(** A loop whose body is a sequence of writes on every connector with the
    same configuration is one itself. *)
Lemma for_each_uniform {A : Type} (body : A -> state -> result state)
    (P : A -> write -> Prop) :
  (forall x s s', body x s = Ok s' ->
     exists ws dis evs,
       (forall w, In w ws -> P x w)
       /\ forall s2, config_eq s s2 ->
            body x s2 = Ok (after dis evs (apply_writes ws (_accounts s2)) s2)) ->
  forall l s s', for_each body l s = Ok s' ->
    exists ws dis evs,
      (forall w, In w ws -> exists x, In x l /\ P x w)
      /\ forall s2, config_eq s s2 ->
           for_each body l s2
           = Ok (after dis evs (apply_writes ws (_accounts s2)) s2).
Proof.
  intros Hbody. induction l as [|x l IH]; intros s s' H; simpl in H.
  - exists [], false, []. split; [contradiction|].
    intros s2 _. simpl. now rewrite after_id.
  - destruct (body x s) as [s1| |] eqn:Hx; cbn [bind] in H; try discriminate.
    destruct (Hbody _ _ _ Hx) as (ws1 & d1 & e1 & HP1 & H1).
    pose proof (H1 s (config_eq_refl s)) as Hs. rewrite Hx in Hs.
    inversion Hs; subst s1.
    destruct (IH _ _ H) as (ws2 & d2 & e2 & HP2 & H2).
    exists (ws1 ++ ws2)%list, (d1 || d2), (e1 ++ e2)%list. split.
    + intros w Hw. apply in_app_or in Hw. destruct Hw as [Hw|Hw].
      * exists x. split; [now left|auto].
      * destruct (HP2 w Hw) as (y & Hy & HPy). exists y. split; [now right|auto].
    + intros s2 Hc. simpl. rewrite (H1 s2 Hc). cbn [bind].
      rewrite H2.
      * rewrite after_after, apply_writes_app. reflexivity.
      * eapply config_eq_trans; [apply config_eq_sym, config_eq_after|].
        eapply config_eq_trans; [exact Hc|apply config_eq_after].
Qed.

Lemma tokens_loop_uniform account s s' :
  tokens_loop fl net account s = Ok s' ->
  exists ws dis evs,
    (forall w, In w ws -> snd (fst w) = account)
    /\ forall s2, config_eq s s2 ->
         tokens_loop fl net account s2
         = Ok (after dis evs (apply_writes ws (_accounts s2)) s2).
Proof.
  intros H. unfold tokens_loop in H.
  destruct (tokens (settings s)) as [ts|] eqn:Hts; [|discriminate].
  destruct (for_each_uniform (token_step fl net account)
              (fun _ w => snd (fst w) = account)) with (l := ts) (s := s) (s' := s')
    as (ws & dis & evs & HP & Hu); [|exact H|].
  - intros tok s0 s0' Hstep.
    destruct (token_step_uniform fl net stationary _ _ _ _ Hstep)
      as (v & d & e & Hv).
    exists [(short tok, account, v)], d, e. split.
    + intros w [<-|[]]. reflexivity.
    + exact Hv.
  - exists ws, dis, evs. split.
    + intros w Hw. destruct (HP w Hw) as (_ & _ & Hacc). exact Hacc.
    + intros s2 Hc. unfold tokens_loop.
      destruct Hc as (Hk & Hu' & Ha & Ht). rewrite Ht, Hts.
      apply Hu. repeat split; assumption.
Qed.

Lemma retrieve_tokens_uniform s s' :
  retrieve_tokens fl net s = Ok s' ->
  exists ws dis evs,
    (forall w, In w ws -> In (snd (fst w)) (eth_keys (_accounts s)))
    /\ forall s2, config_eq s s2 ->
         eth_keys (_accounts s2) = eth_keys (_accounts s) ->
         retrieve_tokens fl net s2
         = Ok (after dis evs
                 (apply_writes ws (ensure_table "ETH" (_accounts s2))) s2).
Proof.
  intros H. unfold retrieve_tokens in H.
  assert (Hkeys : forall s0,
            exists eth, dict_get "ETH" (_accounts (ensure_symbol "ETH" s0))
                        = Some eth
                        /\ dict_keys eth = eth_keys (_accounts s0)).
  { intros s0. pose proof (ensure_symbol_present "ETH" s0) as Hp.
    destruct (dict_get "ETH" (_accounts (ensure_symbol "ETH" s0)))
      as [eth|] eqn:E; [|congruence].
    exists eth. split; [reflexivity|].
    rewrite <- eth_keys_ensure_table. rewrite ensure_symbol_table in E.
    unfold eth_keys. cbn [_accounts set_accounts] in E. now rewrite E. }
  destruct (Hkeys s) as (eth & He & Hk). rewrite He in H.
  destruct (for_each_uniform (tokens_loop fl net)
              (fun account w => snd (fst w) = account))
    with (l := dict_keys eth) (s := ensure_symbol "ETH" s) (s' := s')
    as (ws & dis & evs & HP & Hu); [|exact H|].
  - intros account s0 s0'. apply tokens_loop_uniform.
  - exists ws, dis, evs. split.
    + intros w Hw. destruct (HP w Hw) as (a & Ha & Hacc).
      rewrite Hacc, <- Hk. exact Ha.
    + intros s2 Hc Heq. unfold retrieve_tokens.
      destruct (Hkeys s2) as (eth2 & He2 & Hk2). rewrite He2.
      replace (dict_keys eth2) with (dict_keys eth) by congruence.
      rewrite Hu.
      * rewrite after_ensure. rewrite ensure_symbol_table. reflexivity.
      * eapply config_eq_trans; [apply config_eq_sym, config_eq_ensure|].
        eapply config_eq_trans; [exact Hc|apply config_eq_ensure].
Qed.

Lemma native_step_uniform e s s' :
  native_step fl e s = Ok s' ->
  exists account v,
    forall s2, dict_get "ETH" (_accounts s2) <> None ->
      native_step fl e s2
      = Ok (set_accounts (tset "ETH" account v (_accounts s2)) s2).
Proof.
  intros H. unfold native_step in *.
  destruct (py_getitem e "account") as [k| |]; cbn [bind] in *; try discriminate.
  destruct (py_getitem e "balance") as [b| |]; cbn [bind] in *; try discriminate.
  destruct (py_float fl b) as [x| |]; cbn [bind] in *; try discriminate.
  destruct (py_key k) as [account| |]; cbn [bind] in *; try discriminate.
  do 2 eexists. intros s2 Hp.
  destruct (dict_get "ETH" (_accounts s2)) as [inner|] eqn:E; [|congruence].
  now apply store_present with (inner := inner).
Qed.

Lemma native_loop_uniform l s s' :
  for_each (native_step fl) l s = Ok s' ->
  exists ws,
    length ws = length l
    /\ (forall w, In w ws -> fst (fst w) = "ETH")
    /\ forall s2, dict_get "ETH" (_accounts s2) <> None ->
         for_each (native_step fl) l s2
         = Ok (set_accounts (apply_writes ws (_accounts s2)) s2).
Proof.
  revert s. induction l as [|e l IH]; intros s H; simpl in H.
  - exists []. repeat split; [contradiction|].
    intros s2 _. simpl. now destruct s2.
  - destruct (native_step fl e s) as [s1| |] eqn:He; cbn [bind] in H;
      try discriminate.
    destruct (native_step_uniform _ _ _ He) as (account & v & H1).
    destruct (IH _ H) as (ws & Hlen & HP & H2).
    exists ((("ETH", account), v) :: ws). repeat split.
    + simpl. now rewrite Hlen.
    + intros w [<-|Hw]; [reflexivity|auto].
    + intros s2 Hp. simpl. rewrite (H1 s2 Hp). cbn [bind].
      rewrite H2; [reflexivity|].
      cbn [_accounts set_accounts]. now apply dict_get_tset_present.
Qed.

Lemma py_iter_truthy d l : truthy d = true -> py_iter d = Ok l -> l <> [].
Proof.
  destruct d as [| | | |s|l0|kv]; try discriminate; simpl.
  - destruct s; [discriminate|]. intros _ H. inversion H. discriminate.
  - destruct l0; [discriminate|]. intros _ H. inversion H. discriminate.
  - destruct kv; [discriminate|]. intros _ H. inversion H. discriminate.
Qed.

Lemma store_native_uniform d s s' :
  store_native fl d s = Ok s' ->
  exists ws,
    (forall w, In w ws -> fst (fst w) = "ETH")
    /\ forall s2,
         store_native fl d s2
         = Ok (set_accounts (apply_writes ws (_accounts s2)) s2).
Proof.
  intros H. unfold store_native in *.
  destruct (truthy d) eqn:Ht.
  - destruct (py_iter d) as [l| |] eqn:Hi; cbn [bind] in *; try discriminate.
    destruct (native_loop_uniform _ _ _ H) as (ws & Hlen & HP & Hu).
    exists ws. split; [exact HP|]. intros s2.
    rewrite Hu by apply ensure_symbol_present.
    rewrite ensure_symbol_table. cbn [_accounts set_accounts].
    assert (Htab : apply_writes ws (ensure_table "ETH" (_accounts s2))
                   = apply_writes ws (_accounts s2)).
    { pose proof (py_iter_truthy d l Ht Hi) as Hne.
      destruct ws as [|[[s1 a1] v1] ws].
      - destruct l; [congruence|discriminate].
      - rewrite !apply_writes_cons.
        assert (s1 = "ETH") by (apply (HP (s1, a1, v1)); now left). subst s1.
        now rewrite tset_ensure_table. }
    rewrite Htab. reflexivity.
  - exists []. split; [contradiction|]. intros s2. now destruct s2.
Qed.

Lemma retrieve_native_uniform s s' :
  retrieve_native fl net s = Ok s' ->
  exists ws dis evs,
    (forall w, In w ws -> fst (fst w) = "ETH")
    /\ forall s2, config_eq s s2 ->
         retrieve_native fl net s2
         = Ok (after dis evs (apply_writes ws (_accounts s2)) s2).
Proof.
  intros H. unfold retrieve_native in H.
  destruct (__load_retry _ _ _ _) as [[d s1]| |] eqn:Hl; cbn [bind fst snd] in H;
    try discriminate.
  destruct (load_retry_uniform net stationary _ _ _ _ _ Hl) as (dis & evs & Hu).
  destruct (store_native_uniform _ _ _ H) as (ws & HP & Hst).
  exists ws, dis, evs. split; [exact HP|]. intros s2 Hc.
  unfold retrieve_native.
  replace (native_request_data s2) with (native_request_data s).
  - rewrite (Hu s2 Hc). cbn [bind fst snd]. rewrite Hst. reflexivity.
  - destruct Hc as (_ & _ & Ha & _).
    unfold native_request_data, addresses_value. now rewrite Ha.
Qed.

End Refresh.

(** ** Refreshing twice *)

Lemma refreshed_as_writes wn wt t :
  (forall w, In w wn -> fst (fst w) = "ETH") ->
  refreshed wn wt t = apply_writes (wn ++ wt) (ensure_table "ETH" t).
Proof.
  intros Hn. unfold refreshed.
  now rewrite ensure_table_apply_writes, apply_writes_app.
Qed.

Lemma refreshed_twice wn wt t :
  (forall w, In w wn -> fst (fst w) = "ETH") ->
  refreshed wn wt (refreshed wn wt t) = refreshed wn wt t.
Proof.
  intros Hn. rewrite !(refreshed_as_writes wn wt) by exact Hn.
  rewrite (ensure_table_present "ETH" (apply_writes _ _)).
  - apply apply_writes_twice.
  - apply dict_get_apply_writes_present, dict_get_ensure_table.
Qed.

Lemma refreshed_keys wn wt t :
  (forall w, In w wn -> fst (fst w) = "ETH") ->
  (forall w, In w wt -> In (snd (fst w)) (eth_keys (apply_writes wn t))) ->
  eth_keys (apply_writes wn (refreshed wn wt t)) = eth_keys (apply_writes wn t).
Proof.
  intros Hn Ht.
  assert (H1 : eth_keys (refreshed wn wt t) = eth_keys (apply_writes wn t)).
  { unfold refreshed. rewrite eth_keys_apply_writes.
    - apply eth_keys_ensure_table.
    - intros w Hw _. rewrite eth_keys_ensure_table. now apply Ht. }
  rewrite eth_keys_apply_writes; [exact H1|].
  intros w Hw Hs. rewrite H1. now apply written_in_eth_keys.
Qed.

Lemma tokens_configured_config s s2 :
  config_eq s s2 -> tokens_configured s2 = tokens_configured s.
Proof. intros (_ & _ & _ & Ht). unfold tokens_configured. now rewrite Ht. Qed.

(** When the server answers a request the same way whenever it is asked, a
    call that follows a call that returned returns the same table. *)
Lemma refresh_twice fl net s t1 s1 :
  (forall h h' r, net h r = net h' r) ->
  retrieve_accounts fl net s = Ok (t1, s1) ->
  exists s2, retrieve_accounts fl net s1 = Ok (t1, s2).
Proof.
  intros stationary H. unfold retrieve_accounts in H.
  destruct (enable_authentication (settings s)) eqn:Hflag.
  2:{ inversion H; subst. exists s1. now apply retrieve_accounts_disabled. }
  destruct (retrieve_native fl net s) as [sa| |] eqn:Hn; cbn [bind] in H;
    try discriminate.
  destruct (retrieve_native_uniform fl net stationary _ _ Hn)
    as (wn & d1 & e1 & HPn & Hun).
  pose proof (Hun s (config_eq_refl s)) as Hsa. rewrite Hn in Hsa.
  inversion Hsa; subst sa. clear Hsa.
  set (sa := after d1 e1 (apply_writes wn (_accounts s)) s) in *.
  assert (Hca : config_eq s sa) by apply config_eq_after.
  destruct (tokens_configured sa) eqn:Htok.
  - destruct (retrieve_tokens fl net sa) as [sb| |] eqn:Ht; cbn [bind] in H;
      try discriminate.
    inversion H; subst t1 s1. clear H.
    destruct (retrieve_tokens_uniform fl net stationary _ _ Ht)
      as (wt & d2 & e2 & HPt & Hut).
    pose proof (Hut sa (config_eq_refl sa) eq_refl) as Hsb. rewrite Ht in Hsb.
    inversion Hsb; subst sb. clear Hsb.
    set (t1 := refreshed wn wt (_accounts s)).
    set (sb := after d2 e2 t1 sa) in *.
    destruct (enable_authentication (settings sb)) eqn:Hflag2.
    2:{ exists sb. now apply retrieve_accounts_disabled. }
    assert (Hcb : config_eq s sb).
    { eapply config_eq_trans; [exact Hca|apply config_eq_after]. }
    set (sa2 := after d1 e1 (apply_writes wn t1) sb).
    assert (Hca2 : config_eq sa sa2).
    { eapply config_eq_trans; [apply config_eq_sym, Hca|].
      eapply config_eq_trans; [exact Hcb|apply config_eq_after]. }
    exists (after d2 e2 (apply_writes wt (ensure_table "ETH" (_accounts sa2))) sa2).
    change (retrieve_accounts fl net sb
            = Ok (t1, after d2 e2
                        (apply_writes wt (ensure_table "ETH" (_accounts sa2)))
                        sa2)).
    unfold retrieve_accounts. rewrite Hflag2, (Hun sb Hcb). cbn [bind].
    change (after d1 e1 (apply_writes wn (_accounts sb)) sb) with sa2.
    rewrite (tokens_configured_config sa sa2 Hca2), Htok.
    rewrite (Hut sa2 Hca2).
    + cbn [bind]. f_equal. f_equal.
      change (refreshed wn wt t1 = t1). unfold t1.
      now apply refreshed_twice.
    + change (eth_keys (apply_writes wn t1)
              = eth_keys (apply_writes wn (_accounts s))).
      unfold t1. apply refreshed_keys; [exact HPn|exact HPt].
  - cbn [bind] in H. inversion H; subst t1 s1. clear H.
    destruct (enable_authentication (settings sa)) eqn:Hflag2.
    2:{ exists sa. now apply retrieve_accounts_disabled. }
    set (sa2 := after d1 e1 (apply_writes wn (_accounts sa)) sa).
    exists sa2. unfold retrieve_accounts. rewrite Hflag2, (Hun sa Hca).
    cbn [bind]. fold sa2.
    rewrite (tokens_configured_config sa sa2 (config_eq_after _ _ _ _)), Htok.
    cbn [bind].
    assert (Htab : _accounts sa2 = apply_writes wn (_accounts s)).
    { change (apply_writes wn (apply_writes wn (_accounts s))
              = apply_writes wn (_accounts s)).
      apply apply_writes_twice. }
    now rewrite Htab.
Qed.

(** ** A server that always succeeds *)

Section Success.

Variable fl : Q -> Q.
Variable net : list event -> request -> attempt.
Variable entries : list (string * Z).
Hypothesis succeeds : success_server net entries.

Lemma action_of_request s rd :
  dict_get "action" (req_params (request_for s (dict_update rd (api_fields s))))
  = dict_get "action" rd.
Proof.
  unfold request_for, dict_update, api_fields. simpl.
  now rewrite !dict_get_set_neq by discriminate.
Qed.

Lemma load_retry_is_success rd s doc res :
  net (trace s) (request_for s (dict_update rd (api_fields s))) = Response doc ->
  is_success doc res ->
  exists s', __load_retry net rd 5 s = Ok (res, s').
Proof.
  intros Hnet (kv & m & -> & Hm & Hnotok & Hok & <- & Ht).
  eexists. apply load_retry_success with (m := m); auto. lia.
Qed.

Lemma retrieve_native_total s :
  exists s', retrieve_native fl net s = Ok s'
             /\ tokens (settings s') = tokens (settings s).
Proof.
  destruct succeeds as (Hnat & _).
  destruct (Hnat (trace s)
              (request_for s (dict_update (native_request_data s) (api_fields s))))
    as (doc & l & Hnet & Hsucc & Hent).
  { now rewrite action_of_request. }
  destruct (load_retry_is_success _ _ _ _ Hnet Hsucc) as (s1 & Hload).
  assert (Htruthy : truthy (PyList l) = true)
    by (destruct Hsucc as (? & ? & _ & _ & _ & _ & _ & Ht); exact Ht).
  unfold retrieve_native. rewrite Hload. cbn [bind fst snd].
  unfold store_native. rewrite Htruthy. cbn [py_iter bind].
  rewrite (native_loop fl l entries _ Hent) by apply ensure_symbol_present.
  eexists. split; [reflexivity|].
  apply reaches_load_retry in Hload. destruct Hload as (_ & _ & _ & Htok & _).
  cbn [settings set_accounts]. rewrite <- Htok.
  unfold ensure_symbol. now destruct (missing_or_empty _ _).
Qed.

Lemma parse_int_not_empty digits z :
  parse_int digits = Some z -> truthy (PyStr digits) = true.
Proof. destruct digits; [discriminate|reflexivity]. Qed.

Lemma balance_of_data_total d token z :
  truthy d = true -> py_int d = Ok z ->
  exists b, balance_of_data fl d token = Ok b.
Proof.
  intros Ht Hi. unfold balance_of_data. rewrite Ht, Hi. cbn [bind].
  destruct (z >? 0); eauto.
Qed.

Lemma token_step_total account token s :
  exists s', token_step fl net account token s = Ok s'.
Proof.
  destruct succeeds as (_ & Htok).
  set (s0 := ensure_symbol (short token) s).
  destruct (Htok (trace s0)
              (request_for s0
                 (dict_update (token_request_data account token)
                    (api_fields s0))))
    as (doc & digits & z & Hnet & Hsucc & Hparse).
  { now rewrite action_of_request. }
  destruct (load_retry_is_success _ _ _ _ Hnet Hsucc) as (s1 & Hload).
  destruct (balance_of_data_total (PyStr digits) token z) as (b & Hb).
  { now apply parse_int_not_empty with (z := z). }
  { simpl. now rewrite Hparse. }
  eexists. apply token_step_value with (v := b) (s1 := s1).
  unfold _get_token_balance_on_account. fold s0. rewrite Hload.
  cbn [bind fst snd]. now rewrite Hb.
Qed.

Lemma for_each_total {A : Type} (body : A -> state -> result state)
    (inv : state -> Prop) :
  (forall x s, inv s -> exists s', body x s = Ok s' /\ inv s') ->
  forall l s, inv s -> exists s', for_each body l s = Ok s' /\ inv s'.
Proof.
  intros Hbody. induction l as [|x l IH]; intros s Hs; simpl.
  - eauto.
  - destruct (Hbody x s Hs) as (s1 & H1 & Hinv1). rewrite H1. cbn [bind].
    now apply IH.
Qed.

Lemma tokens_loop_total account ts s :
  tokens (settings s) = Some ts ->
  exists s', tokens_loop fl net account s = Ok s'
             /\ tokens (settings s') = Some ts.
Proof.
  intros Hts.
  destruct (for_each_total (token_step fl net account) (fun _ => True))
    with (l := ts) (s := s) as (s' & Hs' & _); auto.
  - intros x s0 _. destruct (token_step_total account x s0) as (s1 & H1). eauto.
  - exists s'. unfold tokens_loop. rewrite Hts. split; [exact Hs'|].
    assert (Hl : tokens_loop fl net account s = Ok s')
      by (unfold tokens_loop; now rewrite Hts).
    apply reaches_tokens_loop in Hl. destruct Hl as (_ & _ & _ & Ht & _).
    congruence.
Qed.

Lemma retrieve_tokens_total ts s :
  tokens (settings s) = Some ts ->
  exists s', retrieve_tokens fl net s = Ok s'.
Proof.
  intros Hts. unfold retrieve_tokens.
  pose proof (ensure_symbol_present "ETH" s) as Hp.
  destruct (dict_get "ETH" (_accounts (ensure_symbol "ETH" s))) as [eth|];
    [|congruence].
  destruct (for_each_total (tokens_loop fl net)
              (fun s0 => tokens (settings s0) = Some ts))
    with (l := dict_keys eth) (s := ensure_symbol "ETH" s) as (s' & Hs' & _).
  - intros a s0 Hs0. now apply tokens_loop_total.
  - unfold ensure_symbol. now destruct (missing_or_empty _ _).
  - eauto.
Qed.

(** Against such a server [retrieve_accounts] returns. *)
Lemma retrieve_accounts_total s :
  exists t1 s1, retrieve_accounts fl net s = Ok (t1, s1).
Proof.
  unfold retrieve_accounts.
  destruct (enable_authentication (settings s)); [|eauto].
  destruct (retrieve_native_total s) as (sa & Hn & Htok). rewrite Hn.
  cbn [bind]. unfold tokens_configured.
  destruct (tokens (settings sa)) as [[|tok ts]|] eqn:Hts; cbn [bind]; eauto.
  destruct (retrieve_tokens_total (tok :: ts) sa Hts) as (sb & Hb).
  rewrite Hb. cbn [bind]. eauto.
Qed.

End Success.

(** C9: let the server answer a request the same way whenever it is asked.
    If a call of [retrieve_accounts] returns the table [t1], the next call
    returns as well, and it returns [t1].  If moreover every answer is a
    success, with a list of entries for [balancemulti] and an amount for
    [tokenbalance], the first call does return, so two calls in succession
    end with identical tables. *)
Theorem refresh_idempotent fl net s :
  (forall h h' r, net h r = net h' r) ->
  (forall t1 s1,
     retrieve_accounts fl net s = Ok (t1, s1) ->
     exists s2, retrieve_accounts fl net s1 = Ok (t1, s2))
  /\ (forall entries,
        success_server net entries ->
        exists t1 s1 s2,
          retrieve_accounts fl net s = Ok (t1, s1)
          /\ retrieve_accounts fl net s1 = Ok (t1, s2)).
Proof.
  intros stationary. split.
  - intros t1 s1. now apply refresh_twice.
  - intros entries Hsucc.
    destruct (retrieve_accounts_total fl net entries Hsucc s) as (t1 & s1 & H1).
    destruct (refresh_twice fl net s t1 s1 stationary H1) as (s2 & H2).
    exists t1, s1, s2. split; assumption.
Qed.

Lemma refresh_idempotent_witness :
  (forall h h' r, demo_server h r = demo_server h' r)
  /\ success_server demo_server [("0xA", 2000000000000000000); ("0xB", 0)]
  /\ exists t1 s1 s2,
       retrieve_accounts exact demo_server demo_state = Ok (t1, s1)
       /\ retrieve_accounts exact demo_server s1 = Ok (t1, s2).
Proof.
  assert (Hst : forall h h' r, demo_server h r = demo_server h' r)
    by reflexivity.
  assert (Hsucc : success_server demo_server
                    [("0xA", 2000000000000000000); ("0xB", 0)]).
  { split.
    - intros h r Ha. do 2 eexists. unfold demo_server. rewrite Ha.
      split; [reflexivity|]. split.
      + do 2 eexists. repeat split; reflexivity.
      + repeat constructor; eexists; repeat split; reflexivity.
    - intros h r Ha. exists (ok_document (PyStr "5000000")), "5000000", 5000000.
      unfold demo_server. rewrite Ha.
      split; [reflexivity|]. split; [|reflexivity].
      do 2 eexists. repeat split; reflexivity. }
  split; [exact Hst|]. split; [exact Hsucc|].
  exact (proj2 (refresh_idempotent exact demo_server demo_state Hst) _ Hsucc).
Defined.

(** ** The budget of the client *)

Section Budget.

Variable net : list event -> request -> attempt.

(** X1: with a budget of zero or less [__load_retry] makes no request and
    returns [None]; the state is untouched. *)
Theorem load_retry_without_budget rd retries s :
  retries <= 0 -> __load_retry net rd retries s = Ok (PyNone, s).
Proof.
  intros Hr. unfold __load_retry.
  replace (Z.to_nat retries) with 0%nat by lia.
  cbn [while_retry retry].
  rewrite iteration_over_budget by (cbn [data count]; auto; lia).
  cbn [bind fst snd]. reflexivity.
Qed.

(** X2: an attempt that raises a connection error or a read timeout costs
    one unit of the budget: after the request and the pause of one second,
    the call goes on as a call with [retries - 1] for the parameters as they
    were sent. *)
Theorem load_retry_after_transport_failure rd retries s e :
  let req := request_for s (dict_update rd (api_fields s)) in
  1 <= retries ->
  net (trace s) req = Failed e ->
  __load_retry net rd retries s
  = __load_retry net (dict_update rd (api_fields s)) (retries - 1)
      (emit [Get req (Failed e); Sleep 1] s).
Proof.
  intros req Hr Hnet. apply load_retry_next_round; [exact Hr|].
  unfold iteration, try_block. cbn [count request_data data retry].
  change (0 + 1) with 1.
  destruct (Z.gtb_spec 1 retries); [lia|].
  fold req. rewrite Hnet. reflexivity.
Qed.

(** X3: an answer whose message contains ["NOTOK"] and whose result is not
    ["Invalid API Key"] is dropped and costs one unit of the budget: after
    the request and the pause of one second, the call goes on as a call with
    [retries - 1]. *)
Theorem load_retry_after_notok rd retries s kv :
  let req := request_for s (dict_update rd (api_fields s)) in
  1 <= retries ->
  net (trace s) req = Response (PyDict kv) ->
  py_in "NOTOK" (field "message" kv) = Ok true ->
  py_eq_str (field "result" kv) "Invalid API Key" = false ->
  __load_retry net rd retries s
  = __load_retry net (dict_update rd (api_fields s)) (retries - 1)
      (emit [Get req (Response (PyDict kv)); Sleep 1] s).
Proof.
  intros req Hr Hnet Hin Hres. apply load_retry_next_round; [exact Hr|].
  assert (Hne : truthy (PyDict kv) = true).
  { destruct kv; [discriminate|reflexivity]. }
  unfold iteration, try_block. cbn [count request_data data retry].
  change (0 + 1) with 1.
  destruct (Z.gtb_spec 1 retries); [lia|].
  fold req. rewrite Hnet.
  unfold notok_block. cbn [data]. rewrite Hne.
  unfold py_get. cbn [bind]. rewrite Hin. cbn [bind]. rewrite Hres.
  cbn [bind fst snd]. unfold ok_block. cbn [data truthy bind].
  rewrite emit_emit. reflexivity.
Qed.

Lemma py_eq_str_true v str : py_eq_str v str = true -> v = PyStr str.
Proof.
  destruct v; try discriminate. simpl. intros H.
  apply String.eqb_eq in H. now subst.
Qed.

(** X4: an answer whose message contains ["NOTOK"] and whose result is
    ["Invalid API Key"] ends the call at once, whatever is left of the
    budget: one request, the report of the rejected key, one pause of one
    second; the flag is cleared and [None] is returned. *)
Theorem load_retry_invalid_key rd retries s doc :
  let req := request_for s (dict_update rd (api_fields s)) in
  1 <= retries ->
  net (trace s) req = Response doc ->
  invalid_api_key_answer doc = true ->
  __load_retry net rd retries s
  = Ok (PyNone,
        act true [Get req (Response doc);
                  AuthenticationError (PyStr "Invalid API Key");
                  Sleep 1] s).
Proof.
  intros req Hr Hnet Hdoc.
  rewrite (load_retry_first_answer net rd retries s doc Hr Hnet).
  pose proof (invalid_api_key_answer_truthy doc Hdoc) as Hne.
  destruct doc as [| | | | | |kv]; try discriminate.
  unfold invalid_api_key_answer in Hdoc.
  destruct (py_in "NOTOK" (field "message" kv)) as [[|]| |] eqn:Hin;
    try discriminate.
  unfold notok_block. cbn [data]. rewrite Hne.
  unfold py_get. cbn [bind]. rewrite Hin. cbn [bind]. rewrite Hdoc.
  cbn [bind fst snd]. unfold ok_block. cbn [data truthy bind].
  rewrite while_retry_done by reflexivity. cbn [bind fst snd data].
  rewrite (py_eq_str_true _ _ Hdoc).
  unfold authentication_error_handler.
  fold req. rewrite !emit_act, disable_act, !act_act. reflexivity.
Qed.

End Budget.

Lemma load_retry_without_budget_witness :
  __load_retry demo_server [] 0 demo_state = Ok (PyNone, demo_state).
Proof. apply load_retry_without_budget. lia. Defined.

Lemma load_retry_after_transport_failure_witness :
  __load_retry unreachable [] 5 demo_state
  = __load_retry unreachable (dict_update [] (api_fields demo_state)) (5 - 1)
      (emit [Get (request_for demo_state
                    (dict_update [] (api_fields demo_state)))
               (Failed ConnectionError); Sleep 1] demo_state).
Proof.
  apply (load_retry_after_transport_failure unreachable [] 5 demo_state
           ConnectionError); [lia|reflexivity].
Defined.

Lemma load_retry_after_notok_witness :
  __load_retry rate_limit_server [] 5 demo_state
  = __load_retry rate_limit_server (dict_update [] (api_fields demo_state))
      (5 - 1)
      (emit [Get (request_for demo_state
                    (dict_update [] (api_fields demo_state)))
               (Response rate_limit_document); Sleep 1] demo_state).
Proof.
  apply (load_retry_after_notok rate_limit_server [] 5 demo_state
           [("status", PyStr "0"); ("message", PyStr "NOTOK");
            ("result", PyStr "Max rate limit reached")]);
    [lia|reflexivity..].
Defined.

Lemma load_retry_invalid_key_witness :
  __load_retry invalid_key_server [] 5 demo_state
  = Ok (PyNone,
        act true [Get (request_for demo_state
                         (dict_update [] (api_fields demo_state)))
                    (Response invalid_key_document);
                  AuthenticationError (PyStr "Invalid API Key");
                  Sleep 1] demo_state).
Proof.
  apply (load_retry_invalid_key invalid_key_server [] 5 demo_state
           invalid_key_document); [lia|reflexivity..].
Defined.

(** ** What one call of the client causes *)

Lemma requests_made_app e1 e2 :
  requests_made (e1 ++ e2) = (requests_made e1 + requests_made e2)%nat.
Proof. unfold requests_made. now rewrite filter_app, length_app. Qed.

Lemma seconds_slept_app e1 e2 :
  seconds_slept (e1 ++ e2) = seconds_slept e1 + seconds_slept e2.
Proof.
  unfold seconds_slept. induction e1 as [|ev e1 IH]; simpl; [reflexivity|].
  rewrite IH. destruct ev; lia.
Qed.

(** The request for merged parameters carries the three fixed fields. *)
Lemma request_for_sent_by s rd a :
  sent_by s (Get (request_for s (dict_update rd (api_fields s))) a).
Proof.
  unfold sent_by, request_for, dict_update, api_fields. simpl.
  repeat split.
  - rewrite !dict_get_set_neq by discriminate. apply dict_get_set_eq.
  - rewrite dict_get_set_neq by discriminate. apply dict_get_set_eq.
  - apply dict_get_set_eq.
Qed.

Lemma sent_for_sent_by s rd ev :
  sent_for (request_for s (dict_update rd (api_fields s))) ev -> sent_by s ev.
Proof.
  destruct ev as [r a| |]; simpl; auto.
  intros ->. exact (request_for_sent_by s rd a).
Qed.

Lemma sent_by_config s s2 ev : config_eq s s2 -> sent_by s ev -> sent_by s2 ev.
Proof.
  intros (Hk & Hu & _). destruct ev; simpl; auto.
  now rewrite Hk, Hu.
Qed.

Section Caused.

Variable net : list event -> request -> attempt.

Lemma caused_nothing req n s : caused req n s s.
Proof.
  exists []. rewrite act_id. split; [reflexivity|]. split; [constructor|].
  unfold requests_made. simpl. lia.
Qed.

Lemma caused_trans req n1 n2 s1 s2 s3 :
  caused req n1 s1 s2 -> caused req n2 s2 s3 -> caused req (n1 + n2) s1 s3.
Proof.
  intros (e1 & -> & Hs1 & Hr1 & Hz1) (e2 & -> & Hs2 & Hr2 & Hz2).
  exists (e1 ++ e2)%list. rewrite act_act, auth_observed_app.
  split; [reflexivity|]. split; [|split].
  - apply Forall_app. now split.
  - rewrite requests_made_app. lia.
  - rewrite seconds_slept_app, requests_made_app. lia.
Qed.

Lemma caused_weaken req n m s s' :
  (n <= m)%nat -> caused req n s s' -> caused req m s s'.
Proof.
  intros Hle (evs & Hs & Hf & Hr & Hz). exists evs. repeat split; auto; lia.
Qed.

Lemma notok_block_request_data l s l' s' :
  notok_block l s = Ok (l', s') -> request_data l' = request_data l.
Proof.
  unfold notok_block.
  destruct (truthy (data l)); [|now inversion 1].
  destruct (py_get (data l) "message") as [msg| |]; simpl; try discriminate.
  destruct (py_in "NOTOK" msg) as [[|]| |]; simpl; try discriminate;
    [|now inversion 1].
  destruct (py_get (data l) "result") as [res| |]; simpl; try discriminate.
  destruct (py_eq_str res "Invalid API Key"); now inversion 1.
Qed.

Lemma ok_block_request_data l l' :
  ok_block l = Ok l' -> request_data l' = request_data l.
Proof.
  unfold ok_block.
  destruct (truthy (data l)); [|now inversion 1].
  destruct (py_get (data l) "message") as [msg| |]; simpl; try discriminate.
  destruct (if py_eq_str msg "OK" then Ok true else py_in "OK-" msg)
    as [[|]| |]; simpl; try discriminate; [|now inversion 1].
  destruct (py_get (data l) "result") as [res| |]; simpl; try discriminate.
  destruct (truthy res); now inversion 1.
Qed.

(** [request_data.update] is done in place, on the dictionary of the caller:
    from the second attempt on the parameters hold the three fields already,
    and merging them again gives the same request. *)
Lemma iteration_request_data retries l s l' s' :
  iteration net retries l s = Ok (l', s') ->
  dict_update (request_data l') (api_fields s)
  = dict_update (request_data l) (api_fields s).
Proof.
  unfold iteration. intros H.
  assert (Ht : dict_update (request_data (fst (try_block net retries l s)))
                 (api_fields s)
               = dict_update (request_data l) (api_fields s)).
  { unfold try_block. destruct (count l + 1 >? retries); [reflexivity|].
    destruct (net _ _); cbn [fst request_data]; apply api_fields_twice. }
  destruct (try_block net retries l s) as [l1 s1]. cbn [fst] in Ht.
  destruct (notok_block l1 s1) as [[l2 s2]| |] eqn:E2; cbn [bind fst snd] in H;
    try discriminate.
  destruct (ok_block l2) as [l3| |] eqn:E3; cbn [bind] in H; try discriminate.
  inversion H; subst.
  apply notok_block_request_data in E2. apply ok_block_request_data in E3.
  now rewrite E3, E2.
Qed.

Lemma iteration_caused retries l s l' s' :
  iteration net retries l s = Ok (l', s') ->
  data l = PyNone ->
  caused (request_for s (dict_update (request_data l) (api_fields s)))
    (if count l + 1 >? retries then 0 else 1) s s'.
Proof.
  unfold iteration, try_block. intros H Hd.
  destruct (count l + 1 >? retries).
  - unfold notok_block, ok_block in H. simpl in H. rewrite Hd in H. simpl in H.
    inversion H; subst. apply caused_nothing.
  - set (req := request_for s (dict_update (request_data l) (api_fields s))) in *.
    destruct (net (trace s) req) as [e|doc] eqn:Hnet.
    + unfold notok_block, ok_block in H. simpl in H. rewrite Hd in H.
      simpl in H. inversion H; subst.
      exists [Get req (Failed e); Sleep 1]. rewrite emit_act.
      split; [reflexivity|].
      split; [sent_events|split; unfold requests_made; simpl; lia].
    + unfold notok_block in H. cbn [data] in H.
      destruct (truthy doc) eqn:Ht.
      * destruct doc as [| | | | | |kv]; try discriminate.
        unfold py_get in H. cbn [bind] in H.
        destruct (py_in "NOTOK" (field "message" kv)) as [[|]| |] eqn:Hin;
          cbn [bind] in H; try discriminate.
        -- destruct (py_eq_str (field "result" kv) "Invalid API Key") eqn:Hres;
             cbn [bind fst snd] in H;
             destruct (ok_block _) as [l3| |]; cbn [bind] in H;
             try discriminate; inversion H; subst.
           ++ exists [Get req (Response (PyDict kv));
                      AuthenticationError (PyStr "Invalid API Key"); Sleep 1].
              split.
              ** unfold authentication_error_handler.
                 rewrite (py_eq_str_true _ _ Hres).
                 rewrite !emit_act, disable_act, !act_act.
                 simpl. rewrite Hin, Hres. reflexivity.
              ** split; [sent_events|split; unfold requests_made; simpl; lia].
           ++ exists [Get req (Response (PyDict kv)); Sleep 1]. split.
              ** rewrite !emit_act, !act_act. simpl. rewrite Hin, Hres.
                 reflexivity.
              ** split; [sent_events|split; unfold requests_made; simpl; lia].
        -- cbn [fst snd] in H.
           destruct (ok_block _) as [l3| |]; cbn [bind] in H;
             try discriminate; inversion H; subst.
           exists [Get req (Response (PyDict kv))]. split.
           ++ rewrite emit_act. simpl. rewrite Hin. reflexivity.
           ++ split; [sent_events|split; unfold requests_made; simpl; lia].
      * cbn [bind fst snd] in H.
        destruct (ok_block _) as [l3| |]; cbn [bind] in H;
          try discriminate; inversion H; subst.
        exists [Get req (Response doc)]. split.
        -- rewrite emit_act. simpl.
           destruct (invalid_api_key_answer doc) eqn:Hinv; [|reflexivity].
           apply invalid_api_key_answer_truthy in Hinv. congruence.
        -- split; [sent_events|split; unfold requests_made; simpl; lia].
Qed.

Lemma while_retry_caused retries fuel l s l' s' :
  while_retry net fuel retries l s = Ok (l', s') ->
  (retry l = true -> data l = PyNone) ->
  caused (request_for s (dict_update (request_data l) (api_fields s)))
    (Z.to_nat (retries - count l)) s s'.
Proof.
  revert l s. induction fuel as [|fuel IH]; intros l s H Hinv; simpl in H.
  - destruct (retry l); [discriminate|]. inversion H; subst.
    apply caused_nothing.
  - destruct (retry l) eqn:Hr.
    + specialize (Hinv eq_refl).
      destruct (iteration net retries l s) as [[l1 s1]| |] eqn:Hit;
        cbn [bind fst snd] in H; try discriminate.
      pose proof (iteration_caused _ _ _ _ _ Hit Hinv) as H1.
      pose proof (iteration_count _ _ _ _ _ _ Hit) as Hc.
      pose proof (iteration_request_data _ _ _ _ _ Hit) as Hrd.
      apply IH in H.
      * eapply caused_weaken; [|eapply caused_trans; [exact H1|]].
        2:{ destruct H1 as (e1 & -> & _).
            unfold request_for, api_fields in *. cbn [act settings url api_key] in *.
            rewrite Hrd in H. exact H. }
        rewrite Hc. destruct (Z.gtb_spec (count l + 1) retries); lia.
      * intros Hr1. eapply iteration_invariant; eauto.
    + inversion H; subst. apply caused_nothing.
Qed.

Lemma load_retry_caused rd retries s d s' :
  __load_retry net rd retries s = Ok (d, s') ->
  caused (request_for s (dict_update rd (api_fields s)))
    (Z.to_nat retries) s s'.
Proof.
  unfold __load_retry. intros H.
  destruct (while_retry _ _ _ _ _) as [[l1 s1]| |] eqn:Hw;
    cbn [bind fst snd] in H; try discriminate.
  inversion H; subst.
  apply while_retry_caused in Hw; [|reflexivity].
  cbn [count request_data] in Hw. now rewrite Z.sub_0_r in Hw.
Qed.

(** X5: a call of the client that returns has made at most [retries]
    requests, none when the budget is not positive, all of them the same
    request: the parameters of the caller with the key and the two fixed
    selectors merged in, sent to the configured url.  It has slept one second
    at a time, at most once per request, and has reported nothing but a
    rejected key. *)
Theorem load_retry_within_budget rd retries s d s' :
  __load_retry net rd retries s = Ok (d, s') ->
  exists evs,
    trace s' = (trace s ++ evs)%list
    /\ Z.of_nat (requests_made evs) <= Z.max retries 0
    /\ 0 <= seconds_slept evs <= Z.of_nat (requests_made evs)
    /\ Forall (sent_for (request_for s (dict_update rd (api_fields s)))) evs.
Proof.
  intros H. destruct (load_retry_caused _ _ _ _ _ H) as (evs & -> & Hf & Hr & Hz).
  exists evs. repeat split; auto; lia.
Qed.

(** X6: the client never writes the table and never changes the key, the
    url, the addresses or the tokens of the connector; the flag after the
    call is set exactly when it was set before and no request of the call
    was answered ["Invalid API Key"]. *)
Theorem load_retry_touches_only_the_flag rd retries s d s' :
  __load_retry net rd retries s = Ok (d, s') ->
  _accounts s' = _accounts s
  /\ config_eq s s'
  /\ exists evs,
       trace s' = (trace s ++ evs)%list
       /\ enable_authentication (settings s')
          = enable_authentication (settings s) && negb (auth_observed evs).
Proof.
  intros H. destruct (load_retry_caused _ _ _ _ _ H) as (evs & -> & _).
  split; [reflexivity|]. split; [apply config_eq_act|].
  exists evs. split; [reflexivity|]. simpl.
  destruct (auth_observed evs), (enable_authentication (settings s));
    reflexivity.
Qed.

End Caused.

(** ** What a sequence of calls keeps *)

Section Follows.

Variable fl : Q -> Q.
Variable net : list event -> request -> attempt.

Lemma follows_refl s : follows s s.
Proof.
  split; [apply config_eq_refl|]. split; [auto|]. split; [auto|].
  exists []. rewrite app_nil_r. split; [reflexivity|].
  split; [constructor|]. simpl. now rewrite andb_true_r.
Qed.

Lemma follows_trans s1 s2 s3 : follows s1 s2 -> follows s2 s3 -> follows s1 s3.
Proof.
  intros (Hc1 & Hs1 & Hp1 & e1 & Ht1 & Hf1 & Hg1)
         (Hc2 & Hs2 & Hp2 & e2 & Ht2 & Hf2 & Hg2).
  split; [eapply config_eq_trans; eauto|]. split; [auto|]. split; [auto|].
  exists (e1 ++ e2)%list. split; [|split].
  - rewrite Ht2, Ht1. now rewrite app_assoc.
  - apply Forall_app. split; [exact Hf1|].
    eapply Forall_impl; [|exact Hf2]. intros ev.
    apply sent_by_config, config_eq_sym, Hc1.
  - rewrite Hg2, Hg1, auth_observed_app, negb_orb. now rewrite andb_assoc.
Qed.

Lemma follows_table t s :
  (forall sym, dict_get sym (_accounts s) <> None -> dict_get sym t <> None) ->
  (forall sym a, present sym a (_accounts s) -> present sym a t) ->
  follows s (set_accounts t s).
Proof.
  intros Hs Hp. split; [unfold config_eq; simpl; auto|].
  split; [exact Hs|]. split; [exact Hp|].
  exists []. simpl. rewrite app_nil_r. split; [reflexivity|].
  split; [constructor|]. now rewrite andb_true_r.
Qed.

Lemma follows_ensure sym s : follows s (ensure_symbol sym s).
Proof.
  unfold ensure_symbol. destruct (missing_or_empty sym (_accounts s)) eqn:E;
    [|apply follows_refl].
  apply follows_table.
  - intros sym' H. rewrite dict_get_set.
    destruct (String.eqb sym sym'); [discriminate|exact H].
  - intros sym' a H. unfold present in *.
    pose proof (lookup_ensure sym s sym' a) as Hl.
    unfold ensure_symbol in Hl. rewrite E in Hl. simpl in Hl.
    now rewrite Hl.
Qed.

Lemma follows_store sym account v s s' :
  store sym account v s = Ok s' -> follows s s'.
Proof.
  intros H. destruct (dict_get sym (_accounts s)) as [inner|] eqn:E.
  - rewrite (store_present _ _ _ _ _ E) in H. inversion H; subst.
    apply follows_table.
    + intros sym'. apply dict_get_tset_present.
    + intros sym' a. apply present_tset.
  - unfold store in H. rewrite E in H. discriminate.
Qed.

Lemma follows_load_retry rd retries s d s' :
  __load_retry net rd retries s = Ok (d, s') -> follows s s'.
Proof.
  intros H. destruct (load_retry_caused _ _ _ _ _ _ H) as (evs & -> & Hf & _).
  split; [apply config_eq_act|]. split; [auto|]. split; [auto|].
  exists evs. split; [reflexivity|]. split.
  - eapply Forall_impl; [|exact Hf]. intros ev. apply sent_for_sent_by.
  - simpl. destruct (auth_observed evs), (enable_authentication (settings s));
      reflexivity.
Qed.

Lemma follows_get_token_balance account token s v s' :
  _get_token_balance_on_account fl net account token s = Ok (v, s') ->
  follows s s'.
Proof.
  unfold _get_token_balance_on_account. intros H.
  destruct (__load_retry _ _ _ _) as [[d s1]| |] eqn:Hl; simpl in H;
    try discriminate.
  destruct (balance_of_data fl d token); simpl in H; try discriminate.
  inversion H; subst. eapply follows_load_retry; eauto.
Qed.

Lemma follows_for_each {A : Type} (body : A -> state -> result state) :
  (forall x s s', body x s = Ok s' -> follows s s') ->
  forall l s s', for_each body l s = Ok s' -> follows s s'.
Proof.
  intros Hbody. induction l as [|x l IH]; intros s s' H; simpl in H.
  - inversion H; subst. apply follows_refl.
  - destruct (body x s) as [s1| |] eqn:Hx; simpl in H; try discriminate.
    eapply follows_trans; eauto.
Qed.

Lemma follows_token_step account token s s' :
  token_step fl net account token s = Ok s' -> follows s s'.
Proof.
  unfold token_step. intros H.
  destruct (_get_token_balance_on_account _ _ _ _ _) as [[v s1]| |] eqn:Hb;
    simpl in H; try discriminate.
  eapply follows_trans; [apply follows_ensure|].
  eapply follows_trans; [eapply follows_get_token_balance; eauto|].
  eapply follows_store; eauto.
Qed.

Lemma follows_tokens_loop account s s' :
  tokens_loop fl net account s = Ok s' -> follows s s'.
Proof.
  unfold tokens_loop. destruct (tokens (settings s)); [|discriminate].
  apply follows_for_each. intros x. apply follows_token_step.
Qed.

Lemma follows_retrieve_tokens s s' :
  retrieve_tokens fl net s = Ok s' -> follows s s'.
Proof.
  unfold retrieve_tokens. intros H.
  destruct (dict_get "ETH" _); [|discriminate].
  eapply follows_trans; [apply follows_ensure|].
  eapply follows_for_each; [|exact H]. apply follows_tokens_loop.
Qed.

Lemma follows_native_step e s s' :
  native_step fl e s = Ok s' -> follows s s'.
Proof.
  unfold native_step. intros H.
  destruct (py_getitem e "account"); simpl in H; try discriminate.
  destruct (py_getitem e "balance"); simpl in H; try discriminate.
  destruct (py_float fl _); simpl in H; try discriminate.
  destruct (py_key _); simpl in H; try discriminate.
  eapply follows_store; eauto.
Qed.

Lemma follows_retrieve_native s s' :
  retrieve_native fl net s = Ok s' -> follows s s'.
Proof.
  unfold retrieve_native. intros H.
  destruct (__load_retry _ _ _ _) as [[d s1]| |] eqn:Hl; simpl in H;
    try discriminate.
  eapply follows_trans; [eapply follows_load_retry; eauto|].
  unfold store_native in H. destruct (truthy d).
  - destruct (py_iter d) as [entries| |]; simpl in H; try discriminate.
    eapply follows_trans; [apply follows_ensure|].
    eapply follows_for_each; [|exact H]. apply follows_native_step.
  - inversion H; subst. apply follows_refl.
Qed.

Lemma follows_retrieve_accounts s t s' :
  retrieve_accounts fl net s = Ok (t, s') -> follows s s'.
Proof.
  unfold retrieve_accounts. intros H.
  destruct (enable_authentication (settings s)).
  - destruct (retrieve_native fl net s) as [s1| |] eqn:Hn; simpl in H;
      try discriminate.
    eapply follows_trans; [eapply follows_retrieve_native; eauto|].
    destruct (tokens_configured s1).
    + destruct (retrieve_tokens fl net s1) as [s2| |] eqn:Ht; simpl in H;
        try discriminate.
      inversion H; subst. eapply follows_retrieve_tokens; eauto.
    + simpl in H. inversion H; subst. apply follows_refl.
  - inversion H; subst. apply follows_refl.
Qed.

Lemma follows_run_method m s s' : run_method fl net m s = Ok s' -> follows s s'.
Proof.
  destruct m; simpl; intros H.
  - destruct (__load_retry _ _ _ _) as [[d s1]| |] eqn:Hl; simpl in H;
      try discriminate.
    inversion H; subst. eapply follows_load_retry; eauto.
  - destruct (_get_token_balance_on_account _ _ _ _ _) as [[v s1]| |] eqn:Hb;
      simpl in H; try discriminate.
    inversion H; subst. eapply follows_get_token_balance; eauto.
  - eapply follows_retrieve_tokens; eauto.
  - destruct (retrieve_accounts _ _ _) as [[t s1]| |] eqn:Hr; simpl in H;
      try discriminate.
    inversion H; subst. eapply follows_retrieve_accounts; eauto.
  - inversion H; subst. apply follows_refl.
Qed.

Lemma follows_run_methods ms s s' :
  run_methods fl net ms s = Ok s' -> follows s s'.
Proof. apply follows_for_each. apply follows_run_method. Qed.

(** X7: over any sequence of method calls that return, the key, the url,
    the addresses and the tokens of the connector stay as [__init__] set
    them, and [enable_authentication] is set at the end exactly when it was
    set at the start and no request of the sequence was answered
    ["Invalid API Key"]: transport failures, exhausted budgets and other
    [NOTOK] answers never disable the connector, and nothing enables it
    again. *)
Theorem flag_cleared_only_by_rejected_key ms s s' :
  run_methods fl net ms s = Ok s' ->
  config_eq s s'
  /\ exists evs,
       trace s' = (trace s ++ evs)%list
       /\ enable_authentication (settings s')
          = enable_authentication (settings s) && negb (auth_observed evs).
Proof.
  intros H. apply follows_run_methods in H.
  destruct H as (Hc & _ & _ & evs & Ht & _ & Hg).
  split; [exact Hc|]. now exists evs.
Qed.

(** X8: every request a sequence of method calls sends goes to the
    configured url and carries the configured key as [apikey], with
    [module] ["account"] and [tag] ["latest"], whatever the parameters of the
    caller held under those names; every pause lasts one second; and the
    error handler is called with ["Invalid API Key"] only. *)
Theorem requests_carry_key_and_selectors ms s s' :
  run_methods fl net ms s = Ok s' ->
  exists evs,
    trace s' = (trace s ++ evs)%list /\ Forall (sent_by s) evs.
Proof.
  intros H. apply follows_run_methods in H.
  destruct H as (_ & _ & _ & evs & Ht & Hf & _).
  now exists evs.
Qed.

(** X9: no method removes anything from the table: a symbol that has a
    dictionary keeps one, and an account that has a balance under a symbol
    keeps one, over any sequence of method calls that return. *)
Theorem table_only_grows ms s s' :
  run_methods fl net ms s = Ok s' ->
  (forall sym, dict_get sym (_accounts s) <> None ->
               dict_get sym (_accounts s') <> None)
  /\ (forall sym a, present sym a (_accounts s) ->
                    present sym a (_accounts s')).
Proof.
  intros H. apply follows_run_methods in H.
  destruct H as (_ & Hs & Hp & _). now split.
Qed.

End Follows.

(** ** A server that gives no data *)

Section Refused.

Variable fl : Q -> Q.
Variable net : list event -> request -> attempt.
Hypothesis refused : forall h r, refuses (net h r).

Lemma iteration_refused retries l s :
  data l = PyNone ->
  exists l' s', iteration net retries l s = Ok (l', s') /\ data l' = PyNone.
Proof.
  intros Hd. unfold iteration, try_block.
  destruct (count l + 1 >? retries).
  - unfold notok_block, ok_block. simpl. rewrite Hd. simpl. eauto.
  - set (req := request_for s (dict_update (request_data l) (api_fields s))).
    pose proof (refused (trace s) req) as Href.
    destruct (net (trace s) req) as [e|doc].
    + unfold notok_block, ok_block. simpl. rewrite Hd. simpl. eauto.
    + destruct doc as [| | | | | |kv]; try contradiction.
      cbn [refuses] in Href.
      assert (Hne : truthy (PyDict kv) = true).
      { destruct kv; [discriminate|reflexivity]. }
      unfold notok_block. cbn [data]. rewrite Hne.
      unfold py_get. cbn [bind]. rewrite Href. cbn [bind].
      destruct (py_eq_str (field "result" kv) "Invalid API Key");
        cbn [bind fst snd]; unfold ok_block; cbn [data truthy bind]; eauto.
Qed.

Lemma while_retry_refused fuel retries l s :
  data l = PyNone ->
  (Z.to_nat (retries - count l) < fuel)%nat ->
  exists l' s',
    while_retry net fuel retries l s = Ok (l', s') /\ data l' = PyNone.
Proof.
  revert l s. induction fuel as [|fuel IH]; intros l s Hd Hfuel; [lia|].
  simpl. destruct (retry l) eqn:Hr; [|eauto].
  destruct (Z_le_gt_dec retries (count l)) as [Hle|Hgt].
  - rewrite (iteration_over_budget net retries l s Hd Hle). cbn [bind fst snd].
    rewrite while_retry_done by reflexivity. eauto.
  - destruct (iteration_refused retries l s Hd) as (l1 & s1 & Hit & Hd1).
    rewrite Hit. cbn [bind fst snd].
    apply IH; [exact Hd1|].
    rewrite (iteration_count _ _ _ _ _ _ Hit). lia.
Qed.

Lemma load_retry_refused rd retries s :
  exists s', __load_retry net rd retries s = Ok (PyNone, s').
Proof.
  unfold __load_retry.
  destruct (while_retry_refused (S (Z.to_nat retries)) retries
              {| request_data := rd; data := PyNone; retry := true; count := 0 |}
              s eq_refl) as (l' & s' & Hw & Hd).
  { cbn [count]. lia. }
  rewrite Hw. cbn [bind fst snd]. rewrite Hd. eauto.
Qed.

(** The step for one pair stores [float(0)]. *)
Lemma token_step_refused account token s :
  exists s1,
    token_step fl net account token s
    = Ok (set_accounts (tset (short token) account (fl 0%Q) (_accounts s)) s1)
    /\ tokens (settings s1) = tokens (settings s).
Proof.
  destruct (load_retry_refused (token_request_data account token) 5
              (ensure_symbol (short token) s)) as (s1 & Hl).
  assert (Hb : _get_token_balance_on_account fl net account token
                 (ensure_symbol (short token) s) = Ok (fl 0%Q, s1)).
  { unfold _get_token_balance_on_account. rewrite Hl. cbn [bind fst snd].
    now rewrite balance_of_data_no_data. }
  exists s1. split; [now apply token_step_value|].
  apply follows_load_retry in Hl. destruct Hl as ((_ & _ & _ & Ht) & _).
  rewrite Ht. unfold ensure_symbol.
  now destruct (missing_or_empty _ _).
Qed.

Lemma token_steps_refused account ts s :
  exists s',
    for_each (token_step fl net account) ts s = Ok s'
    /\ tokens (settings s') = tokens (settings s)
    /\ (forall sym a, zero fl s sym a -> zero fl s' sym a)
    /\ (forall tok, In tok ts -> zero fl s' (short tok) account).
Proof.
  revert s. induction ts as [|tok ts IH]; intros s.
  - exists s. simpl. repeat split; auto. intros tok [].
  - destruct (token_step_refused account tok s) as (s1 & Hstep & Ht1).
    simpl. rewrite Hstep. cbn [bind].
    destruct (IH (set_accounts (tset (short tok) account (fl 0%Q) (_accounts s))
                    s1)) as (s' & Hfor & Ht & Hz & Hnew).
    exists s'. split; [exact Hfor|]. split; [|split].
    + rewrite Ht. exact Ht1.
    + intros sym a H. apply Hz. unfold zero in *. cbn [_accounts set_accounts].
      rewrite lookup_tset.
      destruct (String.eqb (short tok) sym && String.eqb account a);
        [reflexivity|exact H].
    + intros tok' [<-|Hin]; [|now apply Hnew].
      apply Hz. unfold zero. cbn [_accounts set_accounts].
      rewrite lookup_tset. now rewrite !String.eqb_refl.
Qed.

Lemma accounts_loop_refused ts accounts s :
  tokens (settings s) = Some ts ->
  exists s',
    for_each (tokens_loop fl net) accounts s = Ok s'
    /\ tokens (settings s') = Some ts
    /\ (forall sym a, zero fl s sym a -> zero fl s' sym a)
    /\ (forall tok a, In tok ts -> In a accounts -> zero fl s' (short tok) a).
Proof.
  revert s. induction accounts as [|account accounts IH]; intros s Hts.
  - exists s. simpl. repeat split; auto. intros tok a _ [].
  - destruct (token_steps_refused account ts s) as (s1 & Hfor & Ht1 & Hz1 & Hn1).
    assert (Hts1 : tokens (settings s1) = Some ts) by congruence.
    destruct (IH s1 Hts1) as (s' & Hloop & Ht & Hz & Hnew).
    exists s'. split; [|split; [exact Ht|split]].
    + simpl. unfold tokens_loop at 1. rewrite Hts, Hfor. exact Hloop.
    + auto.
    + intros tok a Htok [<-|Hin]; [|now apply Hnew].
      apply Hz. now apply Hn1.
Qed.

Lemma retrieve_tokens_refused ts s :
  tokens (settings s) = Some ts ->
  exists s',
    retrieve_tokens fl net s = Ok s'
    /\ forall tok a,
         In tok ts -> In a (eth_keys (_accounts s)) ->
         lookup (short tok) a (_accounts s') = Some (fl 0%Q).
Proof.
  intros Hts. unfold retrieve_tokens.
  pose proof (ensure_symbol_present "ETH" s) as Hp.
  assert (Hk : eth_keys (_accounts (ensure_symbol "ETH" s))
               = eth_keys (_accounts s)).
  { rewrite ensure_symbol_table. apply eth_keys_ensure_table. }
  unfold eth_keys at 1 in Hk.
  destruct (dict_get "ETH" (_accounts (ensure_symbol "ETH" s))) as [eth|];
    [|congruence].
  assert (Hts1 : tokens (settings (ensure_symbol "ETH" s)) = Some ts).
  { unfold ensure_symbol. now destruct (missing_or_empty _ _). }
  destruct (accounts_loop_refused ts (dict_keys eth) _ Hts1)
    as (s' & Hloop & _ & _ & Hnew).
  exists s'. split; [exact Hloop|].
  intros tok a Htok Ha. apply Hnew; [exact Htok|]. now rewrite Hk.
Qed.

(** X10: when every attempt ends in a connection error, a read timeout or a
    document whose message contains ["NOTOK"], the client returns [None] for
    every request and every budget: it raises nothing. *)
Theorem load_retry_gives_up_quietly rd retries s :
  exists s', __load_retry net rd retries s = Ok (PyNone, s').
Proof. apply load_retry_refused. Qed.

(** X11: when no attempt gives data, [retrieve_tokens] returns, and it has
    stored [float(0)] for every configured token under every account that
    was under ["ETH"]: a balance the table held is overwritten by zero. *)
Theorem retrieve_tokens_zeroes_when_refused ts s :
  tokens (settings s) = Some ts ->
  exists s',
    retrieve_tokens fl net s = Ok s'
    /\ forall tok a,
         In tok ts -> In a (eth_keys (_accounts s)) ->
         lookup (short tok) a (_accounts s') = Some (fl 0%Q).
Proof. apply retrieve_tokens_refused. Qed.

(** X12: a refresh during which no attempt gives data returns the table, in
    which the balances under ["ETH"] are the ones it held (when no token is
    called ["ETH"]), while the balance of every configured token under every
    account of ["ETH"] is [float(0)].  The token requests are made even when
    the native request was answered ["Invalid API Key"]. *)
Theorem refresh_without_data s ts :
  enable_authentication (settings s) = true ->
  tokens (settings s) = Some ts ->
  exists s',
    retrieve_accounts fl net s = Ok (_accounts s', s')
    /\ (forall tok a,
          In tok ts -> In a (eth_keys (_accounts s)) ->
          lookup (short tok) a (_accounts s') = Some (fl 0%Q))
    /\ ((forall tok, In tok ts -> short tok <> "ETH") ->
        forall a, lookup "ETH" a (_accounts s')
                  = lookup "ETH" a (_accounts s)).
Proof.
  intros Hflag Hts. unfold retrieve_accounts. rewrite Hflag.
  destruct (load_retry_refused (native_request_data s) 5 s) as (s1 & Hl).
  destruct (failed_native_keeps_table fl net s PyNone s1 Hl eq_refl)
    as (Hn & Hacc).
  rewrite Hn. cbn [bind].
  assert (Hts1 : tokens (settings s1) = Some ts).
  { apply follows_load_retry in Hl. destruct Hl as ((_ & _ & _ & Ht) & _).
    congruence. }
  unfold tokens_configured. rewrite Hts1.
  destruct ts as [|tok0 ts'].
  - exists s1. cbn [bind]. split; [reflexivity|].
    split; [intros tok a []|]. intros _ a. now rewrite Hacc.
  - destruct (retrieve_tokens_refused (tok0 :: ts') s1 Hts1) as (s' & Hr & Hz).
    exists s'. rewrite Hr. cbn [bind]. split; [reflexivity|]. split.
    + intros tok a Htok Ha. apply Hz; [exact Htok|]. now rewrite Hacc.
    + intros Hsym a. rewrite <- Hacc.
      exact (retrieve_tokens_frame fl net s1 s' (tok0 :: ts') "ETH" a
               Hts1 Hsym Hr).
Qed.

End Refused.

(** ** Documents the callers do not expect *)

Section Unexpected.

Variable fl : Q -> Q.
Variable net : list event -> request -> attempt.

(** X13: when the [balancemulti] request is answered by a document that the
    client neither retries nor unpacks (a message without ["NOTOK"] that is
    not a success, or a success with an empty result), [retrieve_accounts]
    raises [TypeError]: it walks the keys of the document and subscripts a
    string with ['account']. *)
Theorem retrieve_accounts_raises_on_unrecognised s kv m :
  enable_authentication (settings s) = true ->
  net (trace s)
    (request_for s (dict_update (native_request_data s) (api_fields s)))
  = Response (PyDict kv) ->
  dict_get "message" kv = Some (PyStr m) ->
  is_substring "NOTOK" m = false ->
  ok_message m && truthy (field "result" kv) = false ->
  retrieve_accounts fl net s = Raise TypeError.
Proof.
  intros Hflag Hnet Hm Hnotok Hok.
  unfold retrieve_accounts. rewrite Hflag. unfold retrieve_native.
  rewrite (load_retry_unrecognised net _ 5 s kv m) by (auto; lia).
  cbn [bind fst snd]. unfold store_native.
  destruct kv as [|[k v] kv]; [discriminate|].
  cbn [truthy py_iter bind dict_keys map fst for_each].
  unfold native_step at 1. cbn [py_getitem bind]. reflexivity.
Qed.

(** X14: when a [tokenbalance] request is answered by such a document,
    [_get_token_balance_on_account] raises [TypeError]: it calls [int] on the
    document. *)
Theorem token_balance_raises_on_unrecognised account token s kv m :
  net (trace s)
    (request_for s
       (dict_update (token_request_data account token) (api_fields s)))
  = Response (PyDict kv) ->
  dict_get "message" kv = Some (PyStr m) ->
  is_substring "NOTOK" m = false ->
  ok_message m && truthy (field "result" kv) = false ->
  _get_token_balance_on_account fl net account token s = Raise TypeError.
Proof.
  intros Hnet Hm Hnotok Hok. unfold _get_token_balance_on_account.
  rewrite (load_retry_unrecognised net _ 5 s kv m) by (auto; lia).
  cbn [bind fst snd]. unfold balance_of_data.
  destruct kv as [|[k v] kv]; [discriminate|]. reflexivity.
Qed.

(** X15: with a rounding that keeps the sign, the balance
    [_get_token_balance_on_account] returns is never negative: an amount
    that is zero or negative is reported as [float(0)]. *)
Theorem token_balance_not_negative account token s v s' :
  (forall q, (0 <= q)%Q -> (0 <= fl q)%Q) ->
  _get_token_balance_on_account fl net account token s = Ok (v, s') ->
  (0 <= v)%Q.
Proof.
  intros Hfl H. unfold _get_token_balance_on_account in H.
  destruct (__load_retry _ _ _ _) as [[d s1]| |]; cbn [bind fst snd] in H;
    try discriminate.
  destruct (balance_of_data fl d token) as [b| |] eqn:Hb; cbn [bind] in H;
    try discriminate.
  inversion H; subst b s1. clear H.
  assert (H0 : (0 <= fl 0)%Q) by (apply Hfl; apply Qle_refl).
  unfold balance_of_data in Hb.
  destruct (truthy d); [|inversion Hb; subst; exact H0].
  destruct (py_int d) as [r| |]; cbn [bind] in Hb; try discriminate.
  destruct (Z.gtb_spec r 0) as [Hr|Hr]; [|inversion Hb; subst; exact H0].
  inversion Hb; subst v. clear Hb.
  destruct (token_decimals token >? 0); cbn [float_of_number].
  - unfold int_truediv. apply Hfl.
    apply Qle_shift_div_l.
    + change 0%Q with (inject_Z 0). rewrite <- Zlt_Qlt.
      apply Z.pow_pos_nonneg; [lia|].
      unfold token_decimals. destruct (decimals token) as [n|]; [|lia].
      destruct (Z.geb_spec n 0); lia.
    + rewrite Qmult_0_l. change 0%Q with (inject_Z 0). rewrite <- Zle_Qle. lia.
  - apply Hfl. change 0%Q with (inject_Z 0). rewrite <- Zle_Qle. lia.
Qed.

(** X16: [retrieve_tokens] changes the table only under the symbols of the
    configured tokens, and there only for accounts that were under ["ETH"]
    when it started: every other entry is as it was. *)
Theorem retrieve_tokens_writes_only_token_cells s s' ts :
  tokens (settings s) = Some ts ->
  retrieve_tokens fl net s = Ok s' ->
  forall sym a,
    (forall tok, In tok ts -> short tok <> sym)
    \/ ~ In a (eth_keys (_accounts s)) ->
    lookup sym a (_accounts s') = lookup sym a (_accounts s).
Proof.
  intros Hts H sym a [Hsym|Ha].
  - exact (retrieve_tokens_frame fl net s s' ts sym a Hts Hsym H).
  - unfold retrieve_tokens in H.
    assert (Hk : eth_keys (_accounts (ensure_symbol "ETH" s))
                 = eth_keys (_accounts s)).
    { rewrite ensure_symbol_table. apply eth_keys_ensure_table. }
    unfold eth_keys at 1 in Hk.
    destruct (dict_get "ETH" (_accounts (ensure_symbol "ETH" s))) as [eth|];
      [|discriminate].
    rewrite <- Hk in Ha. rewrite <- (lookup_ensure "ETH" s sym a).
    revert H Ha. generalize (ensure_symbol "ETH" s). generalize (dict_keys eth).
    clear. intros l. induction l as [|b l IH]; intros s0 H Ha; simpl in H.
    + now inversion H.
    + destruct (tokens_loop fl net b s0) as [s1| |] eqn:Hl; cbn [bind] in H;
        try discriminate.
      rewrite (IH s1 H) by (intros Hin; apply Ha; now right).
      assert (Hne : b <> a) by (intros ->; apply Ha; now left).
      clear - Hl Hne. unfold tokens_loop in Hl.
      destruct (tokens (settings s0)) as [ts|]; [|discriminate].
      revert s0 Hl. induction ts as [|tok ts IH]; intros s0 Hl; simpl in Hl.
      * now inversion Hl.
      * destruct (token_step fl net b tok s0) as [s2| |] eqn:Hs;
          cbn [bind] in Hl; try discriminate.
        rewrite (IH s2 Hl).
        assert (Hb : exists v s3,
                  _get_token_balance_on_account fl net b tok
                    (ensure_symbol (short tok) s0) = Ok (v, s3)).
        { unfold token_step in Hs.
          destruct (_get_token_balance_on_account _ _ _ _ _) as [[v s3]| |];
            try discriminate. eauto. }
        destruct Hb as (v & s3 & Hb).
        rewrite (token_step_value fl net _ _ _ _ _ Hb) in Hs.
        inversion Hs; subst. cbn [_accounts set_accounts].
        rewrite lookup_tset.
        destruct (String.eqb_spec b a) as [->|_]; [congruence|].
        now rewrite andb_false_r.
Qed.

(** X17: [retrieve_tokens] on a connector built without [tokens] raises
    [TypeError] as soon as an account is under ["ETH"]: it iterates over
    [None]. *)
Theorem retrieve_tokens_without_tokens s :
  tokens (settings s) = None ->
  eth_keys (_accounts s) <> [] ->
  retrieve_tokens fl net s = Raise TypeError.
Proof.
  intros Hts Hk. unfold retrieve_tokens.
  assert (Hk1 : eth_keys (_accounts (ensure_symbol "ETH" s))
                = eth_keys (_accounts s)).
  { rewrite ensure_symbol_table. apply eth_keys_ensure_table. }
  pose proof (ensure_symbol_present "ETH" s) as Hp.
  unfold eth_keys at 1 in Hk1.
  destruct (dict_get "ETH" (_accounts (ensure_symbol "ETH" s))) as [eth|];
    [|congruence].
  rewrite <- Hk1 in Hk. destruct (dict_keys eth) as [|a l]; [congruence|].
  simpl. unfold tokens_loop at 1.
  assert (Hts1 : tokens (settings (ensure_symbol "ETH" s)) = None).
  { unfold ensure_symbol. now destruct (missing_or_empty _ _). }
  now rewrite Hts1.
Qed.

(** X18: with no account under ["ETH"], [retrieve_tokens] sends no request:
    it only makes sure that the table has a dictionary for ["ETH"]. *)
Theorem retrieve_tokens_without_accounts s :
  eth_keys (_accounts s) = [] ->
  retrieve_tokens fl net s = Ok (ensure_symbol "ETH" s).
Proof.
  intros Hk. unfold retrieve_tokens.
  assert (Hk1 : eth_keys (_accounts (ensure_symbol "ETH" s))
                = eth_keys (_accounts s)).
  { rewrite ensure_symbol_table. apply eth_keys_ensure_table. }
  pose proof (ensure_symbol_present "ETH" s) as Hp.
  unfold eth_keys at 1 in Hk1.
  destruct (dict_get "ETH" (_accounts (ensure_symbol "ETH" s))) as [eth|];
    [|congruence].
  rewrite Hk in Hk1. now rewrite Hk1.
Qed.

End Unexpected.

(** ** The cost of a refresh *)

Section Cost.

Variable fl : Q -> Q.
Variable net : list event -> request -> attempt.

Lemma within_refl s : within 0 s s.
Proof.
  exists []. rewrite app_nil_r. split; [reflexivity|].
  unfold requests_made. simpl. lia.
Qed.

Lemma within_trans n1 n2 s1 s2 s3 :
  within n1 s1 s2 -> within n2 s2 s3 -> within (n1 + n2) s1 s3.
Proof.
  intros (e1 & Ht1 & Hr1 & Hz1) (e2 & Ht2 & Hr2 & Hz2).
  exists (e1 ++ e2)%list. split; [|split].
  - rewrite Ht2, Ht1. now rewrite app_assoc.
  - rewrite requests_made_app. lia.
  - rewrite seconds_slept_app, requests_made_app. lia.
Qed.

Lemma within_weaken n m s s' : (n <= m)%nat -> within n s s' -> within m s s'.
Proof.
  intros Hle (evs & Ht & Hr & Hz). exists evs. repeat split; auto; lia.
Qed.

Lemma within_same_trace s s' : trace s' = trace s -> within 0 s s'.
Proof.
  intros H. exists []. rewrite app_nil_r. split; [exact H|].
  unfold requests_made. simpl. lia.
Qed.

Lemma within_ensure sym s : within 0 s (ensure_symbol sym s).
Proof.
  apply within_same_trace. unfold ensure_symbol.
  now destruct (missing_or_empty _ _).
Qed.

Lemma within_store sym account v s s' :
  store sym account v s = Ok s' -> within 0 s s'.
Proof.
  unfold store. destruct (dict_get sym (_accounts s)); [|discriminate].
  intros H; inversion H; subst. now apply within_same_trace.
Qed.

Lemma within_load_retry rd retries s d s' :
  __load_retry net rd retries s = Ok (d, s') ->
  within (Z.to_nat retries) s s'.
Proof.
  intros H. destruct (load_retry_caused _ _ _ _ _ _ H) as (evs & -> & _ & Hr & Hz).
  exists evs. now repeat split.
Qed.

Lemma within_token_step account token s s' :
  token_step fl net account token s = Ok s' -> within 5 s s'.
Proof.
  unfold token_step, _get_token_balance_on_account. intros H.
  destruct (__load_retry _ _ _ _) as [[d s1]| |] eqn:Hl; cbn [bind fst snd] in H;
    try discriminate.
  destruct (balance_of_data fl d token) as [b| |]; cbn [bind fst snd] in H;
    try discriminate.
  apply within_load_retry in Hl. apply within_store in H.
  change 5%nat with (0 + Z.to_nat 5 + 0)%nat.
  eapply within_trans; [eapply within_trans; [apply within_ensure|exact Hl]|].
  exact H.
Qed.

(** A loop whose body costs at most [k] requests, over states that satisfy
    an invariant. *)
Lemma within_for_each {A : Type} (body : A -> state -> result state)
    (I : state -> Prop) (k : nat) l :
  (forall x s s', In x l -> I s -> body x s = Ok s' -> within k s s' /\ I s') ->
  forall s s', I s -> for_each body l s = Ok s' ->
    within (k * length l) s s' /\ I s'.
Proof.
  induction l as [|x l IH]; intros Hbody s s' Hi H; simpl in H.
  - inversion H; subst. rewrite Nat.mul_0_r. split; [apply within_refl|exact Hi].
  - destruct (body x s) as [s1| |] eqn:Hx; cbn [bind] in H; try discriminate.
    destruct (Hbody x s s1 (or_introl eq_refl) Hi Hx) as (Hw1 & Hi1).
    destruct (IH (fun y s0 s0' Hy => Hbody y s0 s0' (or_intror Hy)) s1 s' Hi1 H)
      as (Hw & Hi').
    split; [|exact Hi'].
    eapply within_weaken; [|eapply within_trans; [exact Hw1|exact Hw]].
    simpl. lia.
Qed.

(** The step for one pair leaves the list of accounts under ["ETH"] as it
    is when its account is in the list. *)
Lemma token_step_eth_keys account token s s' :
  In account (eth_keys (_accounts s)) ->
  token_step fl net account token s = Ok s' ->
  eth_keys (_accounts s') = eth_keys (_accounts s)
  /\ tokens (settings s') = tokens (settings s).
Proof.
  intros Hin H.
  pose proof (follows_token_step fl net _ _ _ _ H) as ((_ & _ & _ & Ht) & _).
  split; [|exact Ht].
  assert (Hb : exists v s1,
            _get_token_balance_on_account fl net account token
              (ensure_symbol (short token) s) = Ok (v, s1)).
  { unfold token_step in H.
    destruct (_get_token_balance_on_account _ _ _ _ _) as [[v s1]| |];
      try discriminate. eauto. }
  destruct Hb as (v & s1 & Hb).
  rewrite (token_step_value fl net _ _ _ _ _ Hb) in H.
  inversion H; subst. cbn [_accounts set_accounts].
  apply eth_keys_tset. intros _. exact Hin.
Qed.

Lemma tokens_loop_cost keys ts account s s' :
  In account keys ->
  eth_keys (_accounts s) = keys /\ tokens (settings s) = Some ts ->
  tokens_loop fl net account s = Ok s' ->
  within (5 * length ts) s s'
  /\ (eth_keys (_accounts s') = keys /\ tokens (settings s') = Some ts).
Proof.
  intros Hin (Hk & Hts) H. unfold tokens_loop in H. rewrite Hts in H.
  apply (within_for_each (token_step fl net account)
           (fun s0 => eth_keys (_accounts s0) = keys
                      /\ tokens (settings s0) = Some ts) 5 ts);
    [|now split|exact H].
  intros tok s0 s0' _ (Hk0 & Ht0) Hstep. split.
  - eapply within_token_step; eauto.
  - rewrite <- Hk0 in Hin.
    destruct (token_step_eth_keys _ _ _ _ Hin Hstep) as (Hk1 & Ht1).
    split; congruence.
Qed.

Lemma retrieve_tokens_cost s s' ts :
  tokens (settings s) = Some ts ->
  retrieve_tokens fl net s = Ok s' ->
  within (5 * length ts * length (eth_keys (_accounts s))) s s'
  /\ eth_keys (_accounts s') = eth_keys (_accounts s).
Proof.
  intros Hts H. unfold retrieve_tokens in H.
  assert (Hk : eth_keys (_accounts (ensure_symbol "ETH" s))
               = eth_keys (_accounts s)).
  { rewrite ensure_symbol_table. apply eth_keys_ensure_table. }
  assert (Hts1 : tokens (settings (ensure_symbol "ETH" s)) = Some ts).
  { unfold ensure_symbol. now destruct (missing_or_empty _ _). }
  pose proof (within_ensure "ETH" s) as Hw0.
  unfold eth_keys at 1 in Hk.
  destruct (dict_get "ETH" (_accounts (ensure_symbol "ETH" s))) as [eth|] eqn:E;
    [|discriminate].
  assert (Hi : eth_keys (_accounts (ensure_symbol "ETH" s)) = dict_keys eth
               /\ tokens (settings (ensure_symbol "ETH" s)) = Some ts).
  { split; [|exact Hts1]. unfold eth_keys. now rewrite E. }
  destruct (within_for_each (tokens_loop fl net)
              (fun s0 => eth_keys (_accounts s0) = dict_keys eth
                         /\ tokens (settings s0) = Some ts)
              (5 * length ts) (dict_keys eth)
              (fun a s0 s0' Ha Hi0 Hl =>
                 tokens_loop_cost (dict_keys eth) ts a s0 s0' Ha Hi0 Hl)
              _ _ Hi H) as (Hw & Hk' & _).
  split.
  - rewrite <- Hk.
    change (5 * length ts * length (dict_keys eth))%nat
      with (0 + 5 * length ts * length (dict_keys eth))%nat.
    eapply within_trans; [exact Hw0|exact Hw].
  - congruence.
Qed.

Lemma within_native_step e s s' :
  native_step fl e s = Ok s' -> within 0 s s'.
Proof.
  unfold native_step. intros H.
  destruct (py_getitem e "account"); simpl in H; try discriminate.
  destruct (py_getitem e "balance"); simpl in H; try discriminate.
  destruct (py_float fl _); simpl in H; try discriminate.
  destruct (py_key _); simpl in H; try discriminate.
  eapply within_store; eauto.
Qed.

Lemma within_retrieve_native s s' :
  retrieve_native fl net s = Ok s' -> within 5 s s'.
Proof.
  unfold retrieve_native. intros H.
  destruct (__load_retry _ _ _ _) as [[d s1]| |] eqn:Hl; cbn [bind fst snd] in H;
    try discriminate.
  apply within_load_retry in Hl.
  assert (Hs : within 0 s1 s').
  { unfold store_native in H. destruct (truthy d).
    - destruct (py_iter d) as [entries| |]; cbn [bind] in H; try discriminate.
      destruct (within_for_each (native_step fl) (fun _ => True) 0 entries
                  (fun e s0 s0' _ _ He => conj (within_native_step e s0 s0' He) I)
                  _ _ I H) as (Hw & _).
      change 0%nat with (0 + 0 * length entries)%nat.
      eapply within_trans; [apply within_ensure|exact Hw].
    - inversion H; subst. apply within_refl. }
  change 5%nat with (Z.to_nat 5 + 0)%nat.
  eapply within_trans; eauto.
Qed.

(** X19: a refresh that returns has sent at most five requests for the
    native balances and five for each pair of a configured token and an
    account under ["ETH"] of the table it returns, and has slept at most one
    second per request. *)
Theorem refresh_request_bound s t s' :
  retrieve_accounts fl net s = Ok (t, s') ->
  exists evs,
    trace s' = (trace s ++ evs)%list
    /\ (requests_made evs
        <= 5 * (1 + length (configured_tokens s) * length (eth_keys t)))%nat
    /\ 0 <= seconds_slept evs <= Z.of_nat (requests_made evs).
Proof.
  unfold retrieve_accounts. intros H.
  destruct (enable_authentication (settings s)).
  - destruct (retrieve_native fl net s) as [s1| |] eqn:Hn; cbn [bind] in H;
      try discriminate.
    pose proof (within_retrieve_native _ _ Hn) as Hw1.
    assert (Hts : tokens (settings s1) = tokens (settings s)).
    { apply follows_retrieve_native in Hn. now destruct Hn as ((_ & _ & _ & Ht) & _). }
    unfold tokens_configured in H. rewrite Hts in H.
    unfold configured_tokens.
    destruct (tokens (settings s)) as [[|tok ts]|] eqn:Hcfg;
      cbn [bind] in H.
    + inversion H; subst. eapply within_weaken; [|exact Hw1]. lia.
    + destruct (retrieve_tokens fl net s1) as [s2| |] eqn:Hr; cbn [bind] in H;
        try discriminate.
      inversion H; subst.
      destruct (retrieve_tokens_cost s1 s' (tok :: ts) Hts Hr) as (Hw2 & Hk).
      rewrite Hk.
      eapply within_weaken; [|eapply within_trans; [exact Hw1|exact Hw2]].
      lia.
    + inversion H; subst. eapply within_weaken; [|exact Hw1]. lia.
  - inversion H; subst. eapply within_weaken; [|apply within_refl]. lia.
Qed.

Lemma native_step_frame e s s' sym a :
  sym <> "ETH" -> native_step fl e s = Ok s' ->
  lookup sym a (_accounts s') = lookup sym a (_accounts s).
Proof.
  intros Hs H. unfold native_step in H.
  destruct (py_getitem e "account"); simpl in H; try discriminate.
  destruct (py_getitem e "balance"); simpl in H; try discriminate.
  destruct (py_float fl _); simpl in H; try discriminate.
  destruct (py_key _) as [k| |]; simpl in H; try discriminate.
  destruct (dict_get "ETH" (_accounts s)) as [inner|] eqn:E.
  - rewrite (store_present _ _ _ _ _ E) in H. inversion H; subst.
    cbn [_accounts set_accounts]. rewrite lookup_tset.
    destruct (String.eqb_spec "ETH" sym); [congruence|reflexivity].
  - unfold store in H. rewrite E in H. discriminate.
Qed.

Lemma retrieve_native_frame s s' sym a :
  sym <> "ETH" -> retrieve_native fl net s = Ok s' ->
  lookup sym a (_accounts s') = lookup sym a (_accounts s).
Proof.
  intros Hs H. unfold retrieve_native in H.
  destruct (__load_retry _ _ _ _) as [[d s1]| |] eqn:Hl; cbn [bind fst snd] in H;
    try discriminate.
  rewrite <- (load_retry_accounts net _ _ _ _ _ Hl).
  unfold store_native in H. destruct (truthy d); [|now inversion H].
  destruct (py_iter d) as [entries| |]; cbn [bind] in H; try discriminate.
  rewrite <- (lookup_ensure "ETH" s1 sym a).
  revert H. generalize (ensure_symbol "ETH" s1). clear - Hs.
  induction entries as [|e entries IH]; intros s0 H; simpl in H.
  - now inversion H.
  - destruct (native_step fl e s0) as [s2| |] eqn:He; cbn [bind] in H;
      try discriminate.
    rewrite (IH s2 H). now apply native_step_frame with (e := e).
Qed.

(** X20: a refresh changes the table under ["ETH"] and under the symbols of
    the configured tokens only: every entry under another symbol is in the
    table it returns as it was before. *)
Theorem refresh_changes_only_eth_and_tokens s t s' sym a :
  retrieve_accounts fl net s = Ok (t, s') ->
  sym <> "ETH" ->
  (forall tok, In tok (configured_tokens s) -> short tok <> sym) ->
  lookup sym a t = lookup sym a (_accounts s).
Proof.
  unfold retrieve_accounts. intros H Hs Htok.
  destruct (enable_authentication (settings s)); [|now inversion H].
  destruct (retrieve_native fl net s) as [s1| |] eqn:Hn; cbn [bind] in H;
    try discriminate.
  rewrite <- (retrieve_native_frame s s1 sym a Hs Hn).
  assert (Hts : tokens (settings s1) = tokens (settings s)).
  { apply follows_retrieve_native in Hn. now destruct Hn as ((_ & _ & _ & Ht) & _). }
  unfold tokens_configured in H. rewrite Hts in H.
  unfold configured_tokens in Htok.
  destruct (tokens (settings s)) as [[|tok ts]|] eqn:Hcfg; cbn [bind] in H;
    try (now inversion H).
  destruct (retrieve_tokens fl net s1) as [s2| |] eqn:Hr; cbn [bind] in H;
    try discriminate.
  inversion H; subst.
  exact (retrieve_tokens_frame fl net s1 s' (tok :: ts) sym a Hts Htok Hr).
Qed.

End Cost.

(** ** A token balance that arrives *)

Section TokenStored.

Variable fl : Q -> Q.
Variable net : list event -> request -> attempt.

Lemma settings_ensure sym s : settings (ensure_symbol sym s) = settings s.
Proof. unfold ensure_symbol. now destruct (missing_or_empty _ _). Qed.

Lemma trace_ensure sym s : trace (ensure_symbol sym s) = trace s.
Proof. unfold ensure_symbol. now destruct (missing_or_empty _ _). Qed.

(** X21: when the first answer to the [tokenbalance] request of a pair is a
    success (a message without ["NOTOK"] that is ["OK"] or contains ["OK-"])
    whose result reads as a positive integer [r], and the token gives a
    positive [decimals] [n], the step of [retrieve_tokens] for the pair sends
    that one request and stores the rounded [r / 10^n] under the symbol of
    the token for the account; no other entry of the table changes. *)
Theorem token_step_stores_balance account token s kv m digits r n :
  let req :=
    request_for s
      (dict_update (token_request_data account token) (api_fields s)) in
  net (trace s) req = Response (PyDict kv) ->
  dict_get "message" kv = Some (PyStr m) ->
  is_substring "NOTOK" m = false ->
  ok_message m = true ->
  dict_get "result" kv = Some (PyStr digits) ->
  parse_int digits = Some r -> 0 < r ->
  decimals token = Some n -> 0 < n ->
  exists s',
    token_step fl net account token s = Ok s'
    /\ trace s' = (trace s ++ [Get req (Response (PyDict kv))])%list
    /\ lookup (short token) account (_accounts s')
       = Some (fl (inject_Z r / inject_Z (10 ^ n))%Q)
    /\ forall sym a,
         (sym, a) <> (short token, account) ->
         lookup sym a (_accounts s') = lookup sym a (_accounts s).
Proof.
  intros req Hnet Hm Hnotok Hok Hres Hparse Hr Hdec Hn.
  set (s0 := ensure_symbol (short token) s).
  assert (Hfield : field "result" kv = PyStr digits)
    by (unfold field; now rewrite Hres).
  assert (Htruthy : truthy (PyStr digits) = true).
  { destruct digits; [discriminate|reflexivity]. }
  assert (Hreq : request_for s0
                   (dict_update (token_request_data account token)
                      (api_fields s0)) = req).
  { unfold req, request_for, api_fields, s0. now rewrite settings_ensure. }
  assert (Hload : __load_retry net (token_request_data account token) 5 s0
                  = Ok (PyStr digits,
                        emit [Get req (Response (PyDict kv))] s0)).
  { rewrite <- Hfield, <- Hreq.
    apply load_retry_success with (m := m); auto; try lia.
    - rewrite Hreq. unfold s0. rewrite trace_ensure. exact Hnet.
    - now rewrite Hfield. }
  assert (Hbal : _get_token_balance_on_account fl net account token s0
                 = Ok (fl (inject_Z r / inject_Z (10 ^ n))%Q,
                       emit [Get req (Response (PyDict kv))] s0)).
  { unfold _get_token_balance_on_account. rewrite Hload. cbn [bind fst snd].
    rewrite (balance_of_data_positive fl _ token r Htruthy)
      by (try exact Hr; cbn [py_int]; now rewrite Hparse).
    rewrite (token_decimals_given token n Hdec) by lia.
    destruct (Z.gtb_spec n 0); [reflexivity|lia]. }
  pose proof (token_step_value fl net account token s _ _ Hbal) as Hstep.
  eexists. split; [exact Hstep|]. cbn [_accounts set_accounts trace emit].
  split; [|split].
  - unfold s0. now rewrite trace_ensure.
  - rewrite lookup_tset. now rewrite !String.eqb_refl.
  - intros sym a Hne. rewrite lookup_tset.
    destruct (String.eqb_spec (short token) sym) as [<-|]; [|reflexivity].
    destruct (String.eqb_spec account a) as [<-|]; [congruence|reflexivity].
Qed.

End TokenStored.

(** ** The further properties on concrete runs *)

Lemma load_retry_within_budget_witness :
  exists d s',
    __load_retry rate_limit_server [] 5 demo_state = Ok (d, s')
    /\ exists evs,
         trace s' = (trace demo_state ++ evs)%list
         /\ Z.of_nat (requests_made evs) <= Z.max 5 0
         /\ 0 <= seconds_slept evs <= Z.of_nat (requests_made evs)
         /\ Forall (sent_for (request_for demo_state
                                (dict_update [] (api_fields demo_state)))) evs.
Proof.
  assert (H : exists r, __load_retry rate_limit_server [] 5 demo_state = Ok r)
    by (eexists; vm_compute; reflexivity).
  destruct H as ([d s'] & H). exists d, s'. split; [exact H|].
  exact (load_retry_within_budget rate_limit_server [] 5 demo_state d s' H).
Defined.

Lemma load_retry_touches_only_the_flag_witness :
  exists d s',
    __load_retry invalid_key_server [] 5 stale_state = Ok (d, s')
    /\ _accounts s' = _accounts stale_state
    /\ config_eq stale_state s'
    /\ exists evs,
         trace s' = (trace stale_state ++ evs)%list
         /\ enable_authentication (settings s')
            = enable_authentication (settings stale_state)
              && negb (auth_observed evs).
Proof.
  assert (H : exists r, __load_retry invalid_key_server [] 5 stale_state = Ok r)
    by (eexists; vm_compute; reflexivity).
  destruct H as ([d s'] & H). exists d, s'. split; [exact H|].
  exact (load_retry_touches_only_the_flag invalid_key_server [] 5 stale_state
           d s' H).
Defined.

Lemma flag_cleared_only_by_rejected_key_witness :
  exists s',
    run_methods exact rate_limit_server [RetrieveAccounts; RetrieveTokens]
      stale_state = Ok s'
    /\ config_eq stale_state s'
    /\ exists evs,
         trace s' = (trace stale_state ++ evs)%list
         /\ enable_authentication (settings s')
            = enable_authentication (settings stale_state)
              && negb (auth_observed evs).
Proof.
  assert (H : exists s',
             run_methods exact rate_limit_server
               [RetrieveAccounts; RetrieveTokens] stale_state = Ok s')
    by (eexists; vm_compute; reflexivity).
  destruct H as (s' & H). exists s'. split; [exact H|].
  exact (flag_cleared_only_by_rejected_key exact rate_limit_server _ _ _ H).
Defined.

Lemma requests_carry_key_and_selectors_witness :
  exists s',
    run_methods exact demo_server
      [RetrieveAccounts; LoadRetry [("apikey", PyStr "other")] 2] demo_state
    = Ok s'
    /\ exists evs,
         trace s' = (trace demo_state ++ evs)%list
         /\ Forall (sent_by demo_state) evs.
Proof.
  assert (H : exists s',
             run_methods exact demo_server
               [RetrieveAccounts; LoadRetry [("apikey", PyStr "other")] 2]
               demo_state = Ok s')
    by (eexists; vm_compute; reflexivity).
  destruct H as (s' & H). exists s'. split; [exact H|].
  exact (requests_carry_key_and_selectors exact demo_server _ _ _ H).
Defined.

Lemma table_only_grows_witness :
  exists s',
    run_methods exact unreachable [RetrieveAccounts] legacy_state = Ok s'
    /\ (forall sym, dict_get sym (_accounts legacy_state) <> None ->
                    dict_get sym (_accounts s') <> None)
    /\ (forall sym a, present sym a (_accounts legacy_state) ->
                      present sym a (_accounts s')).
Proof.
  assert (H : exists s',
             run_methods exact unreachable [RetrieveAccounts] legacy_state
             = Ok s')
    by (eexists; vm_compute; reflexivity).
  destruct H as (s' & H). exists s'. split; [exact H|].
  exact (table_only_grows exact unreachable _ _ _ H).
Defined.

Lemma load_retry_gives_up_quietly_witness :
  (forall h r, refuses (rate_limit_server h r))
  /\ exists s', __load_retry rate_limit_server [] 5 demo_state = Ok (PyNone, s').
Proof.
  assert (Href : forall h r, refuses (rate_limit_server h r))
    by (intros h r; reflexivity).
  split; [exact Href|].
  exact (load_retry_gives_up_quietly rate_limit_server Href [] 5 demo_state).
Defined.

Lemma retrieve_tokens_zeroes_when_refused_witness :
  (forall h r, refuses (unreachable h r))
  /\ exists s',
       retrieve_tokens exact unreachable stale_state = Ok s'
       /\ forall tok a,
            In tok [usdc] -> In a (eth_keys (_accounts stale_state)) ->
            lookup (short tok) a (_accounts s') = Some (exact 0%Q).
Proof.
  assert (Href : forall h r, refuses (unreachable h r))
    by (intros h r; exact I).
  split; [exact Href|].
  exact (retrieve_tokens_zeroes_when_refused exact unreachable Href [usdc]
           stale_state eq_refl).
Defined.

Lemma refresh_without_data_witness :
  (forall h r, refuses (invalid_key_server h r))
  /\ exists s',
       retrieve_accounts exact invalid_key_server stale_state
       = Ok (_accounts s', s')
       /\ lookup "USDC" "0xB" (_accounts stale_state) = Some 7%Q
       /\ lookup "USDC" "0xB" (_accounts s') = Some (exact 0%Q)
       /\ lookup "ETH" "0xB" (_accounts s') = Some 1%Q.
Proof.
  assert (Href : forall h r, refuses (invalid_key_server h r))
    by (intros h r; reflexivity).
  split; [exact Href|].
  destruct (refresh_without_data exact invalid_key_server Href stale_state
              [usdc] eq_refl eq_refl) as (s' & Hrun & Hzero & Heth).
  exists s'. split; [exact Hrun|]. split; [reflexivity|]. split.
  - apply (Hzero usdc "0xB"); [now left|].
    right. now left.
  - rewrite Heth; [reflexivity|].
    intros tok [<-|[]]. discriminate.
Defined.

Lemma retrieve_accounts_raises_on_unrecognised_witness :
  retrieve_accounts exact empty_result_server demo_state = Raise TypeError.
Proof.
  apply (retrieve_accounts_raises_on_unrecognised exact empty_result_server
           demo_state
           [("status", PyStr "1"); ("message", PyStr "OK");
            ("result", PyStr "")] "OK"); reflexivity.
Defined.

Lemma token_balance_raises_on_unrecognised_witness :
  _get_token_balance_on_account exact empty_result_server "0xA" usdc demo_state
  = Raise TypeError.
Proof.
  apply (token_balance_raises_on_unrecognised exact empty_result_server
           "0xA" usdc demo_state
           [("status", PyStr "1"); ("message", PyStr "OK");
            ("result", PyStr "")] "OK"); reflexivity.
Defined.

Lemma token_balance_not_negative_witness :
  (forall q, (0 <= q)%Q -> (0 <= exact q)%Q)
  /\ exists v s',
       _get_token_balance_on_account exact demo_server "0xA" usdc demo_state
       = Ok (v, s')
       /\ (0 <= v)%Q.
Proof.
  assert (Hfl : forall q, (0 <= q)%Q -> (0 <= exact q)%Q).
  { intros q Hq. unfold exact. now rewrite Qred_correct. }
  split; [exact Hfl|].
  assert (H : exists r,
             _get_token_balance_on_account exact demo_server "0xA" usdc
               demo_state = Ok r)
    by (eexists; vm_compute; reflexivity).
  destruct H as ([v s'] & H). exists v, s'. split; [exact H|].
  exact (token_balance_not_negative exact demo_server "0xA" usdc demo_state
           v s' Hfl H).
Defined.

Lemma retrieve_tokens_writes_only_token_cells_witness :
  exists s',
    retrieve_tokens exact demo_server legacy_state = Ok s'
    /\ forall sym a,
         (forall tok, In tok [usdc] -> short tok <> sym)
         \/ ~ In a (eth_keys (_accounts legacy_state)) ->
         lookup sym a (_accounts s') = lookup sym a (_accounts legacy_state).
Proof.
  assert (H : exists s', retrieve_tokens exact demo_server legacy_state = Ok s')
    by (eexists; vm_compute; reflexivity).
  destruct H as (s' & H). exists s'. split; [exact H|].
  exact (retrieve_tokens_writes_only_token_cells exact demo_server
           legacy_state s' [usdc] eq_refl H).
Defined.

Lemma retrieve_tokens_without_tokens_witness :
  retrieve_tokens exact demo_server native_stale_state = Raise TypeError.
Proof.
  apply (retrieve_tokens_without_tokens exact demo_server native_stale_state);
    [reflexivity|discriminate].
Defined.

Lemma retrieve_tokens_without_accounts_witness :
  retrieve_tokens exact demo_server demo_state
  = Ok (ensure_symbol "ETH" demo_state).
Proof.
  apply (retrieve_tokens_without_accounts exact demo_server demo_state).
  reflexivity.
Defined.

Lemma refresh_request_bound_witness :
  exists t s',
    retrieve_accounts exact partial_server stale_state = Ok (t, s')
    /\ exists evs,
         trace s' = (trace stale_state ++ evs)%list
         /\ (requests_made evs
             <= 5 * (1 + length (configured_tokens stale_state)
                         * length (eth_keys t)))%nat
         /\ 0 <= seconds_slept evs <= Z.of_nat (requests_made evs).
Proof.
  assert (H : exists r,
             retrieve_accounts exact partial_server stale_state = Ok r)
    by (eexists; vm_compute; reflexivity).
  destruct H as ([t s'] & H). exists t, s'. split; [exact H|].
  exact (refresh_request_bound exact partial_server stale_state t s' H).
Defined.

Lemma refresh_changes_only_eth_and_tokens_witness :
  exists t s',
    retrieve_accounts exact demo_server legacy_state = Ok (t, s')
    /\ lookup "DAI" "0xA" t = Some 9%Q.
Proof.
  assert (H : exists r,
             retrieve_accounts exact demo_server legacy_state = Ok r)
    by (eexists; vm_compute; reflexivity).
  destruct H as ([t s'] & H). exists t, s'. split; [exact H|].
  rewrite (refresh_changes_only_eth_and_tokens exact demo_server legacy_state
             t s' "DAI" "0xA" H).
  - reflexivity.
  - discriminate.
  - intros tok [<-|[]]. discriminate.
Defined.

Lemma token_step_stores_balance_witness :
  exists s',
    token_step exact demo_server "0xA" usdc stale_state = Ok s'
    /\ lookup "USDC" "0xA" (_accounts s')
       = Some (exact (inject_Z 5000000 / inject_Z (10 ^ 6))%Q)
    /\ lookup "USDC" "0xB" (_accounts s') = Some 7%Q.
Proof.
  destruct (token_step_stores_balance exact demo_server "0xA" usdc stale_state
              [("status", PyStr "1"); ("message", PyStr "OK");
               ("result", PyStr "5000000")] "OK" "5000000" 5000000 6)
    as (s' & Hstep & _ & Hval & Hother);
    try reflexivity; try lia.
  exists s'. split; [exact Hstep|]. split; [exact Hval|].
  rewrite Hother; [reflexivity|discriminate].
Defined.
